(** * compare_payments: reconciliation of two payment exports

    A shallow embedding of [compare_payments.py] (parsers, per-source
    aggregators and the reconciler) together with the properties its
    specification states about them.

    Conventions of the embedding.

    - A Python [str] is a [string]; one [ascii] stands for one code point,
      so the texts covered are those whose code points lie below 256.  On
      that range [str.isspace] holds for 9-13, 28-32, 133 and 160, and the
      only decimal digits are ["0"] .. ["9"].
    - A Python value handed to a parser is a [scalar]: [None], the float
      [nan] (the missing-marker of pandas), a [str], an [int], or any other
      object, carried by the text [str()] renders for it.  [str()] raises
      ValueError for an [int] of more than 4300 digits.
    - A cell of a sheet is a [cell]: a scalar that [str()] renders.  The
      reader builds an [int] cell with [int()], which is under the same limit
      of 4300 digits.
    - [decimal.Decimal] is the triple representation (sign, coefficient,
      exponent) with infinities and NaNs; arithmetic is the one of the default
      context: 28 significant digits, ROUND_HALF_EVEN, exponents between
      -999999 and 999999, with InvalidOperation and Overflow trapped.
    - A Python call either returns or raises: [result].
    - A pandas frame is the list of its rows in index order, and a frame read
      from a sheet has rows; [isna] holds for [None], the float [nan] and the
      quiet [Decimal("NaN")].
    - [astype(str)] renders a missing value as text in pandas before 3.0 and
      keeps it missing from 3.0 on.  [prepare_file1], [prepare_file2] and
      [compare] follow pandas before 3.0; [prepare_file1_on],
      [prepare_file2_on] and [compare_on] take the version as a parameter. *)

From Stdlib Require Import ZArith NArith QArith Qpower List String Ascii Bool Lia.
From Stdlib Require Import Sorting.Sorted Sorting.Permutation.
From Stdlib Require Floats.SpecFloat.
Import ListNotations.

Local Open Scope string_scope.
Local Open Scope Z_scope.

(** ** Python calls: return or raise *)

Inductive exn : Type :=
| InvalidOperation   (* decimal.InvalidOperation *)
| Overflow           (* decimal.Overflow *)
| ValueError.        (* ValueError *)

Inductive result (A : Type) : Type :=
| Ok (a : A)
| Raise (e : exn).

Arguments Ok {A} a.
Arguments Raise {A} e.

Definition bind {A B : Type} (r : result A) (k : A -> result B) : result B :=
  match r with
  | Ok a => k a
  | Raise e => Raise e
  end.

Notation "x <- c ;; k" := (bind c (fun x => k))
  (at level 61, c at next level, right associativity).

(** [map] for a function that may raise: the first exception, in list order,
    ends the traversal. *)
Fixpoint mapM {A B : Type} (f : A -> result B) (l : list A) : result (list B) :=
  match l with
  | [] => Ok []
  | x :: l' => y <- f x ;; ys <- mapM f l' ;; Ok (y :: ys)
  end.

(** ** Text *)

Module Str.

(** [str.isspace] on one character. *)
Definition isspace (c : ascii) : bool :=
  let n := N_of_ascii c in
  ((9 <=? n) && (n <=? 13) || (28 <=? n) && (n <=? 32)
   || (n =? 133) || (n =? 160))%N.

Definition isdigit (c : ascii) : bool :=
  let n := N_of_ascii c in ((48 <=? n) && (n <=? 57))%N.

Definition is_empty (s : string) : bool :=
  match s with EmptyString => true | String _ _ => false end.

Fixpoint lstrip (s : string) : string :=
  match s with
  | EmptyString => EmptyString
  | String c s' => if isspace c then lstrip s' else s
  end.

Fixpoint rstrip (s : string) : string :=
  match s with
  | EmptyString => EmptyString
  | String c s' =>
      let r := rstrip s' in
      if isspace c && is_empty r then EmptyString else String c r
  end.

(** [s.strip()] *)
Definition strip (s : string) : string := lstrip (rstrip s).

(** [s.replace(old, new)] for a one-character [old]. *)
Fixpoint replace (old : ascii) (new : string) (s : string) : string :=
  match s with
  | EmptyString => EmptyString
  | String c s' =>
      if Ascii.eqb c old then new ++ replace old new s'
      else String c (replace old new s')
  end.

(** [s.split(sep)[0]] for a one-character [sep]. *)
Fixpoint split_head (sep : ascii) (s : string) : string :=
  match s with
  | EmptyString => EmptyString
  | String c s' =>
      if Ascii.eqb c sep then EmptyString else String c (split_head sep s')
  end.

(** [c in s] *)
Fixpoint mem (c : ascii) (s : string) : bool :=
  match s with
  | EmptyString => false
  | String d s' => Ascii.eqb d c || mem c s'
  end.

Fixpoint forallb (p : ascii -> bool) (s : string) : bool :=
  match s with
  | EmptyString => true
  | String c s' => p c && forallb p s'
  end.

(** The longest prefix of characters satisfying [p], and what follows. *)
Fixpoint span (p : ascii -> bool) (s : string) : string * string :=
  match s with
  | EmptyString => (EmptyString, EmptyString)
  | String c s' =>
      if p c then let (a, b) := span p s' in (String c a, b)
      else (EmptyString, s)
  end.

(** [str(n)] for an [int]. *)
Fixpoint digits_of_pos_fuel (fuel : nat) (n : N) (acc : string) : string :=
  match fuel with
  | O => acc
  | S f =>
      let acc' := String (ascii_of_N (48 + n mod 10)) acc in
      if (n <? 10)%N then acc' else digits_of_pos_fuel f (n / 10)%N acc'
  end.

Definition str_of_N (n : N) : string :=
  digits_of_pos_fuel (S (N.size_nat n)) n EmptyString.

Definition str_of_Z (z : Z) : string :=
  match z with
  | Z0 => "0"
  | Zpos p => str_of_N (Npos p)
  | Zneg p => String "-" (str_of_N (Npos p))
  end.

End Str.

(** ** Cells *)

Inductive scalar : Type :=
| PyNone                      (* None *)
| PyNaN                       (* float('nan') *)
| PyStr (s : string)          (* a str *)
| PyInt (n : Z)               (* an int *)
| PyOther (text : string).    (* another object (a float that is not nan,
                                 a bool, a datetime), by its str() text *)

(** [value is None or (isinstance(value, float) and pd.isna(value))] *)
Definition is_missing (v : scalar) : bool :=
  match v with
  | PyNone | PyNaN => true
  | _ => false
  end.

(** [sys.int_info.default_max_str_digits]: [str()] and [int()] refuse an
    [int] of more digits. *)
Definition MAX_STR_DIGITS : Z := 4300.

(** [str(value)] raises ValueError. *)
Definition str_raises (v : scalar) : bool :=
  match v with
  | PyInt n => 10 ^ MAX_STR_DIGITS <=? Z.abs n
  | _ => false
  end.

(** The text of [str(value)], for a value [str()] renders. *)
Definition str (v : scalar) : string :=
  match v with
  | PyNone => "None"
  | PyNaN => "nan"
  | PyStr s => s
  | PyInt n => Str.str_of_Z n
  | PyOther t => t
  end.

(** A cell of a frame: a value the reader of the sheet delivers. *)
Record cell : Type := {
  cell_value :> scalar;
  cell_renders : str_raises cell_value = false
}.

(** An empty cell and a cell that holds a text. *)
Definition blank : cell := Build_cell PyNaN eq_refl.
Definition text_cell (s : string) : cell := Build_cell (PyStr s) eq_refl.

(** ** Identifier parsers *)

(** [ID_BRACKET_RE = re.compile(r"\[(\d+)\]")]: the match anchored right
    after an opening bracket.  [\d+] is greedy and followed by a bracket, so
    it takes the whole run of digits. *)
Definition match_bracket_body (s : string) : option string :=
  match Str.span Str.isdigit s with
  | (String d ds, String "]" _) => Some (String d ds)
  | _ => None
  end.

(** [ID_BRACKET_RE.search(s)], reduced to group 1 of the match. *)
Fixpoint ID_BRACKET_RE_search (s : string) : option string :=
  match s with
  | EmptyString => None
  | String c s' =>
      if Ascii.eqb c "[" then
        match match_bracket_body s' with
        | Some g => Some g
        | None => ID_BRACKET_RE_search s'
        end
      else ID_BRACKET_RE_search s'
  end.

Definition parse_id_from_file1 (name_with_id : scalar) : option string :=
  if is_missing name_with_id then None
  else ID_BRACKET_RE_search (str name_with_id).

Definition parse_id_from_file2 (raw_id : scalar) : option string :=
  if is_missing raw_id then None
  else
    let text := Str.strip (str raw_id) in
    if Str.is_empty text then None
    else Some (Str.strip (Str.split_head "," text)).

(** ** decimal.Decimal *)

Inductive decimal : Type :=
| Fin (neg : bool) (coeff : N) (exp : Z)       (* (-1)^neg * coeff * 10^exp *)
| Inf (neg : bool)
| NaN (neg : bool) (signaling : bool) (payload : N).

(** The default context. *)
Definition prec : Z := 28.
Definition Emax : Z := 999999.
Definition Emin : Z := -999999.
Definition Etiny : Z := Emin - prec + 1.
Definition Etop : Z := Emax - prec + 1.

(** Limits of the exact constructor (64-bit build of the C module). *)
Definition MAX_EMAX : Z := 999999999999999999.
Definition MIN_ETINY : Z := -1999999999999999997.

(** [len(str(n))] *)
Fixpoint ndigits_fuel (fuel : nat) (n : N) : Z :=
  match fuel with
  | O => 1
  | S f => if (n <? 10)%N then 1 else 1 + ndigits_fuel f (n / 10)%N
  end.

Definition ndigits (n : N) : Z := ndigits_fuel (N.size_nat n) n.

(** [int(s)] for a run of digits; the empty run counts as 0. *)
Fixpoint int_of_digits_acc (acc : N) (s : string) : N :=
  match s with
  | EmptyString => acc
  | String c s' => int_of_digits_acc (10 * acc + (N_of_ascii c - 48))%N s'
  end.

Definition int_of_digits (s : string) : N := int_of_digits_acc 0 s.

Definition lower (c : ascii) : ascii :=
  let n := N_of_ascii c in
  if ((65 <=? n) && (n <=? 90))%N then ascii_of_N (n + 32) else c.

Fixpoint lower_str (s : string) : string :=
  match s with
  | EmptyString => EmptyString
  | String c s' => String (lower c) (lower_str s')
  end.

(** An optional sign in front of [s]: whether it is a minus, and the rest. *)
Definition split_sign (s : string) : bool * string :=
  match s with
  | EmptyString => (false, s)
  | String c r =>
      if Ascii.eqb c "-" then (true, r)
      else if Ascii.eqb c "+" then (false, r)
      else (false, s)
  end.

(** [s[len(p):]] when [s.startswith(p)] *)
Fixpoint drop_prefix (p s : string) : option string :=
  match p, s with
  | EmptyString, _ => Some s
  | String _ _, EmptyString => None
  | String a p', String b s' => if Ascii.eqb a b then drop_prefix p' s' else None
  end.

(** The exponent part: nothing, or [E], an optional sign and digits. *)
Definition parse_exponent (s : string) : option Z :=
  match s with
  | EmptyString => Some 0
  | String e r =>
      if Ascii.eqb (lower e) "e" then
        let (neg, ds) := split_sign r in
        if Str.is_empty ds || negb (Str.forallb Str.isdigit ds) then None
        else
          let n := Z.of_N (int_of_digits ds) in
          Some (if neg then - n else n)
      else None
  end.

(** A number: digits with an optional fractional part, at least one digit
    in all, and an optional exponent. *)
Definition parse_number (neg : bool) (s : string) : option decimal :=
  let (intpart, r1) := Str.span Str.isdigit s in
  let (fracpart, r2) :=
    match r1 with
    | EmptyString => (EmptyString, r1)
    | String c r =>
        if Ascii.eqb c "." then Str.span Str.isdigit r else (EmptyString, r1)
    end in
  if Str.is_empty intpart && Str.is_empty fracpart then None
  else
    match parse_exponent r2 with
    | None => None
    | Some e =>
        Some (Fin neg (int_of_digits (intpart ++ fracpart))
                (e - Z.of_nat (String.length fracpart)))
    end.

(** The diagnostic digits of a NaN. *)
Definition parse_diag (neg signaling : bool) (diag : string) : option decimal :=
  if Str.forallb Str.isdigit diag
  then Some (NaN neg signaling (int_of_digits diag)) else None.

(** [Inf], [Infinity], [NaN] and [sNaN] with diagnostic digits, in any
    case of letters. *)
Definition parse_special (neg : bool) (s : string) : option decimal :=
  let l := lower_str s in
  if (l =? "inf")%string || (l =? "infinity")%string then Some (Inf neg)
  else
    match drop_prefix "nan" l with
    | Some diag => parse_diag neg false diag
    | None =>
        match drop_prefix "snan" l with
        | Some diag => parse_diag neg true diag
        | None => None
        end
    end.

(** Whether the exact constructor can hold the value. *)
Definition representable (d : decimal) : bool :=
  match d with
  | Fin _ c e => (MIN_ETINY <=? e) && (e + ndigits c - 1 <=? MAX_EMAX)
  | _ => true
  end.

(** [Decimal(text)]: surrounding whitespace is stripped and underscores
    are dropped; a text that is no numeric string raises InvalidOperation. *)
Definition Decimal (text : string) : result decimal :=
  let s := Str.replace "_" "" (Str.strip text) in
  let (neg, body) := split_sign s in
  match parse_special neg body with
  | Some d => Ok d
  | None =>
      match parse_number neg body with
      | Some d => if representable d then Ok d else Raise InvalidOperation
      | None => Raise InvalidOperation
      end
  end.

(** Rounding of a coefficient to drop its last [k] digits, ROUND_HALF_EVEN. *)
Definition round_half_even (c : N) (k : Z) : N :=
  let p := (10 ^ Z.to_N k)%N in
  let q := (c / p)%N in
  match (2 * (c mod p) ?= p)%N with
  | Lt => q
  | Gt => (q + 1)%N
  | Eq => if N.even q then q else (q + 1)%N
  end.

(** [Decimal._fix]: round a finite result to the context. *)
Definition fix_ (neg : bool) (c : N) (e : Z) : result decimal :=
  if (c =? 0)%N then Ok (Fin neg 0 (Z.min (Z.max e Etiny) Emax))
  else
    let exp_min := ndigits c + e - prec in
    if Etop <? exp_min then Raise Overflow
    else
      let exp_min := Z.max exp_min Etiny in
      if e <? exp_min then
        let q := round_half_even c (exp_min - e) in
        let (q, exp_min) :=
          if prec <? ndigits q then ((q / 10)%N, exp_min + 1)
          else (q, exp_min) in
        if Etop <? exp_min then Raise Overflow else Ok (Fin neg q exp_min)
      else Ok (Fin neg c e).

(** [Decimal._check_nans]: a signaling NaN raises, a quiet one is the
    result, with its payload cut to the precision. *)
Definition check_nans (a b : decimal) : option (result decimal) :=
  match a, b with
  | NaN _ true _, _ => Some (Raise InvalidOperation)
  | _, NaN _ true _ => Some (Raise InvalidOperation)
  | NaN n false p, _ => Some (Ok (NaN n false (p mod 10 ^ Z.to_N prec)%N))
  | _, NaN n false p => Some (Ok (NaN n false (p mod 10 ^ Z.to_N prec)%N))
  | _, _ => None
  end.

Definition signed (neg : bool) (c : N) : Z :=
  if neg then - Z.of_N c else Z.of_N c.

(** The sum of two finite decimals before it is rounded: at the smaller of
    the two exponents; a zero sum is negative when both terms are. *)
Definition exact_add (a b : decimal) : decimal :=
  match a, b with
  | Fin s1 c1 e1, Fin s2 c2 e2 =>
      let e := Z.min e1 e2 in
      let m := signed s1 c1 * 10 ^ (e1 - e) + signed s2 c2 * 10 ^ (e2 - e) in
      let neg := if m =? 0 then s1 && s2 else m <? 0 in
      Fin neg (Z.to_N (Z.abs m)) e
  | _, _ => a
  end.

(** [a + b] *)
Definition dec_add (a b : decimal) : result decimal :=
  match check_nans a b with
  | Some r => r
  | None =>
      match a, b with
      | Inf s, Inf s' =>
          if Bool.eqb s s' then Ok (Inf s) else Raise InvalidOperation
      | Inf s, _ => Ok (Inf s)
      | _, Inf s => Ok (Inf s)
      | Fin _ _ _, Fin _ _ _ =>
          match exact_add a b with
          | Fin neg c e => fix_ neg c e
          | _ => Raise InvalidOperation
          end
      | _, _ => Raise InvalidOperation
      end
  end.

Definition copy_negate (d : decimal) : decimal :=
  match d with
  | Fin s c e => Fin (negb s) c e
  | Inf s => Inf (negb s)
  | NaN s g p => NaN (negb s) g p
  end.

(** [a - b] *)
Definition dec_sub (a b : decimal) : result decimal :=
  match check_nans a b with
  | Some r => r
  | None => dec_add a (copy_negate b)
  end.

(** [d == 0] *)
Definition dec_eq_zero (d : decimal) : result bool :=
  match d with
  | NaN _ true _ => Raise InvalidOperation
  | NaN _ false _ => Ok false
  | Inf _ => Ok false
  | Fin _ c _ => Ok (c =? 0)%N
  end.

(** [Decimal("0")] *)
Definition Decimal_0 : decimal := Fin false 0 0.

(** [sum(values, start)] *)
Fixpoint py_sum (values : list decimal) (start : decimal) : result decimal :=
  match values with
  | [] => Ok start
  | v :: values' => s <- dec_add start v ;; py_sum values' s
  end.

(** ** Amount parser *)

Definition parse_amount (value : scalar) : result (option decimal) :=
  if is_missing value then Ok None
  else if str_raises value then Raise ValueError
  else
    let text := Str.replace " " "" (Str.strip (str value)) in
    if Str.is_empty text then Ok None
    else
      let text := Str.replace "," "." text in
      match Decimal text with
      | Ok d => Ok (Some d)
      | Raise InvalidOperation => Ok None
      | Raise e => Raise e
      end.

(** ** Frames *)

(** [pd.notna] on a cell. *)
Definition cell_notna (v : scalar) : bool := negb (is_missing v).

(** [a.where(a.notna(), b)], one row at a time. *)
Definition where_notna (a b : cell) : cell :=
  if cell_notna a then a else b.

(** [pd.isna] on a [Decimal]: the quiet NaN counts as missing. *)
Definition decimal_isna (d : decimal) : bool :=
  match d with
  | NaN _ false _ => true
  | _ => false
  end.

(** [values.fillna(Decimal("0"))], one row at a time; a missing value is
    [None] here. *)
Definition fillna_0 (v : option decimal) : decimal :=
  match v with
  | None => Decimal_0
  | Some d => if decimal_isna d then Decimal_0 else d
  end.

(** [v for v in x if v is not None] *)
Fixpoint not_None (x : list (option decimal)) : list decimal :=
  match x with
  | [] => []
  | Some v :: x' => v :: not_None x'
  | None :: x' => not_None x'
  end.

(** The keys of a [groupby]: distinct, in ascending order. *)
Fixpoint insert_key (k : string) (keys : list string) : list string :=
  match keys with
  | [] => [k]
  | x :: keys' =>
      match String.compare k x with
      | Lt => k :: keys
      | Eq => keys
      | Gt => x :: insert_key k keys'
      end
  end.

Definition group_keys (column : list string) : list string :=
  fold_right insert_key [] column.

(** [frame.sort_values(by=key)] *)
Fixpoint insert_by {A : Type} (key : A -> string) (r : A) (l : list A) : list A :=
  match l with
  | [] => [r]
  | x :: l' =>
      if String.leb (key r) (key x) then r :: l else x :: insert_by key r l'
  end.

Definition sort_values {A : Type} (key : A -> string) (l : list A) : list A :=
  fold_right (insert_by key) [] l.

(** Rows of the first export, columns C, D and AF from row 9 on. *)
Record row1 : Type := {
  r1_name_c : cell;
  r1_name_d : cell;
  r1_amount : cell
}.

(** Rows of the second export, columns A, B, C and F from row 5 on. *)
Record row2 : Type := {
  r2_raw_id : cell;
  r2_name_b : cell;
  r2_name_c : cell;
  r2_amount : cell
}.

(** A row of [out]: the rows kept for aggregation. *)
Record kept : Type := {
  k_company_id : string;
  k_company_name : string;
  k_amount : option decimal
}.

(** A row of an aggregated table.  [first] yields a missing value, [None]
    here, for a group without a value. *)
Record total : Type := {
  t_company_id : string;
  t_amount : decimal;
  t_company_name : option string
}.

(** [out.groupby("company_id", as_index=False).agg(...)]: one column after
    the other, each over all groups in key order. *)
Definition group_of (out : list kept) (k : string) : list kept :=
  filter (fun r => (k_company_id r =? k)%string) out.

Definition aggregate (out : list kept) : result (list total) :=
  let keys := group_keys (map k_company_id out) in
  amounts <- mapM (fun k => py_sum (not_None (map k_amount (group_of out k)))
                                   Decimal_0) keys ;;
  let names := map (fun k => hd_error (map k_company_name (group_of out k))) keys in
  Ok (map (fun kan => Build_total (fst (fst kan)) (snd (fst kan)) (snd kan))
          (combine (combine keys amounts) names)).

(** [df.loc[df["company_id"].notna(), ...]] with the two [astype(str)
    .str.strip()] columns.  A missing name cell is rendered as text, as
    [astype(str)] does in pandas before 3.0. *)
Definition keep (company_id : option string) (company_raw : cell)
                (amount : option decimal) : list kept :=
  match company_id with
  | None => []
  | Some id => [Build_kept (Str.strip id) (Str.strip (str company_raw)) amount]
  end.

(** [df["company_raw"]] and [df["company_id"]] of the first export: column
    D, and column C where D is empty. *)
Definition company_raw_1 (r : row1) : cell :=
  where_notna (r1_name_d r) (r1_name_c r).

Definition company_id_1 (r : row1) : option string :=
  parse_id_from_file1 (company_raw_1 r).

(** [prepare_file1], from the frame [df] with its three columns named.
    That is the frame of a sheet with data rows: for a sheet without any, the
    reader delivers a frame without columns, and naming them raises. *)
Definition prepare_file1 (df : list row1) : result (list total) :=
  rows <- mapM (fun r =>
            amount_1 <- parse_amount (r1_amount r) ;;
            Ok (keep (company_id_1 r) (company_raw_1 r) amount_1)) df ;;
  aggregate (List.concat rows).

(** [df["company_id"]] and [df["company_raw"]] of the second export: the
    identifier from column A, the name from column C, and from column B
    where C is empty. *)
Definition company_id_2 (r : row2) : option string :=
  parse_id_from_file2 (r2_raw_id r).

Definition company_raw_2 (r : row2) : cell :=
  where_notna (r2_name_c r) (r2_name_b r).

(** [prepare_file2], from the frame [df] with its four columns named. *)
Definition prepare_file2 (df : list row2) : result (list total) :=
  rows <- mapM (fun r =>
            amount_2 <- parse_amount (r2_amount r) ;;
            Ok (keep (company_id_2 r) (company_raw_2 r) amount_2)) df ;;
  aggregate (List.concat rows).

(** ** Reconciler *)

(** A row of [merged] once [delta] is there. *)
Record joined : Type := {
  j_company_id : string;
  j_company_name_1 : option string;
  j_company_name_2 : option string;
  j_amount_1 : decimal;
  j_amount_2 : decimal;
  j_delta : decimal
}.

Record detail_row : Type := {
  company_id : string;
  company_name_1 : option string;
  company_name_2 : option string;
  amount_1 : decimal;
  amount_2 : decimal;
  delta : decimal;
  status : string
}.

Record summary_row : Type := {
  s_status : string;
  s_rows : nat;
  s_total_amount_1 : decimal;
  s_total_amount_2 : decimal;
  s_total_delta : decimal
}.

(** A row of [left.merge(right, on="company_id", how="outer")]: a side
    without the key has missing values. *)
Record merged_row : Type := {
  m_company_id : string;
  m_side_1 : option total;
  m_side_2 : option total
}.

Definition side_of (t : list total) (k : string) : list total :=
  filter (fun r => (t_company_id r =? k)%string) t.

(** The rows of the join for one key: every pair of a left and a right row
    that carry it, or the rows of the one side that does. *)
Definition rows_of_key (left right : list total) (k : string) : list merged_row :=
  match side_of left k, side_of right k with
  | ls, [] => map (fun l => Build_merged_row k (Some l) None) ls
  | [], rs => map (fun r => Build_merged_row k None (Some r)) rs
  | ls, rs =>
      flat_map (fun l => map (fun r => Build_merged_row k (Some l) (Some r)) rs) ls
  end.

(** The outer join sorts the keys. *)
Definition merge_outer (left right : list total) : list merged_row :=
  flat_map (rows_of_key left right)
           (group_keys (map t_company_id left ++ map t_company_id right)).

Definition side_name (s : option total) : option string :=
  match s with
  | None => None
  | Some t => t_company_name t
  end.

Definition get_status (file1_name file2_name : string) (row : joined)
  : result string :=
  let has_1 := match j_company_name_1 row with Some _ => true | None => false end in
  let has_2 := match j_company_name_2 row with Some _ => true | None => false end in
  if has_1 && has_2 then
    z <- dec_eq_zero (j_delta row) ;;
    Ok (if z then "MATCH" else "MISMATCH")
  else if has_1 then Ok ("only_file_" ++ file1_name)
  else Ok ("only_file_" ++ file2_name).

Definition status_group (detail : list detail_row) (k : string) : list detail_row :=
  filter (fun r => (status r =? k)%string) detail.

Definition summarize (detail : list detail_row) : result (list summary_row) :=
  let keys := group_keys (map status detail) in
  let rows := map (fun k => List.length (status_group detail k)) keys in
  t1 <- mapM (fun k => py_sum (map amount_1 (status_group detail k)) Decimal_0) keys ;;
  t2 <- mapM (fun k => py_sum (map amount_2 (status_group detail k)) Decimal_0) keys ;;
  td <- mapM (fun k => py_sum (map delta (status_group detail k)) Decimal_0) keys ;;
  Ok (sort_values s_status
        (map (fun x => Build_summary_row (fst (fst (fst (fst x)))) (snd (fst (fst (fst x))))
                         (snd (fst (fst x))) (snd (fst x)) (snd x))
             (combine (combine (combine (combine keys rows) t1) t2) td))).

(** The two [fillna] and [merged["delta"]], for one row. *)
Definition add_delta (m : merged_row) : result joined :=
  let a1 := fillna_0 (option_map t_amount (m_side_1 m)) in
  let a2 := fillna_0 (option_map t_amount (m_side_2 m)) in
  d <- dec_sub a1 a2 ;;
  Ok (Build_joined (m_company_id m) (side_name (m_side_1 m))
                   (side_name (m_side_2 m)) a1 a2 d).

(** [merged["status"]], for one row. *)
Definition add_status (file1_name file2_name : string) (j : joined)
  : result detail_row :=
  st <- get_status file1_name file2_name j ;;
  Ok (Build_detail_row (j_company_id j) (j_company_name_1 j)
        (j_company_name_2 j) (j_amount_1 j) (j_amount_2 j) (j_delta j) st).

(** The row [get_status] saw for a detail row. *)
Definition joined_of (row : detail_row) : joined :=
  Build_joined (company_id row) (company_name_1 row) (company_name_2 row)
               (amount_1 row) (amount_2 row) (delta row).

Definition compare (file1_name file2_name : string)
                   (file1 : list row1) (file2 : list row2)
  : result (list detail_row * list summary_row) :=
  left <- prepare_file1 file1 ;;
  right <- prepare_file2 file2 ;;
  let merged := merge_outer left right in
  with_delta <- mapM add_delta merged ;;
  with_status <- mapM (add_status file1_name file2_name) with_delta ;;
  let detail := sort_values company_id with_status in
  summary <- summarize detail ;;
  Ok (detail, summary).

(** ** The aggregators and the reconciler, for either version of pandas *)

(** [astype(str)] renders a missing value as text in pandas before 3.0; from
    3.0 on the column gets the [str] dtype, which keeps it missing. *)
Inductive pandas : Type :=
| Before_3
| From_3.

(** [column.astype(str)] on one cell; a value that stays missing is [None]
    here. *)
Definition astype_str (p : pandas) (v : cell) : option string :=
  match p with
  | Before_3 => Some (str v)
  | From_3 => if is_missing v then None else Some (str v)
  end.

(** A row of [out], with a name that may be missing. *)
Record kept_on : Type := {
  kn_company_id : string;
  kn_company_name : option string;
  kn_amount : option decimal
}.

Definition keep_on (p : pandas) (company_id : option string) (company_raw : cell)
                   (amount : option decimal) : list kept_on :=
  match company_id with
  | None => []
  | Some id =>
      [Build_kept_on (Str.strip id) (option_map Str.strip (astype_str p company_raw))
                     amount]
  end.

(** [GroupBy.first]: the first value of the group that is not missing. *)
Fixpoint first_valid (names : list (option string)) : option string :=
  match names with
  | [] => None
  | Some n :: _ => Some n
  | None :: names' => first_valid names'
  end.

Definition group_of_on (out : list kept_on) (k : string) : list kept_on :=
  filter (fun r => (kn_company_id r =? k)%string) out.

Definition aggregate_on (out : list kept_on) : result (list total) :=
  let keys := group_keys (map kn_company_id out) in
  amounts <- mapM (fun k => py_sum (not_None (map kn_amount (group_of_on out k)))
                                   Decimal_0) keys ;;
  let names := map (fun k => first_valid (map kn_company_name (group_of_on out k)))
                   keys in
  Ok (map (fun kan => Build_total (fst (fst kan)) (snd (fst kan)) (snd kan))
          (combine (combine keys amounts) names)).

Definition prepare_file1_on (p : pandas) (df : list row1) : result (list total) :=
  rows <- mapM (fun r =>
            amount_1 <- parse_amount (r1_amount r) ;;
            Ok (keep_on p (company_id_1 r) (company_raw_1 r) amount_1)) df ;;
  aggregate_on (List.concat rows).

Definition prepare_file2_on (p : pandas) (df : list row2) : result (list total) :=
  rows <- mapM (fun r =>
            amount_2 <- parse_amount (r2_amount r) ;;
            Ok (keep_on p (company_id_2 r) (company_raw_2 r) amount_2)) df ;;
  aggregate_on (List.concat rows).

Definition compare_on (p : pandas) (file1_name file2_name : string)
                      (file1 : list row1) (file2 : list row2)
  : result (list detail_row * list summary_row) :=
  left <- prepare_file1_on p file1 ;;
  right <- prepare_file2_on p file2 ;;
  let merged := merge_outer left right in
  with_delta <- mapM add_delta merged ;;
  with_status <- mapM (add_status file1_name file2_name) with_delta ;;
  let detail := sort_values company_id with_status in
  summary <- summarize detail ;;
  Ok (detail, summary).

(** ** Rows of example sheets *)

(** A row of the first export with the name in column D, column C empty,
    and the amount as text. *)
Definition sheet1 (name amount : string) : row1 :=
  Build_row1 blank (text_cell name) (text_cell amount).

(** A row of the second export with the identifier in column A, the name in
    column C, column B empty, and the amount as text. *)
Definition sheet2 (id name amount : string) : row2 :=
  Build_row2 (text_cell id) blank (text_cell name) (text_cell amount).

(** A row of the second export whose two name cells are empty. *)
Definition sheet2_unnamed (id amount : string) : row2 :=
  Build_row2 (text_cell id) blank blank (text_cell amount).

(** ** Notions the properties are stated with *)

(** A run of one or more digits. *)
Definition digit_run (ds : string) : Prop :=
  ds <> "" /\ Str.forallb Str.isdigit ds = true.

(** A bracketed run of digits [ds] starts at offset [n] of [s]. *)
Definition group_at (s : string) (n : nat) (ds : string) : Prop :=
  exists pre post,
    String.length pre = n /\ s = pre ++ "[" ++ ds ++ "]" ++ post /\ digit_run ds.

(** The order of texts: code point by code point. *)
Definition str_lt (a b : string) : Prop := String.compare a b = Lt.
Definition str_le (a b : string) : Prop := String.leb a b = true.

(** Rows in ascending order of a key, without and with repeated keys. *)
Definition lt_by {A : Type} (key : A -> string) (a b : A) : Prop :=
  str_lt (key a) (key b).
Definition le_by {A : Type} (key : A -> string) (a b : A) : Prop :=
  str_le (key a) (key b).

(** Finite decimals and the rationals they stand for. *)
Definition is_finite (d : decimal) : bool :=
  match d with
  | Fin _ _ _ => true
  | _ => false
  end.

Definition dec_value (d : decimal) : Q :=
  match d with
  | Fin s c e => inject_Z (signed s c) * inject_Z 10 ^ e
  | _ => 0%Q
  end.

Definition total_value (values : list decimal) : Q :=
  fold_right (fun v acc => (dec_value v + acc)%Q) 0%Q values.

(** The default context holds a finite decimal as it is: no more than
    [prec] digits, and an exponent within its range. *)
Definition fits (d : decimal) : bool :=
  match d with
  | Fin _ c e =>
      if (c =? 0)%N then (Etiny <=? e) && (e <=? Emax)
      else (ndigits c <=? prec) && (Etiny <=? e) && (ndigits c + e - prec <=? Etop)
  | _ => false
  end.

(** A sum none of whose steps is rounded: the terms are finite and every
    partial sum fits the context. *)
Fixpoint exact_sum (values : list decimal) (start : decimal) : decimal :=
  match values with
  | [] => start
  | v :: values' => exact_sum values' (exact_add start v)
  end.

Fixpoint sum_fits (values : list decimal) (start : decimal) : bool :=
  match values with
  | [] => true
  | v :: values' =>
      is_finite v && fits (exact_add start v) && sum_fits values' (exact_add start v)
  end.

(** What [parse_amount] returns; on a cell it always does. *)
Definition amount_value (v : scalar) : option decimal :=
  match parse_amount v with
  | Ok a => a
  | Raise _ => None
  end.

(** The frame [out] of an aggregator whose rows have the identifier
    [id r], the resolved name cell [raw r] and the amount cell [amt r]. *)
Definition kept_rows {R : Type} (id : R -> option string) (raw amt : R -> cell)
                     (df : list R) : list kept :=
  flat_map (fun r => keep (id r) (raw r) (amount_value (amt r))) df.

(** The row [r] carries the trimmed identifier [k]. *)
Definition has_id {R : Type} (id : R -> option string) (k : string) (r : R) : bool :=
  match id r with
  | Some i => (Str.strip i =? k)%string
  | None => false
  end.

(** The sum of the amounts of a column as rationals, a missing amount
    counting as zero. *)
Definition value_or_zero (a : option decimal) : Q :=
  match a with
  | Some d => dec_value d
  | None => 0%Q
  end.

Definition column_value (column : list (option decimal)) : Q :=
  fold_right (fun a acc => (value_or_zero a + acc)%Q) 0%Q column.

(** [agg] aggregates the sheet [df]: one row for each trimmed identifier
    some row of [df] carries and for no other; its amount is the sum, from
    [Decimal("0")] on and in scan order, of the amounts parsed on the rows
    that carry the identifier, those without an amount left out, and that is
    the sum of their values whenever no step of it is rounded; its name is the
    trimmed text of the name cell of the first of these rows. *)
Definition aggregated {R : Type} (id : R -> option string) (raw amt : R -> cell)
                      (df : list R) (agg : list total) : Prop :=
  NoDup (map t_company_id agg)
  /\ (forall k, In k (map t_company_id agg) <->
                exists r, In r df /\ option_map Str.strip (id r) = Some k)
  /\ forall t, In t agg ->
       py_sum (not_None (map (fun r => amount_value (amt r))
                             (filter (has_id id (t_company_id t)) df))) Decimal_0
       = Ok (t_amount t)
       /\ (sum_fits (not_None (map (fun r => amount_value (amt r))
                                  (filter (has_id id (t_company_id t)) df)))
                    Decimal_0 = true ->
           (dec_value (t_amount t)
            == column_value (map (fun r => amount_value (amt r))
                                 (filter (has_id id (t_company_id t)) df)))%Q)
       /\ exists before r after,
            df = (before ++ r :: after)%list
            /\ has_id id (t_company_id t) r = true
            /\ (forall r', In r' before -> has_id id (t_company_id t) r' = false)
            /\ t_company_name t = Some (Str.strip (str (raw r))).


(** The text without any whitespace, as the specification words the
    cleaning of an amount. *)
Fixpoint spec_without_whitespace (s : string) : string :=
  match s with
  | EmptyString => EmptyString
  | String c s' =>
      if Str.isspace c then spec_without_whitespace s'
      else String c (spec_without_whitespace s')
  end.

(** [s] is the summary row of the status [k] of [detail]. *)
Definition summary_of (detail : list detail_row) (k : string) (s : summary_row) : Prop :=
  s_status s = k
  /\ s_rows s = List.length (status_group detail k)
  /\ py_sum (map amount_1 (status_group detail k)) Decimal_0 = Ok (s_total_amount_1 s)
  /\ py_sum (map amount_2 (status_group detail k)) Decimal_0 = Ok (s_total_amount_2 s)
  /\ py_sum (map delta (status_group detail k)) Decimal_0 = Ok (s_total_delta s).

(** [pre] is what [t] holds before its first [sep], all of [t] when it
    holds none. *)
Definition before_first (sep : ascii) (pre t : string) : Prop :=
  Str.mem sep pre = false /\ (t = pre \/ exists post, t = pre ++ String sep post).

(** ** The written report *)

(** *** [str] of a [Decimal] *)

(** ["0" * n] *)
Fixpoint zeros (n : nat) : string :=
  match n with
  | O => EmptyString
  | S n' => String "0" (zeros n')
  end.

(** [s[:n]] and [s[n:]] *)
Fixpoint str_take (n : nat) (s : string) : string :=
  match n, s with
  | S n', String c s' => String c (str_take n' s')
  | _, _ => EmptyString
  end.

Fixpoint str_drop (n : nat) (s : string) : string :=
  match n, s with
  | S n', String _ s' => str_drop n' s'
  | _, _ => s
  end.

(** ["%+d" % z] *)
Definition format_signed (z : Z) : string :=
  if z <? 0 then String "-" (Str.str_of_N (Z.abs_N z))
  else String "+" (Str.str_of_N (Z.abs_N z)).

Definition sign_text (neg : bool) : string := if neg then "-" else "".

(** [Decimal.__str__]: the scientific string, which [astype(str)] puts in
    a cell that holds a decimal. *)
Definition Decimal_str (d : decimal) : string :=
  match d with
  | Inf neg => sign_text neg ++ "Infinity"
  | NaN neg signaling payload =>
      sign_text neg ++ (if signaling then "sNaN" else "NaN")
        ++ (if (payload =? 0)%N then "" else Str.str_of_N payload)
  | Fin neg coeff exp =>
      let int_ := Str.str_of_N coeff in
      let len := Z.of_nat (String.length int_) in
      let leftdigits := exp + len in
      let dotplace :=
        if (exp <=? 0) && (-6 <? leftdigits) then leftdigits else 1 in
      let (intpart, fracpart) :=
        if dotplace <=? 0 then
          ("0", "." ++ zeros (Z.to_nat (- dotplace)) ++ int_)
        else if len <=? dotplace then
          (int_ ++ zeros (Z.to_nat (dotplace - len)), "")
        else
          (str_take (Z.to_nat dotplace) int_,
           "." ++ str_drop (Z.to_nat dotplace) int_) in
      let exp_text :=
        if leftdigits =? dotplace then ""
        else "E" ++ format_signed (leftdigits - dotplace) in
      sign_text neg ++ intpart ++ fracpart ++ exp_text
  end.

(** *** [float] of a text *)

(** A Python [float] is an IEEE 754 binary64 number. *)
Definition float : Type := SpecFloat.spec_float.

(** The binary64 number nearest to [num / den], ties to even. *)
Definition nearest_float (neg : bool) (num den : positive) : float :=
  SpecFloat.SFdiv 53 1024 (SpecFloat.S754_finite neg num 0)
                          (SpecFloat.S754_finite false den 0).

(** Limits of the parser of numbers. *)
Definition MAX_DIGITS : Z := 1000000000.
Definition MAX_ABS_EXP : Z := 1100000000.

(** The number [digits * 10^e] rounded to a [float]; beyond the range of
    binary64 it is an infinity or a zero. *)
Definition float_of_digits (neg : bool) (digits : N) (e : Z) : float :=
  match digits with
  | N0 => SpecFloat.S754_zero neg
  | Npos m =>
      let adj := ndigits digits + e in
      if 310 <? adj then SpecFloat.S754_infinity neg
      else if adj <? -330 then SpecFloat.S754_zero neg
      else if 0 <=? e then nearest_float neg (m * Z.to_pos (10 ^ e)) 1
      else nearest_float neg m (Z.to_pos (10 ^ (- e)))
  end.

(** The whitespace [float] strips: that of [str.strip], the four
    separators 28 to 31 apart. *)
Definition float_isspace (c : ascii) : bool :=
  let n := N_of_ascii c in
  Str.isspace c && negb ((28 <=? n) && (n <=? 31))%N.

Fixpoint lstrip_by (p : ascii -> bool) (s : string) : string :=
  match s with
  | EmptyString => EmptyString
  | String c s' => if p c then lstrip_by p s' else s
  end.

Fixpoint rstrip_by (p : ascii -> bool) (s : string) : string :=
  match s with
  | EmptyString => EmptyString
  | String c s' =>
      let r := rstrip_by p s' in
      if p c && Str.is_empty r then EmptyString else String c r
  end.

(** Underscores are dropped when each stands between two digits. *)
Fixpoint drop_underscores (prev : ascii) (s : string) : option string :=
  match s with
  | EmptyString => if Ascii.eqb prev "_" then None else Some EmptyString
  | String c s' =>
      if Ascii.eqb c "_" then
        if Str.isdigit prev then drop_underscores c s' else None
      else if Ascii.eqb prev "_" && negb (Str.isdigit c) then None
      else option_map (String c) (drop_underscores c s')
  end.

(** An exponent in front of [s]: [e] or [E], an optional sign and at least
    one digit; its value, cut at [MAX_ABS_EXP], and the rest.  Without one,
    nothing is consumed. *)
Definition strtod_exponent (s : string) : Z * string :=
  match s with
  | EmptyString => (0, s)
  | String c r =>
      if Ascii.eqb (lower c) "e" then
        let (neg, r1) := split_sign r in
        let (ds, r2) := Str.span Str.isdigit r1 in
        if Str.is_empty ds then (0, s)
        else
          let significant := lstrip_by (fun d => Ascii.eqb d "0") ds in
          let abs_exp := Z.of_N (int_of_digits ds) in
          let e :=
            if (9 <? Z.of_nat (String.length significant)) || (MAX_ABS_EXP <? abs_exp)
            then MAX_ABS_EXP else abs_exp in
          (if neg then - e else e, r2)
      else (0, s)
  end.

(** An infinity or a NaN in front of [s], and the rest. *)
Definition parse_inf_or_nan (s : string) : option (float * string) :=
  let (neg, r) := split_sign s in
  match drop_prefix "inf" (lower_str (str_take 3 r)) with
  | Some _ =>
      let r3 := str_drop 3 r in
      match drop_prefix "inity" (lower_str (str_take 5 r3)) with
      | Some _ => Some (SpecFloat.S754_infinity neg, str_drop 5 r3)
      | None => Some (SpecFloat.S754_infinity neg, r3)
      end
  | None =>
      match drop_prefix "nan" (lower_str (str_take 3 r)) with
      | Some _ => Some (SpecFloat.S754_nan, str_drop 3 r)
      | None => None
      end
  end.

(** The longest number in front of [s], and the rest: an optional sign,
    digits with an optional point, at least one digit in all, and an optional
    exponent; failing that, an infinity or a NaN. *)
Definition strtod (s : string) : option (float * string) :=
  let (neg, s1) := split_sign s in
  let (intpart, r1) := Str.span Str.isdigit s1 in
  let (fracpart, r2) :=
    match r1 with
    | EmptyString => (EmptyString, r1)
    | String c r =>
        if Ascii.eqb c "." then Str.span Str.isdigit r else (EmptyString, r1)
    end in
  let significant := lstrip_by (fun d => Ascii.eqb d "0") (intpart ++ fracpart) in
  if Str.is_empty intpart && Str.is_empty fracpart then parse_inf_or_nan s
  else if (MAX_DIGITS <? Z.of_nat (String.length significant))
          || (MAX_DIGITS <? Z.of_nat (String.length fracpart))
  then parse_inf_or_nan s
  else
    let (e, r3) := strtod_exponent r2 in
    Some (float_of_digits neg (int_of_digits (intpart ++ fracpart))
                          (e - Z.of_nat (String.length fracpart)), r3).

(** [float(text)]; [None] stands for the ValueError of a text that is no
    number. *)
Definition python_float (text : string) : option float :=
  let s := lstrip_by float_isspace (rstrip_by float_isspace text) in
  if Str.is_empty s then None
  else
    match (if Str.mem "_" s then drop_underscores "000" s else Some s) with
    | None => None
    | Some s' =>
        match strtod s' with
        | Some (x, EmptyString) => Some x
        | _ => None
        end
    end.

(** *** [to_numeric_columns] and the two frames [write_report] writes *)

(** [column.astype(str)] on a column of decimals, one value at a time.
    pandas first asks whether the value is missing, which compares it with
    itself and so signals on a signaling NaN; it writes the text of [str] for
    every value, that of a quiet NaN too (pandas before 3.0). *)
Definition astype_str_decimal (d : decimal) : result string :=
  match d with
  | NaN _ true _ => Raise InvalidOperation
  | _ => Ok (Decimal_str d)
  end.

(** [column.astype(float)] on a column of texts, one text at a time. *)
Definition astype_float (text : string) : result float :=
  match python_float text with
  | Some x => Ok x
  | None => Raise ValueError
  end.

(** [column.astype(str).astype(float)] on a column of decimals: the whole
    column is rendered before any text is read. *)
Definition to_numeric_column (column : list decimal) : result (list float) :=
  texts <- mapM astype_str_decimal column ;;
  mapM astype_float texts.

Record detail_out_row : Type := {
  o_company_id : string;
  o_company_name_1 : option string;
  o_company_name_2 : option string;
  o_amount_1 : float;
  o_amount_2 : float;
  o_delta : float;
  o_status : string
}.

Record summary_out_row : Type := {
  so_status : string;
  so_rows : nat;
  so_total_amount_1 : float;
  so_total_amount_2 : float;
  so_total_delta : float
}.

(** [to_numeric_columns(detail, detail_amount_cols + ["delta"])]: one
    column after the other. *)
Definition detail_out (detail : list detail_row) : result (list detail_out_row) :=
  a1 <- to_numeric_column (map amount_1 detail) ;;
  a2 <- to_numeric_column (map amount_2 detail) ;;
  dl <- to_numeric_column (map delta detail) ;;
  Ok (map (fun x =>
             let row := fst (fst (fst x)) in
             Build_detail_out_row (company_id row) (company_name_1 row)
               (company_name_2 row) (snd (fst (fst x))) (snd (fst x)) (snd x)
               (status row))
          (combine (combine (combine detail a1) a2) dl)).

(** [to_numeric_columns(summary, ["total_amount_1", "total_amount_2",
    "total_delta"])] *)
Definition summary_out (summary : list summary_row) : result (list summary_out_row) :=
  t1 <- to_numeric_column (map s_total_amount_1 summary) ;;
  t2 <- to_numeric_column (map s_total_amount_2 summary) ;;
  td <- to_numeric_column (map s_total_delta summary) ;;
  Ok (map (fun x =>
             let row := fst (fst (fst x)) in
             Build_summary_out_row (s_status row) (s_rows row)
               (snd (fst (fst x))) (snd (fst x)) (snd x))
          (combine (combine (combine summary t1) t2) td)).

(** *** [run_compare] *)

(** The counts a run reports. *)
Record stats : Type := {
  st_rows : nat;
  st_mismatches : nat;
  st_only1 : nat;
  st_only2 : nat
}.

(** [int((detail["status"] == label).sum())] *)
Definition count_status (detail : list detail_row) (label : string) : nat :=
  List.length (filter (fun r => (status r =? label)%string) detail).

(** What [run_compare] returns once the report is written and opened. *)
Definition run_compare (file1_name file2_name : string)
                       (file1 : list row1) (file2 : list row2) : result stats :=
  out <- compare file1_name file2_name file1 file2 ;;
  let detail := fst out in
  Ok (Build_stats (List.length detail)
                  (count_status detail "MISMATCH")
                  (count_status detail ("only_file_" ++ file1_name))
                  (count_status detail ("only_file_" ++ file2_name))).

(** ** Further notions the properties are stated with *)

(** [s.count(c)] *)
Fixpoint count_char (c : ascii) (s : string) : nat :=
  match s with
  | EmptyString => O
  | String d s' => ((if Ascii.eqb d c then 1 else 0) + count_char c s')%nat
  end.

(** The characters [str] writes for a decimal. *)
Definition numeric_char (c : ascii) : bool :=
  Str.isdigit c || Str.mem c "+-.EInfityNas".

(** The shape of the text of a finite decimal: digits, a point and more
    digits when [hasdot], an exponent when [hasexp]. *)
Definition number_text (ip fd : string) (hasdot hasexp : bool) (z : Z) : string :=
  ip ++ (if hasdot then "." ++ fd else "")
     ++ (if hasexp then "E" ++ format_signed z else "").

(** A decimal as the arithmetic of the context leaves it when no operand
    is a NaN: an infinity, or a finite decimal of no more than [prec] digits
    with its exponent in the range of the context. *)
Definition is_number (d : decimal) : bool :=
  match d with
  | Fin _ c e => (ndigits c <=? prec) && (Etiny <=? e) && (e <=? Emax)
  | Inf _ => true
  | NaN _ _ _ => false
  end.

Definition is_nan (d : decimal) : bool :=
  match d with
  | NaN _ _ _ => true
  | _ => false
  end.

(** The [float] nearest to a decimal. *)
Definition float_of_decimal (d : decimal) : float :=
  match d with
  | Fin neg c e => float_of_digits neg c e
  | Inf neg => SpecFloat.S754_infinity neg
  | NaN _ _ _ => SpecFloat.S754_nan
  end.



(** A decimal with its sign replaced. *)
Definition with_sign (neg : bool) (d : decimal) : decimal :=
  match d with
  | Fin _ c e => Fin neg c e
  | Inf _ => Inf neg
  | NaN _ g p => NaN neg g p
  end.

(** The amount of the text with a minus in front, given that of the text. *)
Definition negated (r : result (option decimal)) : result (option decimal) :=
  match r with
  | Ok (Some d) => Ok (Some (with_sign true d))
  | _ => r
  end.

(** A finite decimal below [10^b] in magnitude: the digits of the
    coefficient end at most [b] places left of the point. *)
Definition below (b : Z) (d : decimal) : bool :=
  match d with
  | Fin _ c e => ndigits c + e <=? b
  | _ => false
  end.



(** A kept row with its name, as a row whose name may be missing. *)
Definition named (k : kept) : kept_on :=
  Build_kept_on (k_company_id k) (Some (k_company_name k)) (k_amount k).
(** * Properties *)

(** ** Text *)

Lemma append_empty_r (s : string) : s ++ "" = s.
Proof. induction s as [|c s IH]; simpl; [reflexivity | now rewrite IH]. Qed.

Lemma append_assoc (a b c : string) : (a ++ b) ++ c = a ++ (b ++ c).
Proof. induction a as [|x a IH]; simpl; [reflexivity | now rewrite IH]. Qed.

Lemma is_empty_true (s : string) : Str.is_empty s = true <-> s = "".
Proof. destruct s; simpl; split; congruence. Qed.

Lemma is_empty_false (s : string) : Str.is_empty s = false <-> s <> "".
Proof. destruct s; simpl; split; congruence. Qed.

Lemma lstrip_idem (s : string) : Str.lstrip (Str.lstrip s) = Str.lstrip s.
Proof.
  induction s as [|c s IH]; simpl; [reflexivity|].
  destruct (Str.isspace c) eqn:E; [exact IH | simpl; now rewrite E].
Qed.

Lemma rstrip_idem (s : string) : Str.rstrip (Str.rstrip s) = Str.rstrip s.
Proof.
  induction s as [|c s IH]; simpl; [reflexivity|].
  destruct (Str.isspace c && Str.is_empty (Str.rstrip s)) eqn:E; simpl;
    [reflexivity | rewrite IH, E; reflexivity].
Qed.

Lemma rstrip_lstrip (s : string) :
  Str.rstrip (Str.lstrip s) = Str.lstrip (Str.rstrip s).
Proof.
  induction s as [|c s IH]; simpl; [reflexivity|].
  destruct (Str.isspace c) eqn:E; simpl.
  - rewrite IH. destruct (Str.rstrip s) eqn:R; simpl; [reflexivity|].
    now rewrite E.
  - now rewrite E.
Qed.

Lemma strip_idem (s : string) : Str.strip (Str.strip s) = Str.strip s.
Proof.
  unfold Str.strip.
  now rewrite rstrip_lstrip, rstrip_idem, lstrip_idem.
Qed.

Lemma mem_append (c : ascii) (a b : string) :
  Str.mem c (a ++ b) = Str.mem c a || Str.mem c b.
Proof.
  induction a as [|x a IH]; simpl; [reflexivity|].
  now rewrite IH, orb_assoc.
Qed.

Lemma mem_lstrip (c : ascii) (s : string) :
  Str.isspace c = false -> Str.mem c (Str.lstrip s) = Str.mem c s.
Proof.
  intros Hc. induction s as [|x s IH]; simpl; [reflexivity|].
  destruct (Str.isspace x) eqn:E; [|reflexivity].
  rewrite IH. destruct (Ascii.eqb_spec x c) as [->|]; [congruence | reflexivity].
Qed.

Lemma mem_rstrip (c : ascii) (s : string) :
  Str.isspace c = false -> Str.mem c (Str.rstrip s) = Str.mem c s.
Proof.
  intros Hc. induction s as [|x s IH]; simpl; [reflexivity|].
  destruct (Str.isspace x && Str.is_empty (Str.rstrip s)) eqn:E; simpl.
  - apply andb_prop in E as [Ex Er]. apply is_empty_true in Er.
    rewrite Er in IH. simpl in IH. rewrite <- IH.
    destruct (Ascii.eqb_spec x c) as [->|]; [congruence | reflexivity].
  - now rewrite IH.
Qed.

Lemma mem_strip (c : ascii) (s : string) :
  Str.isspace c = false -> Str.mem c (Str.strip s) = Str.mem c s.
Proof.
  intros Hc. unfold Str.strip. now rewrite mem_lstrip, mem_rstrip.
Qed.

Lemma mem_forallb (p : ascii -> bool) (c : ascii) (s : string) :
  Str.forallb p s = true -> p c = false -> Str.mem c s = false.
Proof.
  intros Hs Hc. induction s as [|x s IH]; simpl in *; [reflexivity|].
  apply andb_prop in Hs as [Hx Hs]. rewrite (IH Hs), orb_false_r.
  destruct (Ascii.eqb_spec x c) as [->|]; [congruence | reflexivity].
Qed.

Lemma replace_not_mem (old : ascii) (new s : string) :
  Str.mem old s = false -> Str.replace old new s = s.
Proof.
  induction s as [|x s IH]; simpl; [reflexivity|].
  intros H. apply orb_false_elim in H as [Hx Hs].
  now rewrite Hx, (IH Hs).
Qed.

Lemma mem_replace_drop (old c : ascii) (s : string) :
  c <> old -> Str.mem c (Str.replace old "" s) = Str.mem c s.
Proof.
  intros Hc. induction s as [|x s IH]; simpl; [reflexivity|].
  destruct (Ascii.eqb_spec x old) as [->|Hx]; simpl; rewrite IH.
  - destruct (Ascii.eqb_spec old c); [congruence | reflexivity].
  - reflexivity.
Qed.

Lemma span_spec (p : ascii -> bool) (s a b : string) :
  Str.span p s = (a, b) ->
  s = a ++ b /\ Str.forallb p a = true
  /\ match b with EmptyString => True | String c _ => p c = false end.
Proof.
  revert a b. induction s as [|x s IH]; simpl; intros a b H.
  - inversion H; subst. now simpl.
  - destruct (p x) eqn:Px.
    + destruct (Str.span p s) as [a' b'] eqn:S'. inversion H; subst.
      destruct (IH a' b eq_refl) as (-> & Ha & Hb).
      simpl. rewrite Px, Ha. now repeat split.
    + inversion H; subst. simpl. now rewrite Px.
Qed.

Lemma span_append (p : ascii -> bool) (a b : string) :
  Str.forallb p a = true ->
  match b with EmptyString => True | String c _ => p c = false end ->
  Str.span p (a ++ b) = (a, b).
Proof.
  intros Ha Hb. induction a as [|x a IH]; simpl in *.
  - destruct b as [|c b]; simpl; [reflexivity | now rewrite Hb].
  - apply andb_prop in Ha as [Hx Ha]. now rewrite Hx, (IH Ha).
Qed.

Lemma split_head_spec (sep : ascii) (s : string) :
  before_first sep (Str.split_head sep s) s.
Proof.
  unfold before_first. induction s as [|x s [IHm IHs]]; simpl.
  - split; [reflexivity | now left].
  - destruct (Ascii.eqb_spec x sep) as [->|Hx]; simpl.
    + split; [reflexivity | right; now exists s].
    + split.
      * rewrite IHm. destruct (Ascii.eqb_spec x sep); [congruence | reflexivity].
      * destruct IHs as [E | [post E]]; [left | right; exists post]; congruence.
Qed.

Lemma before_first_unique (sep : ascii) (pre t : string) :
  before_first sep pre t -> pre = Str.split_head sep t.
Proof.
  intros [Hm Ht]. revert t Ht.
  induction pre as [|x pre IH]; intros t Ht.
  - destruct Ht as [-> | [post ->]]; simpl; [reflexivity|].
    now rewrite Ascii.eqb_refl.
  - simpl in Hm. apply orb_false_elim in Hm as [Hx Hm].
    destruct Ht as [-> | [post ->]]; simpl; rewrite Hx; f_equal; apply IH; auto.
    right. now exists post.
Qed.

Lemma split_head_no_sep (sep : ascii) (s : string) :
  Str.mem sep s = false -> Str.split_head sep s = s.
Proof.
  intros H. symmetry. apply before_first_unique. split; [exact H | now left].
Qed.

(** ** Identifier parsers *)

Lemma match_bracket_body_spec (s ds : string) :
  match_bracket_body s = Some ds <->
  (exists post, s = ds ++ "]" ++ post) /\ digit_run ds.
Proof.
  unfold match_bracket_body, digit_run. split.
  - destruct (Str.span Str.isdigit s) as [a b] eqn:S.
    apply span_spec in S as (-> & Ha & _).
    destruct a as [|d a]; [discriminate|].
    destruct b as [|c b]; [discriminate|].
    destruct (Ascii.eqb_spec c "]") as [->|Hc].
    + intros H. inversion H; subst. repeat split; [now exists b | discriminate | exact Ha].
    + intros H. exfalso. revert H.
      destruct c as [[] [] [] [] [] [] [] []]; try discriminate. congruence.
  - intros [[post ->] [Hne Hd]].
    simpl. rewrite (span_append Str.isdigit ds (String "]" post) Hd eq_refl).
    destruct ds; [congruence | reflexivity].
Qed.

Lemma group_at_here (c : ascii) (s ds : string) :
  group_at (String c s) 0 ds <-> c = "["%char /\ match_bracket_body s = Some ds.
Proof.
  rewrite match_bracket_body_spec. unfold group_at. split.
  - intros (pre & post & Hl & E & D).
    destruct pre; [|discriminate]. simpl in E. inversion E; subst.
    split; [reflexivity|]. split; [now exists post | exact D].
  - intros (-> & [post ->] & D). exists "", post.
    split; [reflexivity|]. split; [reflexivity | exact D].
Qed.

Lemma group_at_later (c : ascii) (s ds : string) (n : nat) :
  group_at (String c s) (S n) ds <-> group_at s n ds.
Proof.
  unfold group_at. split.
  - intros (pre & post & Hl & E & D).
    destruct pre as [|x pre]; [discriminate|]. simpl in *.
    inversion E; subst. exists pre, post.
    split; [congruence|]. split; [reflexivity | exact D].
  - intros (pre & post & Hl & -> & D).
    exists (String c pre), post. simpl.
    split; [congruence|]. split; [reflexivity | exact D].
Qed.

Lemma group_at_empty (n : nat) (ds : string) : ~ group_at "" n ds.
Proof.
  intros (pre & post & _ & E & _). destruct pre; discriminate.
Qed.

Lemma search_first_group (s ds : string) :
  ID_BRACKET_RE_search s = Some ds <->
  exists n, group_at s n ds /\ forall m ds', (m < n)%nat -> ~ group_at s m ds'.
Proof.
  revert ds. induction s as [|c s IH]; intros ds; simpl.
  - split; [discriminate | intros (n & H & _); now apply group_at_empty in H].
  - assert (Hshift : ID_BRACKET_RE_search s = Some ds ->
      (forall ds', ~ group_at (String c s) 0 ds') ->
      exists n, group_at (String c s) n ds
        /\ forall m ds', (m < n)%nat -> ~ group_at (String c s) m ds').
    { intros Hs H0. apply IH in Hs as (n & Hn & Hmin). exists (S n). split.
      - now apply group_at_later.
      - intros [|m] ds' Hm; [apply H0|].
        rewrite group_at_later. apply Hmin. lia. }
    assert (Hback : forall n, group_at (String c s) n ds ->
      (forall m ds', (m < n)%nat -> ~ group_at (String c s) m ds') ->
      (forall ds', ~ group_at (String c s) 0 ds') ->
      ID_BRACKET_RE_search s = Some ds).
    { intros [|n] Hn Hmin H0; [now apply H0 in Hn|].
      apply IH. exists n. split; [now apply (group_at_later c)|].
      intros m ds' Hm. rewrite <- (group_at_later c). apply Hmin. lia. }
    destruct (Ascii.eqb_spec c "[") as [->|Hc].
    + destruct (match_bracket_body s) as [g|] eqn:M.
      * split.
        -- intros H. inversion H; subst. exists O. split.
           ++ now apply group_at_here.
           ++ intros m ds' Hm. lia.
        -- intros ([|n] & Hn & Hmin).
           ++ apply group_at_here in Hn as [_ Hn]. congruence.
           ++ exfalso. apply (Hmin O g); [lia|]. now apply group_at_here.
      * assert (H0 : forall ds', ~ group_at (String "[" s) 0 ds').
        { intros ds' H. apply group_at_here in H as [_ H]. congruence. }
        split; [intros H; now apply Hshift | intros (n & Hn & Hmin); eauto].
    + assert (H0 : forall ds', ~ group_at (String c s) 0 ds').
      { intros ds' H. apply group_at_here in H as [H _]. congruence. }
      split; [intros H; now apply Hshift | intros (n & Hn & Hmin); eauto].
Qed.


(** ** Numeric strings *)

Lemma drop_prefix_spec (p s r : string) :
  drop_prefix p s = Some r <-> s = p ++ r.
Proof.
  revert s. induction p as [|a p IH]; intros s; simpl.
  - split; congruence.
  - destruct s as [|b s]; [split; discriminate|].
    destruct (Ascii.eqb_spec a b) as [->|Hab].
    + rewrite IH. split; congruence.
    + split; [discriminate | congruence].
Qed.

(** Characters that take no part in a numeric string: they are no digit,
    no letter and none of the signs, the point and the underscore. *)
Section Foreign.

Variable ch : ascii.
Hypothesis ch_lower : forall c, lower c = ch -> c = ch.
Hypothesis ch_fixed : lower ch = ch.
Hypothesis ch_digit : Str.isdigit ch = false.
Hypothesis ch_sign : Str.mem ch "+-._eEinfinitysnan" = false.

Lemma mem_lower_str (s : string) : Str.mem ch (lower_str s) = Str.mem ch s.
Proof.
  induction s as [|c s IH]; simpl; [reflexivity|]. rewrite IH. f_equal.
  destruct (Ascii.eqb_spec (lower c) ch) as [E|E];
    destruct (Ascii.eqb_spec c ch) as [F|F]; try reflexivity.
  - now apply ch_lower in E.
  - subst c. now rewrite ch_fixed in E.
Qed.

Lemma mem_digits (s : string) :
  Str.forallb Str.isdigit s = true -> Str.mem ch s = false.
Proof. intros H. now apply (mem_forallb Str.isdigit). Qed.

Lemma mem_split_sign (s r : string) (neg : bool) :
  split_sign s = (neg, r) -> Str.mem ch r = false -> Str.mem ch s = false.
Proof.
  unfold split_sign. destruct s as [|c s]; [now intros [= <- <-]|].
  assert (Hc : forall x, Str.mem x "+-._eEinfinitysnan" = true ->
                         c = x -> Ascii.eqb c ch = false).
  { intros x Hx ->. destruct (Ascii.eqb_spec x ch) as [->|]; congruence. }
  destruct (Ascii.eqb_spec c "-") as [E|_].
  - intros [= <- <-] H. cbn [Str.mem]. now rewrite H, (Hc "-"%char).
  - destruct (Ascii.eqb_spec c "+") as [E|_].
    + intros [= <- <-] H. cbn [Str.mem]. now rewrite H, (Hc "+"%char).
    + now intros [= <- <-].
Qed.

Lemma parse_exponent_foreign (s : string) (e : Z) :
  parse_exponent s = Some e -> Str.mem ch s = false.
Proof.
  unfold parse_exponent. destruct s as [|x s]; [reflexivity|].
  destruct (Ascii.eqb_spec (lower x) "e") as [E|_]; [|discriminate].
  destruct (split_sign s) as [neg ds] eqn:S.
  destruct (Str.is_empty ds || negb (Str.forallb Str.isdigit ds)) eqn:B;
    [discriminate|].
  intros _. apply orb_false_elim in B as [_ B]. apply negb_false_iff in B.
  cbn [Str.mem String.append]. rewrite (mem_split_sign _ _ _ S (mem_digits _ B)), orb_false_r.
  destruct (Ascii.eqb_spec x ch) as [->|]; [|reflexivity].
  rewrite ch_fixed in E. subst ch. discriminate.
Qed.

Lemma parse_number_foreign (neg : bool) (s : string) (d : decimal) :
  parse_number neg s = Some d -> Str.mem ch s = false.
Proof.
  unfold parse_number.
  destruct (Str.span Str.isdigit s) as [ip r1] eqn:S1.
  apply span_spec in S1 as (-> & Hip & _).
  rewrite mem_append, (mem_digits _ Hip). cbn [Str.mem String.append].
  destruct r1 as [|c r].
  - reflexivity.
  - destruct (Ascii.eqb_spec c ".") as [->|Hc].
    + destruct (Str.span Str.isdigit r) as [fp r2] eqn:S2.
      apply span_spec in S2 as (-> & Hfp & _).
      destruct (Str.is_empty ip && Str.is_empty fp); [discriminate|].
      destruct (parse_exponent r2) as [e|] eqn:E; [|discriminate].
      intros _. cbn [Str.mem String.append].
      rewrite mem_append, (mem_digits _ Hfp), (parse_exponent_foreign _ _ E).
      cbn [Str.mem String.append]. rewrite orb_false_r.
      destruct (Ascii.eqb_spec "."%char ch) as [<-|]; [discriminate | reflexivity].
    + destruct (Str.is_empty ip && Str.is_empty ""); [discriminate|].
      destruct (parse_exponent (String c r)) as [e|] eqn:E; [|discriminate].
      intros _. exact (parse_exponent_foreign _ _ E).
Qed.

Lemma parse_diag_foreign (neg g : bool) (diag : string) (d : decimal) :
  parse_diag neg g diag = Some d -> Str.mem ch diag = false.
Proof.
  unfold parse_diag. destruct (Str.forallb Str.isdigit diag) eqn:D; [|discriminate].
  intros _. now apply mem_digits.
Qed.

Lemma parse_special_foreign (neg : bool) (s : string) (d : decimal) :
  parse_special neg s = Some d -> Str.mem ch s = false.
Proof.
  unfold parse_special. rewrite <- mem_lower_str.
  assert (Hc : forall x, Str.mem x "+-._eEinfinitysnan" = true ->
                         Ascii.eqb x ch = false).
  { intros x Hx. destruct (Ascii.eqb_spec x ch) as [->|]; congruence. }
  destruct (String.eqb_spec (lower_str s) "inf") as [->|_].
  { intros _. cbn [Str.mem String.append]. now rewrite (Hc "i"%char), (Hc "n"%char), (Hc "f"%char). }
  destruct (String.eqb_spec (lower_str s) "infinity") as [->|_].
  { intros _. cbn [Str.mem String.append].
    now rewrite (Hc "i"%char), (Hc "n"%char), (Hc "f"%char), (Hc "t"%char),
                (Hc "y"%char). }
  simpl orb. cbv iota.
  destruct (drop_prefix "nan" (lower_str s)) as [diag|] eqn:P.
  { apply drop_prefix_spec in P. rewrite P. intros H.
    apply parse_diag_foreign in H. cbn [Str.mem String.append].
    now rewrite H, (Hc "n"%char), (Hc "a"%char). }
  destruct (drop_prefix "snan" (lower_str s)) as [diag|] eqn:P'; [|discriminate].
  apply drop_prefix_spec in P'. rewrite P'. intros H.
  apply parse_diag_foreign in H. cbn [Str.mem String.append].
  now rewrite H, (Hc "n"%char), (Hc "a"%char), (Hc "s"%char).
Qed.

Lemma Decimal_foreign (text : string) (d : decimal) :
  Decimal text = Ok d -> Str.mem ch (Str.strip text) = false.
Proof.
  unfold Decimal.
  destruct (split_sign (Str.replace "_" "" (Str.strip text))) as [neg body] eqn:S.
  intros H.
  assert (B : Str.mem ch body = false).
  { destruct (parse_special neg body) as [d'|] eqn:P.
    - exact (parse_special_foreign _ _ _ P).
    - destruct (parse_number neg body) as [d'|] eqn:Q; [|discriminate].
      exact (parse_number_foreign _ _ _ Q). }
  rewrite <- (mem_replace_drop "_").
  - exact (mem_split_sign _ _ _ S B).
  - intros ->. discriminate.
Qed.

End Foreign.

Lemma Decimal_no_comma (text : string) (d : decimal) :
  Decimal text = Ok d -> Str.mem "," (Str.strip text) = false.
Proof.
  apply Decimal_foreign; try reflexivity.
  intros c. destruct c as [[] [] [] [] [] [] [] []]; vm_compute; congruence.
Qed.

Lemma Decimal_no_space (text : string) (d : decimal) :
  Decimal text = Ok d -> Str.mem " " (Str.strip text) = false.
Proof.
  apply Decimal_foreign; try reflexivity.
  intros c. destruct c as [[] [] [] [] [] [] [] []]; vm_compute; congruence.
Qed.

Lemma Decimal_strip (text : string) : Decimal (Str.strip text) = Decimal text.
Proof. unfold Decimal. now rewrite strip_idem. Qed.

Lemma Decimal_not_blank (text : string) (d : decimal) :
  Decimal text = Ok d -> Str.strip text <> "".
Proof.
  intros H E. unfold Decimal in H. rewrite E in H. discriminate.
Qed.

Lemma Decimal_raises (text : string) (e : exn) :
  Decimal text = Raise e -> e = InvalidOperation.
Proof.
  unfold Decimal.
  destruct (split_sign _) as [neg body].
  destruct (parse_special neg body); [discriminate|].
  destruct (parse_number neg body) as [d|]; [|congruence].
  destruct (representable d); congruence.
Qed.

(** ** Amount parser *)

(** What [parse_amount] hands to [Decimal]. *)
Lemma parse_amount_unfold (value : scalar) :
  str_raises value = false ->
  parse_amount value =
  if is_missing value then Ok None
  else if Str.is_empty (Str.replace " " "" (Str.strip (str value))) then Ok None
  else match Decimal (Str.replace "," "." (Str.replace " " "" (Str.strip (str value)))) with
       | Ok d => Ok (Some d)
       | Raise _ => Ok None
       end.
Proof.
  intros Hs. unfold parse_amount. rewrite Hs.
  destruct (is_missing value); [reflexivity|].
  destruct (Str.is_empty _); [reflexivity|].
  destruct (Decimal _) as [d|e] eqn:D; [reflexivity|].
  now rewrite (Decimal_raises _ _ D).
Qed.

(** The one exception [parse_amount] lets through: the ValueError of
    [str()] on an [int] too long to render. *)
Lemma str_raises_not_missing (value : scalar) :
  str_raises value = true -> is_missing value = false.
Proof. now destruct value. Qed.

Lemma str_raises_int (value : scalar) :
  str_raises value = true <->
  exists n, value = PyInt n /\ 10 ^ 4300 <= Z.abs n.
Proof.
  split.
  - destruct value as [| | |n|]; try discriminate. cbn [str_raises].
    intros H. exists n. split; [reflexivity|].
    apply Z.leb_le in H. exact H.
  - intros (n & -> & H). cbn [str_raises]. apply Z.leb_le. exact H.
Qed.

Lemma parse_amount_raises (value : scalar) :
  str_raises value = true -> parse_amount value = Raise ValueError.
Proof.
  intros Hs. unfold parse_amount.
  now rewrite (str_raises_not_missing _ Hs), Hs.
Qed.

Lemma lstrip_blank (s : string) :
  Str.forallb Str.isspace s = true -> Str.lstrip s = "".
Proof.
  induction s as [|c s IH]; simpl; [reflexivity|].
  intros H. apply andb_prop in H as [Hc Hs]. now rewrite Hc, IH.
Qed.

Lemma rstrip_blank (s : string) :
  Str.forallb Str.isspace s = true -> Str.rstrip s = "".
Proof.
  induction s as [|c s IH]; simpl; [reflexivity|].
  intros H. apply andb_prop in H as [Hc Hs]. now rewrite Hc, IH.
Qed.

Lemma strip_blank (s : string) :
  Str.forallb Str.isspace s = true -> Str.strip s = "".
Proof. intros H. unfold Str.strip. now rewrite rstrip_blank. Qed.

(** Replacing one character that is no whitespace by another one. *)
Section ReplaceChar.

Variables a b : ascii.
Hypothesis a_space : Str.isspace a = false.
Hypothesis b_space : Str.isspace b = false.

Local Abbreviation sub := (Str.replace a (String b "")).

Lemma replace_char_empty (s : string) : Str.is_empty (sub s) = Str.is_empty s.
Proof.
  destruct s as [|c s]; simpl; [reflexivity|].
  now destruct (Ascii.eqb c a).
Qed.

Lemma replace_char_lstrip (s : string) : Str.lstrip (sub s) = sub (Str.lstrip s).
Proof.
  induction s as [|c s IH]; simpl; [reflexivity|].
  destruct (Ascii.eqb_spec c a) as [->|Hc]; simpl.
  - rewrite a_space, b_space. simpl. now rewrite Ascii.eqb_refl.
  - destruct (Str.isspace c) eqn:E; [exact IH|]. simpl.
    destruct (Ascii.eqb_spec c a); [congruence | reflexivity].
Qed.

Lemma replace_char_rstrip (s : string) : Str.rstrip (sub s) = sub (Str.rstrip s).
Proof.
  induction s as [|c s IH]; simpl; [reflexivity|].
  destruct (Ascii.eqb_spec c a) as [->|Hc]; simpl.
  - rewrite a_space, b_space. simpl. rewrite Ascii.eqb_refl. simpl. now rewrite IH.
  - rewrite IH, replace_char_empty.
    destruct (Str.isspace c && Str.is_empty (Str.rstrip s)); [reflexivity|].
    simpl. destruct (Ascii.eqb_spec c a); [congruence | reflexivity].
Qed.

Lemma replace_char_strip (s : string) : Str.strip (sub s) = sub (Str.strip s).
Proof. unfold Str.strip. now rewrite replace_char_rstrip, replace_char_lstrip. Qed.

Lemma replace_char_drop (x : ascii) (s : string) :
  x <> a -> x <> b ->
  Str.replace x "" (sub s) = sub (Str.replace x "" s).
Proof.
  intros Ha Hb. induction s as [|c s IH]; simpl; [reflexivity|].
  destruct (Ascii.eqb_spec c a) as [->|Hc]; simpl.
  - destruct (Ascii.eqb_spec b x); [congruence|].
    destruct (Ascii.eqb_spec a x); [congruence|]. simpl.
    rewrite Ascii.eqb_refl. simpl. now rewrite IH.
  - destruct (Ascii.eqb_spec c x) as [->|Hx]; simpl; [exact IH|].
    destruct (Ascii.eqb_spec c a); [congruence|]. now rewrite IH.
Qed.

Lemma replace_char_idem (s : string) : a <> b -> sub (sub s) = sub s.
Proof.
  intros Hab. apply replace_not_mem. induction s as [|c s IH]; simpl; [reflexivity|].
  destruct (Ascii.eqb_spec c a) as [->|Hc]; simpl; rewrite IH, orb_false_r.
  - destruct (Ascii.eqb_spec b a); [congruence | reflexivity].
  - destruct (Ascii.eqb_spec c a); [congruence | reflexivity].
Qed.

End ReplaceChar.

Lemma space_drop_comma_to_period (s : string) :
  Str.replace " " "" (Str.strip (Str.replace "," "." s))
  = Str.replace "," "." (Str.replace " " "" (Str.strip s)).
Proof.
  rewrite replace_char_strip by reflexivity.
  apply replace_char_drop; discriminate.
Qed.

Lemma parse_amount_comma_to_period (s : string) :
  parse_amount (PyStr (Str.replace "," "." s)) = parse_amount (PyStr s).
Proof.
  rewrite !parse_amount_unfold by reflexivity. simpl.
  rewrite space_drop_comma_to_period, replace_char_empty.
  rewrite replace_char_idem by discriminate. reflexivity.
Qed.

Lemma parse_amount_of_valid (value : scalar) (d : decimal) :
  is_missing value = false -> str_raises value = false ->
  Decimal (Str.replace " " "" (Str.strip (str value))) = Ok d ->
  parse_amount value = Ok (Some d).
Proof.
  intros Hm Hs HD. rewrite (parse_amount_unfold _ Hs), Hm.
  pose proof (Decimal_not_blank _ _ HD) as Hne.
  pose proof (Decimal_no_comma _ _ HD) as Hc.
  rewrite mem_strip in Hc by reflexivity.
  rewrite (replace_not_mem _ _ _ Hc), HD.
  destruct (Str.replace " " "" (Str.strip (str value))); [now elim Hne | reflexivity].
Qed.

Lemma parse_amount_period_text (p : string) (d : decimal) :
  Decimal p = Ok d -> parse_amount (PyStr p) = Ok (Some d).
Proof.
  intros HD. apply parse_amount_of_valid; [reflexivity | reflexivity |]. simpl.
  rewrite (replace_not_mem _ _ _ (Decimal_no_space _ _ HD)).
  now rewrite Decimal_strip.
Qed.

(** ** Order of texts, group keys and sorting *)

Lemma ascii_compare_eq (x y : ascii) : Ascii.compare x y = Eq <-> x = y.
Proof.
  split; [apply Ascii.compare_eq_iff|]. intros ->.
  unfold Ascii.compare. apply N.compare_refl.
Qed.

Lemma ascii_compare_lt_trans (x y z : ascii) :
  Ascii.compare x y = Lt -> Ascii.compare y z = Lt -> Ascii.compare x z = Lt.
Proof.
  unfold Ascii.compare. rewrite !N.compare_lt_iff. lia.
Qed.

Lemma compare_refl (a : string) : String.compare a a = Eq.
Proof.
  induction a as [|x a IH]; simpl; [reflexivity|].
  now rewrite (proj2 (ascii_compare_eq x x) eq_refl).
Qed.

Lemma compare_eq (a b : string) : String.compare a b = Eq <-> a = b.
Proof. split; [apply String.compare_eq_iff | intros ->; apply compare_refl]. Qed.

Lemma str_lt_trans (a b c : string) : str_lt a b -> str_lt b c -> str_lt a c.
Proof.
  unfold str_lt. revert b c.
  induction a as [|x a IH]; intros [|y b] [|z c]; simpl; try congruence.
  destruct (Ascii.compare x y) eqn:Exy; try discriminate;
    destruct (Ascii.compare y z) eqn:Eyz; try discriminate.
  - apply ascii_compare_eq in Exy, Eyz. subst.
    rewrite (proj2 (ascii_compare_eq z z) eq_refl). apply IH.
  - apply ascii_compare_eq in Exy. subst. now rewrite Eyz.
  - apply ascii_compare_eq in Eyz. subst. now rewrite Exy.
  - now rewrite (ascii_compare_lt_trans _ _ _ Exy Eyz).
Qed.

Lemma str_lt_irrefl (a : string) : ~ str_lt a a.
Proof. unfold str_lt. rewrite compare_refl. discriminate. Qed.

Lemma str_le_iff (a b : string) : str_le a b <-> str_lt a b \/ a = b.
Proof.
  unfold str_le, str_lt, String.leb. rewrite <- compare_eq.
  destruct (String.compare a b); split; intros H; auto; try discriminate;
    destruct H; discriminate.
Qed.

Lemma str_le_trans (a b c : string) : str_le a b -> str_le b c -> str_le a c.
Proof.
  rewrite !str_le_iff. intros [H1 | ->] [H2 | ->]; auto.
  left. eapply str_lt_trans; eauto.
Qed.

Lemma str_gt_lt (a b : string) : String.compare a b = Gt -> str_lt b a.
Proof.
  unfold str_lt. rewrite (String.compare_antisym b a).
  now intros ->.
Qed.

Lemma str_not_le (a b : string) : String.leb a b = false -> str_le b a.
Proof.
  intros H. destruct (String.leb_total a b) as [E | E]; [congruence | exact E].
Qed.

(** Keys of a [groupby]. *)

Lemma insert_key_In (k x : string) (keys : list string) :
  In x (insert_key k keys) <-> x = k \/ In x keys.
Proof.
  induction keys as [|y keys IH]; simpl.
  - intuition.
  - destruct (String.compare k y) eqn:E; simpl.
    + apply compare_eq in E. subst. intuition.
    + intuition.
    + rewrite IH. intuition.
Qed.

Lemma insert_key_sorted (k : string) (keys : list string) :
  StronglySorted str_lt keys -> StronglySorted str_lt (insert_key k keys).
Proof.
  induction 1 as [|y keys Hs IH Hy]; simpl.
  - repeat constructor.
  - destruct (String.compare k y) eqn:E.
    + now constructor.
    + constructor; [now constructor|]. constructor; [exact E|].
      rewrite Forall_forall in *. intros z Hz.
      eapply str_lt_trans; [exact E | now apply Hy].
    + constructor; [exact IH|]. rewrite Forall_forall in *.
      intros z Hz. apply insert_key_In in Hz as [-> | Hz]; [|now apply Hy].
      now apply str_gt_lt.
Qed.

Lemma group_keys_In (column : list string) (k : string) :
  In k (group_keys column) <-> In k column.
Proof.
  induction column as [|x column IH]; simpl; [reflexivity|].
  rewrite insert_key_In, IH. intuition.
Qed.

Lemma group_keys_sorted (column : list string) :
  StronglySorted str_lt (group_keys column).
Proof.
  induction column as [|x column IH]; simpl; [constructor|].
  now apply insert_key_sorted.
Qed.

Lemma sorted_NoDup (keys : list string) :
  StronglySorted str_lt keys -> NoDup keys.
Proof.
  induction 1 as [|y keys Hs IH Hy]; constructor; [|exact IH].
  intros Hin. rewrite Forall_forall in Hy.
  exact (str_lt_irrefl _ (Hy _ Hin)).
Qed.

Lemma group_keys_NoDup (column : list string) : NoDup (group_keys column).
Proof. apply sorted_NoDup, group_keys_sorted. Qed.

(** [sort_values] *)

Section SortValues.

Context {A : Type} (key : A -> string).

Lemma insert_by_perm (r : A) (l : list A) :
  Permutation (insert_by key r l) (r :: l).
Proof.
  induction l as [|x l IH]; simpl; [reflexivity|].
  destruct (String.leb (key r) (key x)); [reflexivity|].
  rewrite IH. apply perm_swap.
Qed.

Lemma sort_values_perm (l : list A) : Permutation (sort_values key l) l.
Proof.
  induction l as [|x l IH]; simpl; [reflexivity|].
  rewrite insert_by_perm. now constructor.
Qed.

Lemma sort_values_In (l : list A) (r : A) : In r (sort_values key l) <-> In r l.
Proof.
  split; apply Permutation_in; [|symmetry]; apply sort_values_perm.
Qed.

Lemma insert_by_sorted (r : A) (l : list A) :
  StronglySorted (le_by key) l -> StronglySorted (le_by key) (insert_by key r l).
Proof.
  induction 1 as [|x l Hs IH Hx]; simpl.
  - repeat constructor.
  - destruct (String.leb (key r) (key x)) eqn:E.
    + constructor; [now constructor|]. constructor; [exact E|].
      rewrite Forall_forall in *. intros z Hz.
      eapply str_le_trans; [exact E | now apply Hx].
    + constructor; [exact IH|]. rewrite Forall_forall in *.
      intros z Hz.
      apply (Permutation_in _ (insert_by_perm r l)) in Hz as [<- | Hz];
        [now apply str_not_le | now apply Hx].
Qed.

Lemma sort_values_sorted (l : list A) : StronglySorted (le_by key) (sort_values key l).
Proof.
  induction l as [|x l IH]; simpl; [constructor | now apply insert_by_sorted].
Qed.

Lemma sorted_le_NoDup_lt (l : list A) :
  StronglySorted (le_by key) l -> NoDup (map key l) -> StronglySorted (lt_by key) l.
Proof.
  induction 1 as [|x l Hs IH Hx]; simpl; intros Hnd; [constructor|].
  inversion Hnd as [|? ? Hnotin Hnd']; subst.
  constructor; [now apply IH|]. rewrite Forall_forall in *.
  intros z Hz. destruct (proj1 (str_le_iff _ _) (Hx z Hz)) as [H | H]; [exact H|].
  exfalso. apply Hnotin. rewrite H. now apply in_map.
Qed.

Lemma sort_values_strict (l : list A) :
  NoDup (map key l) -> StronglySorted (lt_by key) (sort_values key l).
Proof.
  intros Hnd. apply sorted_le_NoDup_lt; [apply sort_values_sorted|].
  eapply Permutation_NoDup; [|exact Hnd].
  apply Permutation_map. symmetry. apply sort_values_perm.
Qed.

End SortValues.

(** ** Calls that may raise *)

Lemma mapM_Forall2 {A B : Type} (f : A -> result B) (l : list A) (ys : list B) :
  mapM f l = Ok ys <-> Forall2 (fun x y => f x = Ok y) l ys.
Proof.
  revert ys. induction l as [|x l IH]; intros ys; simpl.
  - split; [intros [= <-]; constructor | intros H; inversion H; reflexivity].
  - destruct (f x) as [y|e] eqn:Fx; simpl.
    + destruct (mapM f l) as [ys'|e] eqn:M; simpl.
      * split.
        -- intros [= <-]. constructor; [exact Fx | now apply IH].
        -- intros H. inversion H as [|? y' ? ys'' Hy Hys]; subst.
           apply IH in Hys. congruence.
      * split; [discriminate|]. intros H.
        inversion H as [|? y' ? ys'' Hy Hys]; subst.
        apply IH in Hys. discriminate.
    + split; [discriminate|]. intros H. inversion H; congruence.
Qed.

Lemma mapM_pure {A B : Type} (f : A -> result B) (g : A -> B) (l : list A) :
  (forall x, In x l -> f x = Ok (g x)) -> mapM f l = Ok (map g l).
Proof.
  induction l as [|x l IH]; simpl; intros H; [reflexivity|].
  rewrite (H x) by now left. simpl. rewrite IH by auto. reflexivity.
Qed.

Lemma mapM_length {A B : Type} (f : A -> result B) (l : list A) (ys : list B) :
  mapM f l = Ok ys -> List.length ys = List.length l.
Proof.
  intros H. apply mapM_Forall2 in H. symmetry. eapply Forall2_length; eauto.
Qed.

Lemma Forall2_combine {A B : Type} (P : A -> B -> Prop) (l : list A) (ys : list B) :
  Forall2 P l ys -> forall x y, In (x, y) (combine l ys) -> P x y.
Proof.
  induction 1 as [|x y l ys Hxy _ IH]; simpl; intros a b; [tauto|].
  intros [[= <- <-] | H]; auto.
Qed.

Lemma map_fst_combine {A B : Type} (l : list A) (ys : list B) :
  List.length ys = List.length l -> map fst (combine l ys) = l.
Proof.
  revert ys. induction l as [|x l IH]; intros [|y ys]; simpl; try discriminate;
    [reflexivity|]. intros [= H]. now rewrite IH.
Qed.

Lemma combine_map_r {A B C : Type} (g : A -> C) (l : list A) (ys : list B) :
  combine (combine l ys) (map g l)
  = map (fun xy => (xy, g (fst xy))) (combine l ys).
Proof.
  revert ys. induction l as [|x l IH]; intros [|y ys]; simpl; try reflexivity.
  now rewrite IH.
Qed.

(** ** Amounts *)

Lemma parse_amount_value (v : cell) : parse_amount v = Ok (amount_value v).
Proof.
  unfold amount_value. rewrite (parse_amount_unfold _ (cell_renders v)).
  destruct (is_missing v); [reflexivity|].
  destruct (Str.is_empty _); [reflexivity|].
  now destruct (Decimal _).
Qed.

(** ** Aggregation *)

Lemma aggregate_rows (out : list kept) (agg : list total) :
  aggregate out = Ok agg ->
  map t_company_id agg = group_keys (map k_company_id out)
  /\ forall t, In t agg ->
       py_sum (not_None (map k_amount (group_of out (t_company_id t)))) Decimal_0
         = Ok (t_amount t)
       /\ t_company_name t
          = hd_error (map k_company_name (group_of out (t_company_id t))).
Proof.
  unfold aggregate.
  set (keys := group_keys (map k_company_id out)).
  destruct (mapM _ keys) as [amounts|e] eqn:M; simpl; [|discriminate].
  intros [= <-]. rewrite combine_map_r, !map_map.
  pose proof (mapM_length _ _ _ M) as Hlen.
  apply mapM_Forall2 in M. split.
  - simpl. now apply map_fst_combine.
  - intros t Ht. apply in_map_iff in Ht as ([k a] & <- & Hka). simpl.
    split; [|reflexivity].
    exact (Forall2_combine _ _ _ M _ _ Hka).
Qed.


Section Aggregator.

Context {R : Type} (id : R -> option string) (raw amt : R -> cell).

Lemma group_of_kept_rows (df : list R) (k : string) :
  group_of (kept_rows id raw amt df) k
  = map (fun r => Build_kept k (Str.strip (str (raw r))) (amount_value (amt r)))
        (filter (has_id id k) df).
Proof.
  unfold group_of, kept_rows, has_id, keep.
  induction df as [|r df IH]; simpl; [reflexivity|].
  rewrite filter_app, IH.
  destruct (id r) as [i|]; simpl; [|reflexivity].
  destruct (String.eqb_spec (Str.strip i) k) as [->|]; reflexivity.
Qed.

Lemma kept_rows_ids (df : list R) (k : string) :
  In k (map k_company_id (kept_rows id raw amt df))
  <-> exists r, In r df /\ option_map Str.strip (id r) = Some k.
Proof.
  unfold kept_rows, keep. rewrite in_map_iff. split.
  - intros (x & <- & Hx). apply in_flat_map in Hx as (r & Hr & Hx).
    exists r. split; [exact Hr|].
    destruct (id r); simpl in *; [|tauto]. destruct Hx as [<- | []]. reflexivity.
  - intros (r & Hr & Hid). destruct (id r) as [i|] eqn:E; [|discriminate].
    injection Hid as <-.
    exists (Build_kept (Str.strip i) (Str.strip (str (raw r))) (amount_value (amt r))).
    split; [reflexivity|]. apply in_flat_map. exists r. split; [exact Hr|].
    rewrite E. now left.
Qed.

Lemma has_id_iff (k : string) (r : R) :
  has_id id k r = true <-> option_map Str.strip (id r) = Some k.
Proof.
  unfold has_id. destruct (id r) as [i|]; simpl; [|split; discriminate].
  rewrite String.eqb_eq. split; congruence.
Qed.


End Aggregator.

Lemma prepare_file1_kept (df : list row1) :
  prepare_file1 df = aggregate (kept_rows company_id_1 company_raw_1 r1_amount df).
Proof.
  unfold prepare_file1, kept_rows.
  rewrite (mapM_pure _ (fun r => keep (company_id_1 r) (company_raw_1 r)
                                   (amount_value (r1_amount r)))).
  - simpl. now rewrite flat_map_concat_map.
  - intros r _. now rewrite parse_amount_value.
Qed.

Lemma prepare_file2_kept (df : list row2) :
  prepare_file2 df = aggregate (kept_rows company_id_2 company_raw_2 r2_amount df).
Proof.
  unfold prepare_file2, kept_rows.
  rewrite (mapM_pure _ (fun r => keep (company_id_2 r) (company_raw_2 r)
                                   (amount_value (r2_amount r)))).
  - simpl. now rewrite flat_map_concat_map.
  - intros r _. now rewrite parse_amount_value.
Qed.

Lemma filter_first {A : Type} (p : A -> bool) (l : list A) (x : A) (rest : list A) :
  filter p l = x :: rest ->
  exists before after,
    l = (before ++ x :: after)%list /\ p x = true
    /\ (forall y, In y before -> p y = false) /\ rest = filter p after.
Proof.
  induction l as [|y l IH]; simpl; [discriminate|].
  destruct (p y) eqn:Py.
  - intros [= -> <-]. exists [], l. simpl. repeat split; auto. tauto.
  - intros H. destruct (IH H) as (before & after & -> & Px & Hb & Hr).
    exists (y :: before), after. simpl. repeat split; auto.
    intros z [<- | Hz]; auto.
Qed.

(** ** Decimal arithmetic *)

Lemma ndigits_fuel_pos (fuel : nat) (n : N) : 1 <= ndigits_fuel fuel n.
Proof.
  revert n. induction fuel as [|f IH]; intros n; cbn [ndigits_fuel]; [lia|].
  destruct (n <? 10)%N; [lia|]. specialize (IH (n / 10)%N). lia.
Qed.

(** [ndigits] counts the decimal digits. *)
Lemma ndigits_fuel_spec (fuel : nat) (n : N) :
  (0 < n)%N -> (n < 2 ^ N.of_nat fuel)%N ->
  (10 ^ Z.to_N (ndigits_fuel fuel n - 1) <= n < 10 ^ Z.to_N (ndigits_fuel fuel n))%N.
Proof.
  revert n. induction fuel as [|f IH]; intros n Hpos Hlt.
  - simpl in Hlt. lia.
  - cbn [ndigits_fuel]. destruct (N.ltb_spec n 10) as [H10 | H10].
    + simpl. lia.
    + assert (Hq : (0 < n / 10)%N).
      { apply N.div_str_pos. lia. }
      assert (Hf : (n / 10 < 2 ^ N.of_nat f)%N).
      { apply N.Div0.div_lt_upper_bound.
        rewrite Nat2N.inj_succ, N.pow_succ_r' in Hlt. lia. }
      specialize (IH _ Hq Hf).
      pose proof (ndigits_fuel_pos f (n / 10)%N) as Hd.
      replace (1 + ndigits_fuel f (n / 10)%N - 1) with
        (Z.succ (ndigits_fuel f (n / 10)%N - 1)) by lia.
      replace (1 + ndigits_fuel f (n / 10)%N) with
        (Z.succ (ndigits_fuel f (n / 10)%N)) by lia.
      rewrite !Z2N.inj_succ by lia. rewrite !N.pow_succ_r'.
      pose proof (N.div_mod n 10 ltac:(lia)) as Hdm.
      pose proof (N.mod_lt n 10 ltac:(lia)) as Hm.
      revert IH Hdm Hm.
      generalize (10 ^ Z.to_N (ndigits_fuel f (n / 10) - 1))%N.
      generalize (10 ^ Z.to_N (ndigits_fuel f (n / 10)))%N.
      generalize (n / 10)%N (n mod 10)%N. clear. lia.
Qed.

Lemma size_nat_bound (n : N) : (n < 2 ^ N.of_nat (N.size_nat n))%N.
Proof.
  destruct n as [|p]; [reflexivity|]. cbn [N.size_nat].
  induction p as [p IH | p IH |]; cbn [Pos.size_nat];
    rewrite ?Nat2N.inj_succ, ?N.pow_succ_r'; [| |reflexivity];
    revert IH; generalize (2 ^ N.of_nat (Pos.size_nat p))%N; intros; lia.
Qed.

Lemma ndigits_spec (n : N) :
  (0 < n)%N ->
  (10 ^ Z.to_N (ndigits n - 1) <= n < 10 ^ Z.to_N (ndigits n))%N.
Proof.
  intros Hpos. apply ndigits_fuel_spec; [exact Hpos | apply size_nat_bound].
Qed.

Lemma ndigits_le (n : N) (k : Z) :
  1 <= k -> (n < 10 ^ Z.to_N k)%N -> ndigits n <= k.
Proof.
  intros Hk Hn. destruct (N.eq_dec n 0) as [->|Hz]; [exact Hk|].
  destruct (ndigits_spec n ltac:(lia)) as [Hlo _].
  destruct (Z_le_gt_dec (ndigits n) k) as [H | H]; [exact H|]. exfalso.
  assert (10 ^ Z.to_N k <= 10 ^ Z.to_N (ndigits n - 1))%N.
  { apply N.pow_le_mono_r; lia. }
  lia.
Qed.

Lemma fix_fits (s : bool) (c : N) (e : Z) :
  fits (Fin s c e) = true -> fix_ s c e = Ok (Fin s c e).
Proof.
  unfold fits, fix_. destruct (N.eqb_spec c 0) as [->|Hc].
  - intros H. apply andb_prop in H as [H1 H2].
    apply Z.leb_le in H1, H2. do 2 f_equal. lia.
  - intros H. apply andb_prop in H as [H H3]. apply andb_prop in H as [H1 H2].
    apply Z.leb_le in H1, H2, H3.
    destruct (Z.ltb_spec Etop (ndigits c + e - prec)); [lia|].
    destruct (Z.ltb_spec e (Z.max (ndigits c + e - prec) Etiny)); [lia | reflexivity].
Qed.

Lemma dec_add_exact (a b : decimal) :
  is_finite a = true -> is_finite b = true -> fits (exact_add a b) = true ->
  dec_add a b = Ok (exact_add a b).
Proof.
  destruct a as [s1 c1 e1 | |]; try discriminate.
  destruct b as [s2 c2 e2 | |]; try discriminate.
  intros _ _. unfold dec_add. cbn [check_nans].
  destruct (exact_add (Fin s1 c1 e1) (Fin s2 c2 e2)) as [neg c e | |] eqn:E;
    try discriminate.
  apply fix_fits.
Qed.

Lemma exact_add_finite (a b : decimal) :
  is_finite a = true -> is_finite (exact_add a b) = true.
Proof.
  destruct a; try discriminate. destruct b; reflexivity.
Qed.

Lemma signed_abs (m : Z) (s : bool) :
  signed (if m =? 0 then s else m <? 0) (Z.to_N (Z.abs m)) = m.
Proof.
  unfold signed. destruct (Z.eqb_spec m 0) as [->|Hm].
  - now destruct s.
  - destruct (Z.ltb_spec m 0); rewrite Z2N.id; lia.
Qed.

Lemma Qpower10_split (e k : Z) :
  0 <= k -> (inject_Z (10 ^ k) * inject_Z 10 ^ e == inject_Z 10 ^ (k + e))%Q.
Proof.
  intros Hk. rewrite Zpower_Qpower by exact Hk.
  rewrite Qpower_plus; [reflexivity | discriminate].
Qed.

Lemma exact_add_value (a b : decimal) :
  is_finite a = true -> is_finite b = true ->
  (dec_value (exact_add a b) == dec_value a + dec_value b)%Q.
Proof.
  destruct a as [s1 c1 e1 | |]; try discriminate.
  destruct b as [s2 c2 e2 | |]; try discriminate.
  intros _ _. cbn [exact_add dec_value]. rewrite signed_abs.
  set (e := Z.min e1 e2).
  rewrite inject_Z_plus, !inject_Z_mult, Qmult_plus_distr_l.
  rewrite <- !Qmult_assoc, !Qpower10_split by lia.
  replace (e1 - e + e) with e1 by lia. replace (e2 - e + e) with e2 by lia.
  reflexivity.
Qed.

Lemma py_sum_exact (values : list decimal) (start : decimal) :
  is_finite start = true -> sum_fits values start = true ->
  py_sum values start = Ok (exact_sum values start)
  /\ (dec_value (exact_sum values start) == dec_value start + total_value values)%Q.
Proof.
  revert start. induction values as [|v values IH]; intros start Hs Hf; simpl.
  - split; [reflexivity | ring].
  - simpl in Hf. apply andb_prop in Hf as [Hf Hrest]. apply andb_prop in Hf as [Hv Hf].
    rewrite (dec_add_exact _ _ Hs Hv Hf). simpl.
    destruct (IH (exact_add start v) (exact_add_finite _ _ Hs) Hrest) as [-> Hval].
    split; [reflexivity|].
    rewrite Hval, (exact_add_value _ _ Hs Hv). ring.
Qed.

Lemma dec_sub_exact (a b : decimal) :
  is_finite a = true -> is_finite b = true ->
  fits (exact_add a (copy_negate b)) = true ->
  dec_sub a b = Ok (exact_add a (copy_negate b))
  /\ (dec_value (exact_add a (copy_negate b)) == dec_value a - dec_value b)%Q.
Proof.
  intros Ha Hb Hf. split.
  - unfold dec_sub. destruct a; try discriminate. destruct b; try discriminate.
    cbn [check_nans]. now apply dec_add_exact.
  - rewrite exact_add_value; [|exact Ha | now destruct b].
    destruct b as [s c e | |]; try discriminate. cbn [copy_negate dec_value].
    unfold signed. destruct s; simpl; rewrite ?inject_Z_opp; ring.
Qed.

Lemma py_sum_value (values : list decimal) (total : decimal) :
  py_sum values Decimal_0 = Ok total ->
  sum_fits values Decimal_0 = true ->
  (dec_value total == total_value values)%Q.
Proof.
  intros Hs Hf. destruct (py_sum_exact _ Decimal_0 eq_refl Hf) as [E V].
  rewrite E in Hs. injection Hs as <-. rewrite V. simpl. ring.
Qed.

(** ** Outer join *)

Lemma side_of_In (t : list total) (k : string) (l : total) :
  In l (side_of t k) <-> In l t /\ t_company_id l = k.
Proof.
  unfold side_of. rewrite filter_In, String.eqb_eq. reflexivity.
Qed.

Lemma side_of_nil (t : list total) (k : string) :
  side_of t k = [] <-> ~ In k (map t_company_id t).
Proof.
  split.
  - intros E Hin. apply in_map_iff in Hin as (l & Hl & Hin).
    assert (H : In l (side_of t k)) by now apply side_of_In.
    now rewrite E in H.
  - intros Hn. destruct (side_of t k) as [|l ls] eqn:E; [reflexivity|].
    exfalso. apply Hn. assert (H : In l (side_of t k)) by (rewrite E; now left).
    apply side_of_In in H as [H <-]. now apply in_map.
Qed.

Lemma side_of_unique (t : list total) (k : string) :
  NoDup (map t_company_id t) ->
  side_of t k = [] \/ exists l, side_of t k = [l].
Proof.
  unfold side_of. induction t as [|x t IH]; simpl; intros Hnd; [now left|].
  inversion Hnd as [|? ? Hx Hnd']; subst.
  destruct (String.eqb_spec (t_company_id x) k) as [E|E]; [|now apply IH].
  right. exists x. f_equal.
  apply (proj2 (side_of_nil t k)). now rewrite <- E.
Qed.

Lemma rows_of_key_sides (left right : list total) (k : string) (m : merged_row) :
  In m (rows_of_key left right k) ->
  m_company_id m = k
  /\ match m_side_1 m with
     | Some l => In l left /\ t_company_id l = k
     | None => ~ In k (map t_company_id left)
     end
  /\ match m_side_2 m with
     | Some r => In r right /\ t_company_id r = k
     | None => ~ In k (map t_company_id right)
     end.
Proof.
  unfold rows_of_key.
  destruct (side_of left k) as [|l ls] eqn:L; destruct (side_of right k) as [|r rs] eqn:R.
  - simpl. tauto.
  - intros H. apply in_map_iff in H as (r' & <- & Hr'). simpl.
    rewrite <- R in Hr'. apply side_of_In in Hr'.
    repeat split; try tauto. now apply side_of_nil.
  - intros H. apply in_map_iff in H as (l' & <- & Hl'). simpl.
    rewrite <- L in Hl'. apply side_of_In in Hl'.
    repeat split; try tauto. now apply side_of_nil.
  - intros H. apply in_flat_map in H as (l' & Hl' & H).
    apply in_map_iff in H as (r' & <- & Hr'). simpl.
    rewrite <- L in Hl'. rewrite <- R in Hr'.
    apply side_of_In in Hl', Hr'. tauto.
Qed.

Lemma rows_of_key_single (left right : list total) (k : string) :
  NoDup (map t_company_id left) -> NoDup (map t_company_id right) ->
  In k (map t_company_id left ++ map t_company_id right) ->
  exists m, rows_of_key left right k = [m].
Proof.
  intros Hl Hr Hk. unfold rows_of_key.
  destruct (side_of_unique left k Hl) as [L | [l L]];
    destruct (side_of_unique right k Hr) as [R | [r R]]; rewrite L, R; simpl;
    try (now eexists).
  exfalso. apply side_of_nil in L, R. apply in_app_or in Hk. tauto.
Qed.

Lemma merge_outer_sides (left right : list total) (m : merged_row) :
  In m (merge_outer left right) ->
  match m_side_1 m with
  | Some l => In l left /\ t_company_id l = m_company_id m
  | None => ~ In (m_company_id m) (map t_company_id left)
  end
  /\ match m_side_2 m with
     | Some r => In r right /\ t_company_id r = m_company_id m
     | None => ~ In (m_company_id m) (map t_company_id right)
     end.
Proof.
  unfold merge_outer. intros H. apply in_flat_map in H as (k & _ & H).
  apply rows_of_key_sides in H as (-> & H1 & H2). now split.
Qed.

Lemma merge_outer_keys (left right : list total) :
  NoDup (map t_company_id left) -> NoDup (map t_company_id right) ->
  map m_company_id (merge_outer left right)
  = group_keys (map t_company_id left ++ map t_company_id right).
Proof.
  intros Hl Hr. unfold merge_outer.
  assert (H : forall keys,
    (forall k, In k keys -> In k (map t_company_id left ++ map t_company_id right)) ->
    map m_company_id (flat_map (rows_of_key left right) keys) = keys).
  { induction keys as [|k keys IH]; intros Hin; simpl; [reflexivity|].
    destruct (rows_of_key_single left right k Hl Hr) as [m E]; [apply Hin; now left|].
    pose proof (rows_of_key_sides left right k m) as Hm.
    rewrite E in *. simpl. rewrite IH by (intros; apply Hin; now right).
    f_equal. apply Hm. now left. }
  apply H. intros k Hk. exact (proj1 (group_keys_In _ _) Hk).
Qed.

Lemma merge_outer_key (left right : list total) (m : merged_row) :
  In m (merge_outer left right) ->
  In (m_company_id m) (map t_company_id left)
  \/ In (m_company_id m) (map t_company_id right).
Proof.
  unfold merge_outer. intros H. apply in_flat_map in H as (k & Hk & H).
  apply rows_of_key_sides in H as (-> & _).
  exact (in_app_or _ _ _ (proj1 (group_keys_In _ _) Hk)).
Qed.

(** ** Subtraction and comparison *)

Lemma fix_finite (s : bool) (c : N) (e : Z) (d : decimal) :
  fix_ s c e = Ok d -> is_finite d = true.
Proof.
  unfold fix_. destruct (c =? 0)%N; [now intros [= <-]|].
  destruct (Etop <? _); [discriminate|].
  destruct (e <? _); [|now intros [= <-]].
  destruct (prec <? _); destruct (Etop <? _); try discriminate; now intros [= <-].
Qed.

Lemma check_nans_quiet (a b : decimal) (d : decimal) :
  check_nans a b = Some (Ok d) -> exists z, dec_eq_zero d = Ok z.
Proof.
  destruct a as [? ? ?| ? |? [] ?]; destruct b as [? ? ?| ? |? [] ?]; simpl;
    try discriminate; intros [= <-]; now eexists.
Qed.

Lemma dec_add_comparable (a b d : decimal) :
  dec_add a b = Ok d -> exists z, dec_eq_zero d = Ok z.
Proof.
  unfold dec_add. destruct (check_nans a b) as [r|] eqn:C.
  - intros ->. now apply (check_nans_quiet a b).
  - destruct a as [s1 c1 e1| s1 |? [] ?]; destruct b as [s2 c2 e2| s2 |? [] ?];
      try discriminate C.
    + destruct (exact_add _ _) as [neg c e| |]; try discriminate.
      intros H. apply fix_finite in H. destruct d; try discriminate. now eexists.
    + intros [= <-]. now eexists.
    + intros [= <-]. now eexists.
    + destruct (Bool.eqb s1 s2); [|discriminate]. intros [= <-]. now eexists.
Qed.

Lemma dec_sub_comparable (a b d : decimal) :
  dec_sub a b = Ok d -> exists z, dec_eq_zero d = Ok z.
Proof.
  unfold dec_sub. destruct (check_nans a b) as [r|] eqn:C.
  - intros ->. now apply (check_nans_quiet a b).
  - apply dec_add_comparable.
Qed.

Lemma dec_eq_zero_value (d : decimal) :
  is_finite d = true -> (dec_eq_zero d = Ok true <-> (dec_value d == 0)%Q).
Proof.
  destruct d as [s c e | |]; try discriminate. intros _. simpl. split.
  - intros [= H]. apply N.eqb_eq in H. subst. unfold signed.
    destruct s; simpl; ring.
  - intros H. apply Qmult_integral in H as [H | H].
    + f_equal. apply N.eqb_eq. unfold signed, Qeq in H. simpl in H.
      destruct s; lia.
    + exfalso. revert H. apply Qpower_not_0. discriminate.
Qed.

(** ** Reconciler *)

Lemma Forall2_In_r {A B : Type} (P : A -> B -> Prop) (l : list A) (ys : list B) (y : B) :
  Forall2 P l ys -> In y ys -> exists x, In x l /\ P x y.
Proof.
  induction 1 as [|x y' l ys Hxy _ IH]; simpl; [tauto|].
  intros [<- | Hy]; [exists x; auto|].
  destruct (IH Hy) as (x' & Hx' & HP). exists x'. auto.
Qed.

Lemma Forall2_map_eq {A B C : Type} (P : A -> B -> Prop) (f : A -> C) (g : B -> C)
      (l : list A) (ys : list B) :
  Forall2 P l ys -> (forall x y, P x y -> f x = g y) -> map f l = map g ys.
Proof.
  intros H HP. induction H as [|x y l ys Hxy _ IH]; simpl; [reflexivity|].
  now rewrite IH, (HP _ _ Hxy).
Qed.

Lemma NoDup_map_inj {A B : Type} (f : A -> B) (l : list A) (a b : A) :
  NoDup (map f l) -> In a l -> In b l -> f a = f b -> a = b.
Proof.
  induction l as [|x l IH]; simpl; [tauto|].
  intros Hnd Ha Hb E. inversion Hnd as [|? ? Hx Hnd']; subst.
  destruct Ha as [-> | Ha]; destruct Hb as [-> | Hb]; auto.
  - elim Hx. rewrite E. now apply in_map.
  - elim Hx. rewrite <- E. now apply in_map.
Qed.

Lemma add_delta_inv (m : merged_row) (j : joined) :
  add_delta m = Ok j ->
  j_company_id j = m_company_id m
  /\ j_company_name_1 j = side_name (m_side_1 m)
  /\ j_company_name_2 j = side_name (m_side_2 m)
  /\ j_amount_1 j = fillna_0 (option_map t_amount (m_side_1 m))
  /\ j_amount_2 j = fillna_0 (option_map t_amount (m_side_2 m))
  /\ dec_sub (j_amount_1 j) (j_amount_2 j) = Ok (j_delta j).
Proof.
  unfold add_delta. destruct (dec_sub _ _) as [d|e] eqn:D; simpl; [|discriminate].
  intros [= <-]. simpl. now repeat split.
Qed.

Lemma add_status_inv (f1 f2 : string) (j : joined) (row : detail_row) :
  add_status f1 f2 j = Ok row ->
  joined_of row = j /\ get_status f1 f2 j = Ok (status row).
Proof.
  unfold add_status. destruct (get_status f1 f2 j) as [st|e]; simpl; [|discriminate].
  intros [= <-]. now destruct j.
Qed.

Lemma get_status_inv (f1 f2 : string) (row : joined) (st : string) :
  get_status f1 f2 row = Ok st ->
  match j_company_name_1 row, j_company_name_2 row with
  | Some _, Some _ =>
      exists z, dec_eq_zero (j_delta row) = Ok z
                /\ st = if z then "MATCH" else "MISMATCH"
  | Some _, None => st = "only_file_" ++ f1
  | None, _ => st = "only_file_" ++ f2
  end.
Proof.
  unfold get_status.
  destruct (j_company_name_1 row), (j_company_name_2 row); simpl;
    try (now intros [= <-]).
  destruct (dec_eq_zero (j_delta row)) as [z|]; simpl; [|discriminate].
  intros [= <-]. now exists z.
Qed.

(** The labels of the two one-sided statuses differ from the other two. *)
Lemma only_file_label (f : string) :
  "only_file_" ++ f <> "MATCH" /\ "only_file_" ++ f <> "MISMATCH".
Proof. split; discriminate. Qed.

Lemma compare_inv (f1 f2 : string) (file1 : list row1) (file2 : list row2)
      (detail : list detail_row) (summary : list summary_row) :
  compare f1 f2 file1 file2 = Ok (detail, summary) ->
  exists left right with_delta with_status,
    prepare_file1 file1 = Ok left /\ prepare_file2 file2 = Ok right
    /\ mapM add_delta (merge_outer left right) = Ok with_delta
    /\ mapM (add_status f1 f2) with_delta = Ok with_status
    /\ detail = sort_values company_id with_status
    /\ summarize detail = Ok summary.
Proof.
  unfold compare.
  destruct (prepare_file1 file1) as [left|]; simpl; [|discriminate].
  destruct (prepare_file2 file2) as [right|]; simpl; [|discriminate].
  destruct (mapM add_delta _) as [with_delta|] eqn:D; simpl; [|discriminate].
  destruct (mapM (add_status f1 f2) _) as [with_status|] eqn:S; simpl; [|discriminate].
  destruct (summarize _) as [summary'|] eqn:Sm; simpl; [|discriminate].
  intros [= <- <-]. exists left, right, with_delta, with_status. now repeat split.
Qed.

(** The aggregated tables have one row per identifier, each with a name. *)
Lemma aggregate_NoDup (out : list kept) (agg : list total) :
  aggregate out = Ok agg -> NoDup (map t_company_id agg).
Proof.
  intros H. apply aggregate_rows in H as [-> _]. apply group_keys_NoDup.
Qed.

Lemma aggregate_named (out : list kept) (agg : list total) (t : total) :
  aggregate out = Ok agg -> In t agg -> t_company_name t <> None.
Proof.
  intros H Ht. apply aggregate_rows in H as [Hk H].
  destruct (H t Ht) as [_ ->].
  assert (Hin : In (t_company_id t) (map k_company_id out)).
  { apply group_keys_In. rewrite <- Hk. now apply in_map. }
  apply in_map_iff in Hin as (r & Hr & Hin).
  assert (Hg : In r (group_of out (t_company_id t))).
  { unfold group_of. apply filter_In. split; [exact Hin|]. now apply String.eqb_eq. }
  destruct (group_of out (t_company_id t)); [destruct Hg | discriminate].
Qed.

Lemma prepare_file1_NoDup (df : list row1) (agg : list total) :
  prepare_file1 df = Ok agg -> NoDup (map t_company_id agg).
Proof. rewrite prepare_file1_kept. apply aggregate_NoDup. Qed.

Lemma prepare_file2_NoDup (df : list row2) (agg : list total) :
  prepare_file2 df = Ok agg -> NoDup (map t_company_id agg).
Proof. rewrite prepare_file2_kept. apply aggregate_NoDup. Qed.

Lemma prepare_file1_named (df : list row1) (agg : list total) (t : total) :
  prepare_file1 df = Ok agg -> In t agg -> t_company_name t <> None.
Proof. rewrite prepare_file1_kept. apply aggregate_named. Qed.

Lemma prepare_file2_named (df : list row2) (agg : list total) (t : total) :
  prepare_file2 df = Ok agg -> In t agg -> t_company_name t <> None.
Proof. rewrite prepare_file2_kept. apply aggregate_named. Qed.

(** One side of a row of the join, against the table of that side. *)
Lemma side_lookup (t : list total) (k : string) (side : option total) :
  NoDup (map t_company_id t) ->
  (forall x, In x t -> t_company_name x <> None) ->
  match side with
  | Some x => In x t /\ t_company_id x = k
  | None => ~ In k (map t_company_id t)
  end ->
  (forall x, In x t -> t_company_id x = k ->
     fillna_0 (option_map t_amount side) = fillna_0 (Some (t_amount x))
     /\ side_name side = t_company_name x)
  /\ (~ In k (map t_company_id t) ->
      fillna_0 (option_map t_amount side) = Decimal_0 /\ side_name side = None)
  /\ (side_name side <> None <-> In k (map t_company_id t)).
Proof.
  intros Hnd Hnamed Hside. destruct side as [y|]; simpl.
  - destruct Hside as [Hy <-]. split; [|split].
    + intros x Hx E. now rewrite (NoDup_map_inj _ _ _ _ Hnd Hx Hy E).
    + intros Hn. elim Hn. now apply in_map.
    + split; intros _; [now apply in_map | now apply Hnamed].
  - split; [|split].
    + intros x Hx E. elim Hside. rewrite <- E. now apply in_map.
    + now intros _.
    + split; [now intros H | intros H; now elim Hside].
Qed.

(** *** One run of [compare] *)

Section Report.

Variables (f1 f2 : string) (file1 : list row1) (file2 : list row2).
Variables (left right : list total).
Variables (detail : list detail_row) (summary : list summary_row).

Hypothesis prepared_1 : prepare_file1 file1 = Ok left.
Hypothesis prepared_2 : prepare_file2 file2 = Ok right.
Hypothesis compared : compare f1 f2 file1 file2 = Ok (detail, summary).

(** Every detail row comes from one row of the join. *)
Lemma report_row (row : detail_row) :
  In row detail ->
  exists m, In m (merge_outer left right)
    /\ company_id row = m_company_id m
    /\ company_name_1 row = side_name (m_side_1 m)
    /\ company_name_2 row = side_name (m_side_2 m)
    /\ amount_1 row = fillna_0 (option_map t_amount (m_side_1 m))
    /\ amount_2 row = fillna_0 (option_map t_amount (m_side_2 m))
    /\ dec_sub (amount_1 row) (amount_2 row) = Ok (delta row)
    /\ get_status f1 f2 (joined_of row) = Ok (status row).
Proof.
  intros Hin.
  destruct (compare_inv _ _ _ _ _ _ compared)
    as (l' & r' & wd & ws & Hl' & Hr' & Hd & Hs & E & _).
  rewrite prepared_1 in Hl'. rewrite prepared_2 in Hr'.
  injection Hl' as <-. injection Hr' as <-.
  rewrite E in Hin. apply sort_values_In in Hin.
  apply mapM_Forall2 in Hd, Hs.
  destruct (Forall2_In_r _ _ _ _ Hs Hin) as (j & Hj & Hrow).
  destruct (Forall2_In_r _ _ _ _ Hd Hj) as (m & Hm & Hjm).
  apply add_status_inv in Hrow as [<- Hst].
  apply add_delta_inv in Hjm as (H1 & H2 & H3 & H4 & H5 & H6).
  exists m. simpl. now repeat split.
Qed.

(** The identifiers of the detail table are the keys of the join. *)
Lemma report_ids :
  Permutation (map company_id detail)
              (group_keys (map t_company_id left ++ map t_company_id right)).
Proof.
  destruct (compare_inv _ _ _ _ _ _ compared)
    as (l' & r' & wd & ws & Hl' & Hr' & Hd & Hs & E & _).
  rewrite prepared_1 in Hl'. rewrite prepared_2 in Hr'.
  injection Hl' as <-. injection Hr' as <-.
  apply mapM_Forall2 in Hd, Hs.
  rewrite <- (merge_outer_keys _ _ (prepare_file1_NoDup _ _ prepared_1)
                                   (prepare_file2_NoDup _ _ prepared_2)).
  rewrite E, (Permutation_map company_id (sort_values_perm company_id ws)).
  rewrite <- (Forall2_map_eq _ j_company_id company_id _ _ Hs).
  - rewrite <- (Forall2_map_eq _ m_company_id j_company_id _ _ Hd); [reflexivity|].
    intros m j H. apply add_delta_inv in H. symmetry. apply H.
  - intros j row H. apply add_status_inv in H as [<- _]. reflexivity.
Qed.

Lemma report_ids_NoDup : NoDup (map company_id detail).
Proof.
  eapply Permutation_NoDup; [symmetry; exact report_ids | apply group_keys_NoDup].
Qed.

Lemma report_id_In (k : string) :
  In k (map company_id detail) <->
  In k (map t_company_id left) \/ In k (map t_company_id right).
Proof.
  split; intros H.
  - apply (Permutation_in _ report_ids) in H.
    exact (in_app_or _ _ _ (proj1 (group_keys_In _ _) H)).
  - apply (Permutation_in _ (Permutation_sym report_ids)).
    apply group_keys_In. now apply in_or_app.
Qed.

Lemma report_side_1 (row : detail_row) :
  In row detail ->
  (forall t, In t left -> t_company_id t = company_id row ->
     amount_1 row = fillna_0 (Some (t_amount t))
     /\ company_name_1 row = t_company_name t)
  /\ (~ In (company_id row) (map t_company_id left) ->
      amount_1 row = Decimal_0 /\ company_name_1 row = None)
  /\ (company_name_1 row <> None <-> In (company_id row) (map t_company_id left)).
Proof.
  intros Hin. destruct (report_row row Hin) as (m & Hm & -> & -> & _ & -> & _).
  apply side_lookup.
  - exact (prepare_file1_NoDup _ _ prepared_1).
  - intros x. exact (prepare_file1_named _ _ x prepared_1).
  - apply (merge_outer_sides _ _ _ Hm).
Qed.

Lemma report_side_2 (row : detail_row) :
  In row detail ->
  (forall t, In t right -> t_company_id t = company_id row ->
     amount_2 row = fillna_0 (Some (t_amount t))
     /\ company_name_2 row = t_company_name t)
  /\ (~ In (company_id row) (map t_company_id right) ->
      amount_2 row = Decimal_0 /\ company_name_2 row = None)
  /\ (company_name_2 row <> None <-> In (company_id row) (map t_company_id right)).
Proof.
  intros Hin. destruct (report_row row Hin) as (m & Hm & -> & _ & -> & _ & -> & _).
  apply side_lookup.
  - exact (prepare_file2_NoDup _ _ prepared_2).
  - intros x. exact (prepare_file2_named _ _ x prepared_2).
  - apply (merge_outer_sides _ _ _ Hm).
Qed.

Lemma report_delta (row : detail_row) :
  In row detail -> dec_sub (amount_1 row) (amount_2 row) = Ok (delta row).
Proof.
  intros Hin. now destruct (report_row row Hin) as (m & _ & _ & _ & _ & _ & _ & H & _).
Qed.

(** The status of a row, by the names it holds. *)
Lemma report_status (row : detail_row) :
  In row detail ->
  match company_name_1 row, company_name_2 row with
  | Some _, Some _ =>
      exists z, dec_eq_zero (delta row) = Ok z
                /\ status row = if z then "MATCH" else "MISMATCH"
  | Some _, None => status row = "only_file_" ++ f1
  | None, Some _ => status row = "only_file_" ++ f2
  | None, None => False
  end.
Proof.
  intros Hin.
  destruct (report_row row Hin) as (m & _ & _ & _ & _ & _ & _ & _ & Hst).
  apply get_status_inv in Hst. simpl in Hst.
  destruct (report_side_1 row Hin) as (_ & _ & N1).
  destruct (report_side_2 row Hin) as (_ & _ & N2).
  assert (Hk : In (company_id row) (map company_id detail)) by now apply in_map.
  apply report_id_In in Hk.
  revert Hst N1 N2.
  destruct (company_name_1 row), (company_name_2 row); intros Hst N1 N2;
    try exact Hst.
  destruct Hk as [P | P]; [now apply N1 in P | now apply N2 in P].
Qed.

Lemma report_sorted : StronglySorted (lt_by company_id) detail.
Proof.
  destruct (compare_inv _ _ _ _ _ _ compared) as (_ & _ & _ & ws & _ & _ & _ & _ & E & _).
  pose proof report_ids_NoDup as Hnd. rewrite E in *.
  apply sort_values_strict.
  eapply Permutation_NoDup; [|exact Hnd].
  apply Permutation_map, sort_values_perm.
Qed.

End Report.

(** ** Summary *)

Lemma summary_rows_zip (detail : list detail_row) (keys : list string)
      (t1 t2 td : list decimal) :
  Forall2 (fun k y => py_sum (map amount_1 (status_group detail k)) Decimal_0 = Ok y) keys t1 ->
  Forall2 (fun k y => py_sum (map amount_2 (status_group detail k)) Decimal_0 = Ok y) keys t2 ->
  Forall2 (fun k y => py_sum (map delta (status_group detail k)) Decimal_0 = Ok y) keys td ->
  Forall2 (summary_of detail) keys
    (map (fun x => Build_summary_row (fst (fst (fst (fst x)))) (snd (fst (fst (fst x))))
                     (snd (fst (fst x))) (snd (fst x)) (snd x))
         (combine (combine (combine (combine keys
            (map (fun k => List.length (status_group detail k)) keys)) t1) t2) td)).
Proof.
  intros H1. revert t2 td.
  induction H1 as [|k a keys t1 Ha _ IH]; intros t2 td H2 H3.
  - constructor.
  - inversion H2 as [|? b ? t2' Hb H2']; subst.
    inversion H3 as [|? c ? td' Hc H3']; subst.
    simpl. constructor; [|now apply IH].
    unfold summary_of. simpl. now repeat split.
Qed.

Lemma summarize_rows (detail : list detail_row) (summary : list summary_row) :
  summarize detail = Ok summary ->
  exists pre,
    Forall2 (summary_of detail) (group_keys (map status detail)) pre
    /\ summary = sort_values s_status pre.
Proof.
  unfold summarize.
  destruct (mapM (fun k => py_sum (map amount_1 _) _) _) as [t1|] eqn:M1;
    simpl; [|discriminate].
  destruct (mapM (fun k => py_sum (map amount_2 _) _) _) as [t2|] eqn:M2;
    simpl; [|discriminate].
  destruct (mapM (fun k => py_sum (map delta _) _) _) as [td|] eqn:M3;
    simpl; [|discriminate].
  intros [= <-]. eexists. split; [|reflexivity].
  apply mapM_Forall2 in M1, M2, M3. now apply summary_rows_zip.
Qed.

Lemma summary_statuses (detail : list detail_row) (keys : list string)
      (pre : list summary_row) :
  Forall2 (summary_of detail) keys pre -> map s_status pre = keys.
Proof.
  intros H. symmetry. rewrite <- (map_id keys) at 1.
  eapply Forall2_map_eq; [exact H|]. intros k s Hs. symmetry. apply Hs.
Qed.

(** Counting rows group by group counts every row once. *)
Lemma count_key (keys : list string) (a : string) :
  NoDup keys -> In a keys ->
  list_sum (map (fun k => if (a =? k)%string then 1%nat else 0%nat) keys) = 1%nat.
Proof.
  induction 1 as [|k keys Hk Hnd IH]; simpl; [tauto|].
  intros [-> | Ha].
  - rewrite String.eqb_refl. f_equal.
    clear IH Hnd. induction keys as [|k keys IH]; simpl; [reflexivity|].
    destruct (String.eqb_spec a k) as [->|]; [elim Hk; now left|].
    apply IH. intros H. apply Hk. now right.
  - destruct (String.eqb_spec a k) as [->|]; [tauto|]. now apply IH.
Qed.

Lemma list_sum_cons (a : nat) (l : list nat) :
  list_sum (a :: l) = (a + list_sum l)%nat.
Proof. reflexivity. Qed.

Lemma group_sizes {A : Type} (f : A -> string) (keys : list string) (l : list A) :
  NoDup keys -> (forall x, In x l -> In (f x) keys) ->
  list_sum (map (fun k => List.length (filter (fun x => (f x =? k)%string) l)) keys)
  = List.length l.
Proof.
  intros Hnd. induction l as [|x l IH]; intros Hin.
  - clear. induction keys; simpl; auto.
  - assert (Hstep : forall ks,
      list_sum (map (fun k => List.length (filter (fun y => (f y =? k)%string) (x :: l))) ks)
      = (list_sum (map (fun k => if (f x =? k)%string then 1%nat else 0%nat) ks)
         + list_sum (map (fun k => List.length (filter (fun y => (f y =? k)%string) l)) ks))%nat).
    { induction ks as [|k ks IHk]; [reflexivity|].
      rewrite !map_cons, !list_sum_cons, IHk.
      cbn [filter]. destruct (f x =? k)%string; simpl; lia. }
    rewrite Hstep, IH by (intros; apply Hin; now right).
    rewrite (count_key keys (f x) Hnd) by (apply Hin; now left).
    reflexivity.
Qed.

Lemma summary_counts (detail : list detail_row) (pre : list summary_row) :
  Forall2 (summary_of detail) (group_keys (map status detail)) pre ->
  list_sum (map s_rows pre) = List.length detail.
Proof.
  intros H.
  rewrite <- (group_sizes status (group_keys (map status detail)) detail).
  - f_equal. symmetry. eapply Forall2_map_eq; [exact H|].
    intros k s Hs. symmetry. apply Hs.
  - apply group_keys_NoDup.
  - intros x Hx. apply group_keys_In. now apply in_map.
Qed.

Lemma list_sum_perm (l l' : list nat) :
  Permutation l l' -> list_sum l = list_sum l'.
Proof. induction 1; simpl; lia. Qed.
(** * The version of pandas *)

(** With [astype(str)] of pandas before 3.0 no name is missing, and the
    aggregators and the reconciler are [prepare_file1], [prepare_file2] and
    [compare]. *)

Lemma mapM_ext {A B : Type} (f g : A -> result B) (l : list A) :
  (forall x, f x = g x) -> mapM f l = mapM g l.
Proof.
  intros E. induction l as [|x l IH]; cbn [mapM]; [reflexivity|].
  now rewrite E, IH.
Qed.

Lemma first_valid_named (names : list string) :
  first_valid (map Some names) = hd_error names.
Proof. now destruct names. Qed.

Lemma group_of_on_named (out : list kept) (k : string) :
  group_of_on (map named out) k = map named (group_of out k).
Proof.
  unfold group_of_on, group_of.
  induction out as [|r out IH]; cbn [map filter]; [reflexivity|].
  cbn [named kn_company_id]. destruct (k_company_id r =? k)%string;
    cbn [map]; now rewrite IH.
Qed.

Lemma aggregate_on_named (out : list kept) :
  aggregate_on (map named out) = aggregate out.
Proof.
  unfold aggregate_on, aggregate.
  replace (map kn_company_id (map named out)) with (map k_company_id out)
    by (rewrite map_map; reflexivity).
  rewrite (mapM_ext _ (fun k => py_sum (not_None (map k_amount (group_of out k)))
                                       Decimal_0)).
  - rewrite (map_ext _ (fun k => hd_error (map k_company_name (group_of out k))));
      [reflexivity|].
    intros k. rewrite group_of_on_named, map_map. cbn [named kn_company_name].
    now rewrite <- first_valid_named, map_map.
  - intros k. now rewrite group_of_on_named, map_map.
Qed.

Lemma keep_on_named (id : option string) (raw : cell) (amount : option decimal) :
  keep_on Before_3 id raw amount = map named (keep id raw amount).
Proof. now destruct id. Qed.

Lemma concat_map_map {A B : Type} (f : A -> B) (ls : list (list A)) :
  List.concat (map (map f) ls) = map f (List.concat ls).
Proof. now rewrite concat_map. Qed.

Lemma prepare_file1_on_Before_3 (df : list row1) :
  prepare_file1_on Before_3 df = prepare_file1 df.
Proof.
  rewrite prepare_file1_kept. unfold prepare_file1_on, kept_rows.
  rewrite (mapM_pure _ (fun r => map named (keep (company_id_1 r) (company_raw_1 r)
                                              (amount_value (r1_amount r))))).
  - cbn [bind]. rewrite <- map_map, concat_map_map, <- flat_map_concat_map.
    apply aggregate_on_named.
  - intros r _. rewrite parse_amount_value. cbn [bind]. now rewrite keep_on_named.
Qed.

Lemma prepare_file2_on_Before_3 (df : list row2) :
  prepare_file2_on Before_3 df = prepare_file2 df.
Proof.
  rewrite prepare_file2_kept. unfold prepare_file2_on, kept_rows.
  rewrite (mapM_pure _ (fun r => map named (keep (company_id_2 r) (company_raw_2 r)
                                              (amount_value (r2_amount r))))).
  - cbn [bind]. rewrite <- map_map, concat_map_map, <- flat_map_concat_map.
    apply aggregate_on_named.
  - intros r _. rewrite parse_amount_value. cbn [bind]. now rewrite keep_on_named.
Qed.

Lemma compare_on_Before_3 (f1 f2 : string) (file1 : list row1) (file2 : list row2) :
  compare_on Before_3 f1 f2 file1 file2 = compare f1 f2 file1 file2.
Proof.
  unfold compare_on, compare.
  now rewrite prepare_file1_on_Before_3, prepare_file2_on_Before_3.
Qed.

(** * The parsers *)



(** C8, as the code has it.  [parse_amount] returns, a decimal or nothing,
    for every value that [str()] renders, hence for every cell of a sheet: it
    returns nothing for the missing markers, for an empty or blank text, and
    whenever [Decimal] rejects the cleaned text.  [str()] does not render an
    [int] of more than 4300 digits: there, and nowhere else, [parse_amount]
    raises, and what it raises is the ValueError of [str()]. *)
Theorem parse_amount_returns (value : scalar) :
  (str_raises value = false ->
   (exists r, parse_amount value = Ok r)
   /\ (Str.forallb Str.isspace (str value) = true -> parse_amount value = Ok None)
   /\ (forall e,
         Decimal (Str.replace "," "." (Str.replace " " "" (Str.strip (str value))))
         = Raise e -> parse_amount value = Ok None))
  /\ (is_missing value = true -> parse_amount value = Ok None)
  /\ (str_raises value = true -> parse_amount value = Raise ValueError)
  /\ (forall e, parse_amount value = Raise e ->
        e = ValueError /\ str_raises value = true)
  /\ (str_raises value = true <->
      exists n, value = PyInt n /\ 10 ^ 4300 <= Z.abs n)
  /\ (forall c : cell, exists r, parse_amount c = Ok r)
  /\ parse_amount PyNone = Ok None /\ parse_amount PyNaN = Ok None
  /\ parse_amount (PyStr "") = Ok None /\ parse_amount (PyStr "   ") = Ok None
  /\ parse_amount (PyStr "n/a") = Ok None /\ parse_amount (PyStr "12-34") = Ok None.
Proof.
  split.
  { intros Hs. rewrite (parse_amount_unfold _ Hs). split; [|split].
    - destruct (is_missing value); [now eexists|].
      destruct (Str.is_empty _); [now eexists|].
      destruct (Decimal _); now eexists.
    - intros H. rewrite (strip_blank _ H). simpl. now destruct (is_missing value).
    - intros e ->. destruct (is_missing value); [reflexivity|].
      now destruct (Str.is_empty _). }
  split; [unfold parse_amount; now intros ->|].
  split; [apply parse_amount_raises|].
  split.
  { intros e E. destruct (str_raises value) eqn:Hs.
    - rewrite (parse_amount_raises _ Hs) in E. now injection E as <-.
    - rewrite (parse_amount_unfold _ Hs) in E.
      destruct (is_missing value); [discriminate E|].
      destruct (Str.is_empty _); [discriminate E|].
      destruct (Decimal _); discriminate E. }
  split; [apply str_raises_int|].
  split; [intros c; eexists; apply parse_amount_value|].
  repeat split; reflexivity.
Qed.

(** C8, as stated, fails: an [int] of 4301 digits is a numeric value, and
    [parse_amount] raises on it. *)
Lemma parse_amount_raises_on_long_int :
  parse_amount (PyInt (10 ^ 4300)) = Raise ValueError
  /\ ~ (exists r, parse_amount (PyInt (10 ^ 4300)) = Ok r).
Proof.
  assert (H : parse_amount (PyInt (10 ^ 4300)) = Raise ValueError)
    by (vm_compute; reflexivity).
  split; [exact H|]. intros [r E]. rewrite H in E. discriminate E.
Qed.

(** C4.  A comma and a period as the fractional separator give the same
    amount: [parse_amount] does not tell a text from the one with its commas
    turned into periods, and whenever [Decimal] accepts the period form of a
    text, [parse_amount] returns that very decimal for both forms. *)
Theorem parse_amount_comma_or_period :
  (forall s, parse_amount (PyStr (Str.replace "," "." s)) = parse_amount (PyStr s))
  /\ (forall c p d,
        Str.replace "," "." c = p -> Decimal p = Ok d ->
        parse_amount (PyStr c) = Ok (Some d) /\ parse_amount (PyStr p) = Ok (Some d))
  /\ parse_amount (PyStr "123,45") = Ok (Some (Fin false 12345 (-2)))
  /\ parse_amount (PyStr "123.45") = Ok (Some (Fin false 12345 (-2)))
  /\ Decimal "123.45" = Ok (Fin false 12345 (-2)).
Proof.
  split; [exact parse_amount_comma_to_period|].
  split; [|repeat split; reflexivity].
  intros c p d <- HD.
  rewrite <- (parse_amount_comma_to_period c).
  split; now apply parse_amount_period_text.
Qed.

(** C5, as the code has it.  [parse_amount] trims the text and drops every
    space character: a value that is not missing, that [str()] renders, and
    whose text, once trimmed and rid of its spaces, is a numeric string parses
    to the decimal of that string. *)
Theorem parse_amount_drops_spaces (value : scalar) (d : decimal) :
  is_missing value = false -> str_raises value = false ->
  Decimal (Str.replace " " "" (Str.strip (str value))) = Ok d ->
  parse_amount value = Ok (Some d).
Proof. apply parse_amount_of_valid. Qed.

Lemma parse_amount_drops_spaces_witness :
  is_missing (PyStr "1 234.56") = false
  /\ str_raises (PyStr "1 234.56") = false
  /\ Decimal (Str.replace " " "" (Str.strip (str (PyStr "1 234.56"))))
     = Ok (Fin false 123456 (-2))
  /\ parse_amount (PyStr "1 234.56") = Ok (Some (Fin false 123456 (-2))).
Proof.
  split; [reflexivity|]. split; [reflexivity|]. split; [reflexivity|].
  apply (parse_amount_drops_spaces (PyStr "1 234.56")); reflexivity.
Defined.

(** C5, as stated, fails: a tab or a no-break space inside the text is
    whitespace that [parse_amount] keeps, so the text is not parsed although
    it is a numeric string once all whitespace is removed. *)
Lemma parse_amount_keeps_inner_whitespace :
  Decimal (spec_without_whitespace ("1" ++ String (ascii_of_N 9) "234.56"))
  = Ok (Fin false 123456 (-2))
  /\ parse_amount (PyStr ("1" ++ String (ascii_of_N 9) "234.56")) = Ok None
  /\ Decimal (spec_without_whitespace ("1" ++ String (ascii_of_N 160) "234.56"))
     = Ok (Fin false 123456 (-2))
  /\ parse_amount (PyStr ("1" ++ String (ascii_of_N 160) "234.56")) = Ok None.
Proof. repeat split; reflexivity. Qed.

(** * The aggregators *)

Lemma column_value_not_None (column : list (option decimal)) :
  (total_value (not_None column) == column_value column)%Q.
Proof.
  induction column as [|[d|] column IH]; simpl; [reflexivity | | ].
  - now rewrite IH.
  - rewrite IH. ring.
Qed.

Section AggregatorSpec.

Context {R : Type} (id : R -> option string) (raw amt : R -> cell).

Lemma aggregate_kept_rows (df : list R) (agg : list total) :
  aggregate (kept_rows id raw amt df) = Ok agg -> aggregated id raw amt df agg.
Proof.
  intros H. pose proof (aggregate_NoDup _ _ H) as Hnd.
  destruct (aggregate_rows _ _ H) as [Hk Hrows].
  split; [exact Hnd|]. split.
  - intros k. now rewrite Hk, group_keys_In, kept_rows_ids.
  - intros t Ht. destruct (Hrows t Ht) as [Hsum Hname].
    rewrite group_of_kept_rows, map_map in Hsum, Hname. simpl in Hsum, Hname.
    split; [exact Hsum|]. split.
    + intros Hf. destruct (py_sum_exact _ Decimal_0 eq_refl Hf) as [E V].
      rewrite E in Hsum. injection Hsum as <-.
      rewrite V, column_value_not_None. simpl. ring.
    + assert (Hin : In (t_company_id t) (map t_company_id agg)) by now apply in_map.
      rewrite Hk, group_keys_In, kept_rows_ids in Hin.
      destruct Hin as (r0 & Hr0 & Hid0). apply has_id_iff in Hid0.
      destruct (filter (has_id id (t_company_id t)) df) as [|r rest] eqn:F.
      * assert (Hf : In r0 (filter (has_id id (t_company_id t)) df))
          by (apply filter_In; now split).
        rewrite F in Hf. destruct Hf.
      * destruct (filter_first _ _ _ _ F) as (before & after & E & Hr & Hb & _).
        exists before, r, after.
        split; [exact E|]. split; [exact Hr|]. split; [exact Hb|].
        rewrite Hname. reflexivity.
Qed.


End AggregatorSpec.




(** * The reconciler *)

(** [evaluate t as H] runs the closed term [t] and records its value. *)
Tactic Notation "evaluate" constr(t) "as" ident(H) :=
  let r := eval vm_compute in t in
  assert (H : t = r) by (vm_compute; reflexivity).

(** C1, as the code has it.  Whenever [compare] returns, which it does
    unless a subtraction or a sum of decimals signals, the detail table has
    exactly one row for every identifier of either aggregated table and for no
    other; in a row the side that lacks the identifier has the amount
    [Decimal("0")] and no name, the side that has it carries the name and the
    total of its table (a total that is a quiet NaN replaced by zero), and
    [delta] is the difference of the two amounts in the arithmetic of the
    context, equal to the exact difference whenever that one fits. *)
Theorem compare_full_outer_join
    (f1 f2 : string) (file1 : list row1) (file2 : list row2)
    (left right : list total)
    (detail : list detail_row) (summary : list summary_row) :
  prepare_file1 file1 = Ok left -> prepare_file2 file2 = Ok right ->
  compare f1 f2 file1 file2 = Ok (detail, summary) ->
  NoDup (map company_id detail)
  /\ (forall k, In k (map company_id detail) <->
                In k (map t_company_id left) \/ In k (map t_company_id right))
  /\ forall row, In row detail ->
       (~ In (company_id row) (map t_company_id left) ->
          amount_1 row = Decimal_0 /\ company_name_1 row = None)
       /\ (~ In (company_id row) (map t_company_id right) ->
          amount_2 row = Decimal_0 /\ company_name_2 row = None)
       /\ (forall t, In t left -> t_company_id t = company_id row ->
             amount_1 row = fillna_0 (Some (t_amount t))
             /\ company_name_1 row = t_company_name t)
       /\ (forall t, In t right -> t_company_id t = company_id row ->
             amount_2 row = fillna_0 (Some (t_amount t))
             /\ company_name_2 row = t_company_name t)
       /\ dec_sub (amount_1 row) (amount_2 row) = Ok (delta row)
       /\ (is_finite (amount_1 row) = true -> is_finite (amount_2 row) = true ->
           fits (exact_add (amount_1 row) (copy_negate (amount_2 row))) = true ->
           (dec_value (delta row) == dec_value (amount_1 row) - dec_value (amount_2 row))%Q).
Proof.
  intros Hl Hr Hc.
  split; [exact (report_ids_NoDup _ _ _ _ _ _ _ _ Hl Hr Hc)|].
  split; [exact (report_id_In _ _ _ _ _ _ _ _ Hl Hr Hc)|].
  intros row Hin.
  destruct (report_side_1 _ _ _ _ _ _ _ _ Hl Hr Hc row Hin) as (Hin1 & Hout1 & _).
  destruct (report_side_2 _ _ _ _ _ _ _ _ Hl Hr Hc row Hin) as (Hin2 & Hout2 & _).
  pose proof (report_delta _ _ _ _ _ _ _ _ Hl Hr Hc row Hin) as Hd.
  split; [exact Hout1|]. split; [exact Hout2|].
  split; [exact Hin1|]. split; [exact Hin2|]. split; [exact Hd|].
  intros F1 F2 Hf. destruct (dec_sub_exact _ _ F1 F2 Hf) as [E V].
  rewrite E in Hd. injection Hd as <-. exact V.
Qed.

Lemma compare_full_outer_join_witness :
  exists left right detail summary,
    prepare_file1 [sheet1 "Acme [10]" "50.00"; sheet1 "Bolt [2]" "1,5"] = Ok left
    /\ prepare_file2 [sheet2 "2,000" "Bolt" "1.25"; sheet2 "9,000" "Zed" "10"] = Ok right
    /\ compare "OC.xlsx" "1C.xlsx"
         [sheet1 "Acme [10]" "50.00"; sheet1 "Bolt [2]" "1,5"]
         [sheet2 "2,000" "Bolt" "1.25"; sheet2 "9,000" "Zed" "10"]
       = Ok (detail, summary)
    /\ map company_id detail = ["10"; "2"; "9"]
    /\ NoDup (map company_id detail)
    /\ map amount_2 detail = [Decimal_0; Fin false 125 (-2); Fin false 10 0]
    /\ map delta detail = [Fin false 5000 (-2); Fin false 25 (-2); Fin true 10 0].
Proof.
  evaluate (prepare_file1 [sheet1 "Acme [10]" "50.00"; sheet1 "Bolt [2]" "1,5"]) as Hl.
  evaluate (prepare_file2 [sheet2 "2,000" "Bolt" "1.25"; sheet2 "9,000" "Zed" "10"])
    as Hr.
  evaluate (compare "OC.xlsx" "1C.xlsx"
              [sheet1 "Acme [10]" "50.00"; sheet1 "Bolt [2]" "1,5"]
              [sheet2 "2,000" "Bolt" "1.25"; sheet2 "9,000" "Zed" "10"]) as Hc.
  lazymatch type of Hl with _ = Ok ?l =>
  lazymatch type of Hr with _ = Ok ?r =>
  lazymatch type of Hc with _ = Ok (?d, ?s) => exists l, r, d, s
  end end end.
  split; [exact Hl|]. split; [exact Hr|]. split; [exact Hc|]. split; [reflexivity|].
  split; [|split; reflexivity].
  exact (proj1 (compare_full_outer_join _ _ _ _ _ _ _ _ Hl Hr Hc)).
Defined.

(** C1, as stated, fails: [compare] produces no row at all when a
    subtraction signals, as for an identifier whose total is infinite in both
    tables; and a difference of more than 28 digits is rounded, as for the
    totals 1e28 and -1, whose [delta] is 1e28. *)
Lemma compare_raises_on_infinite_totals :
  prepare_file1 [sheet1 "Acme [1]" "Infinity"]
  = Ok [Build_total "1" (Inf false) (Some "Acme [1]")]
  /\ prepare_file2 [sheet2 "1,000" "Acme" "Infinity"]
     = Ok [Build_total "1" (Inf false) (Some "Acme")]
  /\ dec_sub (Inf false) (Inf false) = Raise InvalidOperation
  /\ compare "OC.xlsx" "1C.xlsx"
       [sheet1 "Acme [1]" "Infinity"] [sheet2 "1,000" "Acme" "Infinity"]
     = Raise InvalidOperation
  /\ compare "OC.xlsx" "1C.xlsx"
       [sheet1 "Acme [1]" "1e28"] [sheet2 "1,000" "Acme" "-1"]
     = Ok ([Build_detail_row "1" (Some "Acme [1]") (Some "Acme")
              (Fin false 1000000000000000000000000000 1) (Fin true 1 0)
              (Fin false 1000000000000000000000000000 1) "MISMATCH"],
           [Build_summary_row "MISMATCH" 1
              (Fin false 1000000000000000000000000000 1) (Fin true 1 0)
              (Fin false 1000000000000000000000000000 1)])
  /\ ~ (dec_value (Fin false 1000000000000000000000000000 1)
        == dec_value (Fin false 1000000000000000000000000000 1)
           - dec_value (Fin true 1 0))%Q.
Proof.
  do 5 (split; [vm_compute; reflexivity|]).
  intros H. vm_compute in H. discriminate H.
Qed.

(** C2.  In every detail row the status follows the first rule that applies,
    with the comparison of [delta] to zero done on the decimal itself: both
    names present and [delta == 0] gives MATCH, both present and
    [delta != 0] gives MISMATCH, only the first name gives the label of the
    first file, only the second name the label of the second.  The comparison
    always decides, [delta] is the difference of the two amounts, and for a
    finite [delta] it holds exactly when its value is zero, so that with both
    names present and a difference that fits the context the status is MATCH
    exactly when the two amounts have the same value; amounts 100.00 and
    100.00 give MATCH with delta 0.00, amounts 100.00 and 99.99 give MISMATCH
    with delta 0.01. *)
Theorem status_by_first_matching_rule
    (f1 f2 : string) (file1 : list row1) (file2 : list row2)
    (detail : list detail_row) (summary : list summary_row) (row : detail_row) :
  compare f1 f2 file1 file2 = Ok (detail, summary) -> In row detail ->
  (exists z, dec_eq_zero (delta row) = Ok z)
  /\ (company_name_1 row <> None -> company_name_2 row <> None ->
      dec_eq_zero (delta row) = Ok true -> status row = "MATCH")
  /\ (company_name_1 row <> None -> company_name_2 row <> None ->
      dec_eq_zero (delta row) = Ok false -> status row = "MISMATCH")
  /\ (company_name_1 row <> None -> company_name_2 row = None ->
      status row = "only_file_" ++ f1)
  /\ (company_name_1 row = None -> company_name_2 row <> None ->
      status row = "only_file_" ++ f2)
  /\ dec_sub (amount_1 row) (amount_2 row) = Ok (delta row)
  /\ (is_finite (delta row) = true ->
      (dec_eq_zero (delta row) = Ok true <-> (dec_value (delta row) == 0)%Q))
  /\ (company_name_1 row <> None -> company_name_2 row <> None ->
      is_finite (amount_1 row) = true -> is_finite (amount_2 row) = true ->
      fits (exact_add (amount_1 row) (copy_negate (amount_2 row))) = true ->
      (status row = "MATCH" <-> (dec_value (amount_1 row) == dec_value (amount_2 row))%Q))
  /\ (company_name_1 row <> None -> company_name_2 row <> None ->
      amount_1 row = Fin false 10000 (-2) -> amount_2 row = Fin false 10000 (-2) ->
      delta row = Fin false 0 (-2) /\ status row = "MATCH")
  /\ (company_name_1 row <> None -> company_name_2 row <> None ->
      amount_1 row = Fin false 10000 (-2) -> amount_2 row = Fin false 9999 (-2) ->
      delta row = Fin false 1 (-2) /\ status row = "MISMATCH").
Proof.
  intros Hc Hin.
  destruct (compare_inv _ _ _ _ _ _ Hc) as (left & right & _ & _ & Hl & Hr & _).
  pose proof (report_delta _ _ _ _ _ _ _ _ Hl Hr Hc row Hin) as Hd.
  pose proof (report_status _ _ _ _ _ _ _ _ Hl Hr Hc row Hin) as Hst.
  destruct (dec_sub_comparable _ _ _ Hd) as [z Hz].
  assert (Hboth : company_name_1 row <> None -> company_name_2 row <> None ->
                  status row = if z then "MATCH" else "MISMATCH").
  { revert Hst. destruct (company_name_1 row), (company_name_2 row); try congruence.
    intros (z' & Hz' & ->) _ _. rewrite Hz in Hz'. now injection Hz' as <-. }
  split; [now exists z|].
  split; [intros H1 H2 E; rewrite (Hboth H1 H2); rewrite Hz in E;
          now injection E as ->|].
  split; [intros H1 H2 E; rewrite (Hboth H1 H2); rewrite Hz in E;
          now injection E as ->|].
  split; [revert Hst; destruct (company_name_1 row), (company_name_2 row);
          intros Hst H1 H2; try discriminate; try (now elim H1); exact Hst|].
  split; [revert Hst; destruct (company_name_1 row), (company_name_2 row);
          intros Hst H1 H2; try discriminate; try (now elim H2); exact Hst|].
  split; [exact Hd|].
  split; [apply dec_eq_zero_value|].
  split.
  { intros H1 H2 F1 F2 Hf. rewrite (Hboth H1 H2).
    destruct (dec_sub_exact _ _ F1 F2 Hf) as [E V].
    rewrite E in Hd. injection Hd as Hd.
    assert (Fd : is_finite (delta row) = true)
      by (rewrite <- Hd; now apply exact_add_finite).
    pose proof (dec_eq_zero_value _ Fd) as Hzero. rewrite Hz in Hzero.
    rewrite <- Hd, V in Hzero.
    assert (Hq : (dec_value (amount_1 row) - dec_value (amount_2 row) == 0)%Q
                 <-> (dec_value (amount_1 row) == dec_value (amount_2 row))%Q).
    { split; intros Hq.
      - rewrite <- (Qplus_0_l (dec_value (amount_2 row))), <- Hq. ring.
      - rewrite Hq. ring. }
    rewrite <- Hq, <- Hzero. destruct z; split; congruence. }
  assert (Ematch : dec_sub (Fin false 10000 (-2)) (Fin false 10000 (-2))
                   = Ok (Fin false 0 (-2))) by reflexivity.
  assert (Emis : dec_sub (Fin false 10000 (-2)) (Fin false 9999 (-2))
                 = Ok (Fin false 1 (-2))) by reflexivity.
  split; intros H1 H2 E1 E2; rewrite E1, E2 in Hd;
    rewrite ?Ematch, ?Emis in Hd; injection Hd as Hd; rewrite <- Hd in Hz;
    injection Hz as Hz; (split; [now symmetry|]);
    rewrite (Hboth H1 H2), <- Hz; reflexivity.
Qed.

Lemma status_by_first_matching_rule_witness :
  exists detail summary r1 r2,
    compare "OC.xlsx" "1C.xlsx"
      [sheet1 "Acme [1]" "100.00"; sheet1 "Bolt [2]" "100.00"]
      [sheet2 "1,000" "Acme" "100.00"; sheet2 "2,000" "Bolt" "99.99"]
    = Ok (detail, summary)
    /\ detail = [r1; r2]
    /\ (delta r1 = Fin false 0 (-2) /\ status r1 = "MATCH")
    /\ (delta r2 = Fin false 1 (-2) /\ status r2 = "MISMATCH").
Proof.
  evaluate (compare "OC.xlsx" "1C.xlsx"
              [sheet1 "Acme [1]" "100.00"; sheet1 "Bolt [2]" "100.00"]
              [sheet2 "1,000" "Acme" "100.00"; sheet2 "2,000" "Bolt" "99.99"]) as H.
  lazymatch type of H with
  | _ = Ok ([?r1; ?r2], ?s) => exists [r1; r2], s, r1, r2
  end.
  split; [exact H|]. split; [reflexivity|]. split.
  - apply (status_by_first_matching_rule _ _ _ _ _ _ _ H);
      [now left | discriminate | discriminate | reflexivity | reflexivity].
  - apply (status_by_first_matching_rule _ _ _ _ _ _ _ H);
      [right; now left | discriminate | discriminate | reflexivity | reflexivity].
Defined.

(** C9, as the code has it.  In what [compare] returns, the detail rows are
    in strictly ascending order of the identifier as text, so that "10" comes
    before "2"; the summary has exactly one row for every status of the detail
    table, in strictly ascending order of the status, with the number of rows
    of that status and the sums of their two amounts and of their deltas in the
    arithmetic of the context, which are the sums of the values whenever no
    step is rounded; and the row counts add up to the number of detail
    rows. *)
Theorem compare_order_and_summary
    (f1 f2 : string) (file1 : list row1) (file2 : list row2)
    (detail : list detail_row) (summary : list summary_row) :
  compare f1 f2 file1 file2 = Ok (detail, summary) ->
  StronglySorted (lt_by company_id) detail
  /\ str_lt "10" "2"
  /\ StronglySorted (lt_by s_status) summary
  /\ (forall st, In st (map s_status summary) <-> In st (map status detail))
  /\ (forall s, In s summary ->
        summary_of detail (s_status s) s
        /\ (sum_fits (map amount_1 (status_group detail (s_status s))) Decimal_0 = true ->
            (dec_value (s_total_amount_1 s)
             == total_value (map amount_1 (status_group detail (s_status s))))%Q)
        /\ (sum_fits (map amount_2 (status_group detail (s_status s))) Decimal_0 = true ->
            (dec_value (s_total_amount_2 s)
             == total_value (map amount_2 (status_group detail (s_status s))))%Q)
        /\ (sum_fits (map delta (status_group detail (s_status s))) Decimal_0 = true ->
            (dec_value (s_total_delta s)
             == total_value (map delta (status_group detail (s_status s))))%Q))
  /\ list_sum (map s_rows summary) = List.length detail.
Proof.
  intros Hc.
  destruct (compare_inv _ _ _ _ _ _ Hc) as (left & right & _ & _ & Hl & Hr & _ & _ & _ & Hs).
  split; [exact (report_sorted _ _ _ _ _ _ _ _ Hl Hr Hc)|]. split; [reflexivity|].
  destruct (summarize_rows _ _ Hs) as (pre & Hpre & ->).
  pose proof (summary_statuses _ _ _ Hpre) as Hst.
  split; [|split; [|split]].
  - apply sort_values_strict. rewrite Hst. apply group_keys_NoDup.
  - intros st. rewrite <- (group_keys_In (map status detail)), <- Hst.
    split; apply Permutation_in, Permutation_map;
      [apply sort_values_perm | symmetry; apply sort_values_perm].
  - intros s Hin. apply sort_values_In in Hin.
    destruct (Forall2_In_r _ _ _ _ Hpre Hin) as (k & _ & Hk).
    assert (E : s_status s = k) by apply Hk. rewrite E.
    split; [exact Hk|]. destruct Hk as (_ & _ & S1 & S2 & S3).
    split; [|split]; now apply py_sum_value.
  - rewrite (list_sum_perm _ (map s_rows pre)).
    + now apply summary_counts.
    + apply Permutation_map, sort_values_perm.
Qed.

Lemma compare_order_and_summary_witness :
  exists detail summary,
    compare "OC.xlsx" "1C.xlsx"
      [sheet1 "Bolt [2]" "1,5"; sheet1 "Acme [10]" "50.00"; sheet1 "Cog [3]" "7"]
      [sheet2 "3,000" "Cog" "8"; sheet2 "2,000" "Bolt" "1.25"; sheet2 "9,000" "Zed" "10"]
    = Ok (detail, summary)
    /\ map company_id detail = ["10"; "2"; "3"; "9"]
    /\ map s_status summary = ["MISMATCH"; "only_file_1C.xlsx"; "only_file_OC.xlsx"]
    /\ map s_rows summary = [2; 1; 1]%nat
    /\ StronglySorted (lt_by company_id) detail
    /\ list_sum (map s_rows summary) = List.length detail.
Proof.
  evaluate (compare "OC.xlsx" "1C.xlsx"
      [sheet1 "Bolt [2]" "1,5"; sheet1 "Acme [10]" "50.00"; sheet1 "Cog [3]" "7"]
      [sheet2 "3,000" "Cog" "8"; sheet2 "2,000" "Bolt" "1.25"; sheet2 "9,000" "Zed" "10"])
    as Hc.
  lazymatch type of Hc with _ = Ok (?d, ?s) => exists d, s end.
  split; [exact Hc|]. split; [reflexivity|]. split; [reflexivity|].
  split; [reflexivity|].
  destruct (compare_order_and_summary _ _ _ _ _ _ Hc) as (H1 & _ & _ & _ & _ & H6).
  split; [exact H1 | exact H6].
Defined.

(** C9, as stated, fails: a sum of the summary is rounded to the 28 digits
    of the context.  With the first amounts 1e28 and 1 in the two MISMATCH
    rows, their sum in the summary is 1e28. *)
Lemma summary_sum_is_rounded :
  compare "OC.xlsx" "1C.xlsx"
    [sheet1 "Acme [1]" "1e28"; sheet1 "Bolt [2]" "1"]
    [sheet2 "1,000" "Acme" "5"; sheet2 "2,000" "Bolt" "5"]
  = Ok ([Build_detail_row "1" (Some "Acme [1]") (Some "Acme")
           (Fin false 1000000000000000000000000000 1) (Fin false 5 0)
           (Fin false 9999999999999999999999999995 0) "MISMATCH";
         Build_detail_row "2" (Some "Bolt [2]") (Some "Bolt")
           (Fin false 1 0) (Fin false 5 0) (Fin true 4 0) "MISMATCH"],
        [Build_summary_row "MISMATCH" 2
           (Fin false 1000000000000000000000000000 1) (Fin false 10 0)
           (Fin false 9999999999999999999999999991 0)])
  /\ ~ (dec_value (Fin false 1000000000000000000000000000 1)
        == dec_value (Fin false 1000000000000000000000000000 1)
           + dec_value (Fin false 1 0))%Q.
Proof.
  split; [vm_compute; reflexivity|].
  intros H. vm_compute in H. discriminate H.
Qed.

(** C10, as the code has it.  With pandas before 3.0, whose [astype(str)]
    renders a blank name cell as text: in every detail row the name of a
    source is present exactly when the identifier is in the aggregated table
    of that source, and a status is one of the two [only_file_] labels exactly
    when the identifier is in one table and not in the other.  Every row of an
    aggregated table has a name, so a blank name never makes an identifier
    count as missing from its source. *)
Theorem name_present_iff_in_source
    (f1 f2 : string) (file1 : list row1) (file2 : list row2)
    (left right : list total)
    (detail : list detail_row) (summary : list summary_row) (row : detail_row) :
  prepare_file1_on Before_3 file1 = Ok left ->
  prepare_file2_on Before_3 file2 = Ok right ->
  compare_on Before_3 f1 f2 file1 file2 = Ok (detail, summary) -> In row detail ->
  (company_name_1 row <> None <-> In (company_id row) (map t_company_id left))
  /\ (company_name_2 row <> None <-> In (company_id row) (map t_company_id right))
  /\ ((status row = "only_file_" ++ f1 \/ status row = "only_file_" ++ f2) <->
      (In (company_id row) (map t_company_id left)
         /\ ~ In (company_id row) (map t_company_id right))
      \/ (~ In (company_id row) (map t_company_id left)
         /\ In (company_id row) (map t_company_id right)))
  /\ (In (company_id row) (map t_company_id left) ->
      ~ In (company_id row) (map t_company_id right) ->
      status row = "only_file_" ++ f1)
  /\ (~ In (company_id row) (map t_company_id left) ->
      In (company_id row) (map t_company_id right) ->
      status row = "only_file_" ++ f2)
  /\ (forall t, In t left -> t_company_name t <> None)
  /\ (forall t, In t right -> t_company_name t <> None).
Proof.
  rewrite prepare_file1_on_Before_3, prepare_file2_on_Before_3, compare_on_Before_3.
  intros Hl Hr Hc Hin.
  destruct (report_side_1 _ _ _ _ _ _ _ _ Hl Hr Hc row Hin) as (_ & _ & N1).
  destruct (report_side_2 _ _ _ _ _ _ _ _ Hl Hr Hc row Hin) as (_ & _ & N2).
  pose proof (report_status _ _ _ _ _ _ _ _ Hl Hr Hc row Hin) as Hst.
  pose proof (only_file_label f1) as [L1 L1'].
  pose proof (only_file_label f2) as [L2 L2'].
  split; [exact N1|]. split; [exact N2|].
  assert (Hnamed : (forall t, In t left -> t_company_name t <> None)
                   /\ (forall t, In t right -> t_company_name t <> None)).
  { split; intros t; [apply (prepare_file1_named _ _ _ Hl)
                     | apply (prepare_file2_named _ _ _ Hr)]. }
  revert Hst N1 N2.
  destruct (company_name_1 row) as [n1|], (company_name_2 row) as [n2|];
    intros Hst N1 N2; [| | |destruct Hst].
  - assert (P1 : In (company_id row) (map t_company_id left))
      by (apply N1; discriminate).
    assert (P2 : In (company_id row) (map t_company_id right))
      by (apply N2; discriminate).
    split; [|tauto]. split; [|tauto].
    destruct Hst as ([] & _ & ->); intros [E | E]; congruence.
  - assert (P1 : In (company_id row) (map t_company_id left))
      by (apply N1; discriminate).
    assert (P2 : ~ In (company_id row) (map t_company_id right))
      by (intros P2; now apply N2 in P2).
    tauto.
  - assert (P1 : ~ In (company_id row) (map t_company_id left))
      by (intros P1; now apply N1 in P1).
    assert (P2 : In (company_id row) (map t_company_id right))
      by (apply N2; discriminate).
    tauto.
Qed.

Lemma name_present_iff_in_source_witness :
  exists left right detail summary row,
    prepare_file1_on Before_3 [sheet1 "Acme [1]" "5"] = Ok left
    /\ prepare_file2_on Before_3 [sheet2_unnamed "7,000" "10"; sheet2_unnamed "1,000" "5"]
       = Ok right
    /\ compare_on Before_3 "OC.xlsx" "1C.xlsx" [sheet1 "Acme [1]" "5"]
         [sheet2_unnamed "7,000" "10"; sheet2_unnamed "1,000" "5"]
       = Ok (detail, summary)
    /\ In row detail
    /\ company_id row = "7" /\ company_name_2 row = Some "nan"
    /\ (company_name_2 row <> None <-> In (company_id row) (map t_company_id right))
    /\ status row = "only_file_1C.xlsx".
Proof.
  evaluate (prepare_file1_on Before_3 [sheet1 "Acme [1]" "5"]) as Hl.
  evaluate (prepare_file2_on Before_3
              [sheet2_unnamed "7,000" "10"; sheet2_unnamed "1,000" "5"]) as Hr.
  evaluate (compare_on Before_3 "OC.xlsx" "1C.xlsx" [sheet1 "Acme [1]" "5"]
              [sheet2_unnamed "7,000" "10"; sheet2_unnamed "1,000" "5"]) as Hc.
  lazymatch type of Hl with _ = Ok ?l =>
  lazymatch type of Hr with _ = Ok ?r =>
  lazymatch type of Hc with _ = Ok ([?r1; ?r2], ?s) =>
    exists l, r, [r1; r2], s, r2;
    assert (Hin : In r2 [r1; r2]) by (right; now left)
  end end end.
  destruct (name_present_iff_in_source _ _ _ _ _ _ _ _ _ Hl Hr Hc Hin)
    as (_ & H2 & _ & _ & H5 & _).
  split; [exact Hl|]. split; [exact Hr|]. split; [exact Hc|]. split; [exact Hin|].
  split; [reflexivity|]. split; [reflexivity|]. split; [exact H2|].
  apply H5; [|now apply H2]. intros [E | []]. discriminate E.
Defined.

(** C10, as stated, fails with pandas from 3.0 on, whose [astype(str)] keeps
    a blank name cell missing.  An identifier of both sources whose name cells
    are blank in the second source is in the aggregated table of that source,
    but the name of that source is absent from its detail row, and the status
    is the [only_file_] label of the first source. *)
Lemma blank_name_counts_as_missing :
  prepare_file1_on From_3 [sheet1 "Acme [1]" "5"]
  = Ok [Build_total "1" (Fin false 5 0) (Some "Acme [1]")]
  /\ prepare_file2_on From_3 [sheet2_unnamed "1,000" "5"]
     = Ok [Build_total "1" (Fin false 5 0) None]
  /\ compare_on From_3 "OC.xlsx" "1C.xlsx"
       [sheet1 "Acme [1]" "5"] [sheet2_unnamed "1,000" "5"]
     = Ok ([Build_detail_row "1" (Some "Acme [1]") None (Fin false 5 0)
              (Fin false 5 0) (Fin false 0 0) "only_file_OC.xlsx"],
           [Build_summary_row "only_file_OC.xlsx" 1 (Fin false 5 0)
              (Fin false 5 0) (Fin false 0 0)]).
Proof. repeat split; vm_compute; reflexivity. Qed.
(** ** Digits and slices *)

Lemma forallb_append (p : ascii -> bool) (a b : string) :
  Str.forallb p (a ++ b) = Str.forallb p a && Str.forallb p b.
Proof.
  induction a as [|c a IH]; simpl; [reflexivity|].
  rewrite IH. now rewrite andb_assoc.
Qed.

Lemma forallb_impl (p q : ascii -> bool) (s : string) :
  (forall c, p c = true -> q c = true) ->
  Str.forallb p s = true -> Str.forallb q s = true.
Proof.
  intros H. induction s as [|c s IH]; simpl; [reflexivity|].
  intros E. apply andb_true_iff in E as [E1 E2].
  now rewrite (H _ E1), IH.
Qed.

Lemma length_append (a b : string) :
  String.length (a ++ b) = (String.length a + String.length b)%nat.
Proof. induction a as [|c a IH]; simpl; [reflexivity | now rewrite IH]. Qed.

Lemma int_of_digits_acc_append (a b : string) (acc : N) :
  int_of_digits_acc acc (a ++ b) = int_of_digits_acc (int_of_digits_acc acc a) b.
Proof.
  revert acc. induction a as [|c a IH]; intros acc; simpl; [reflexivity | apply IH].
Qed.

Lemma digit_code (n : N) :
  (n < 10)%N ->
  Str.isdigit (ascii_of_N (48 + n)) = true
  /\ (N_of_ascii (ascii_of_N (48 + n)) - 48 = n)%N.
Proof.
  intros H. unfold Str.isdigit.
  rewrite N_ascii_embedding by lia.
  split; [|lia].
  apply andb_true_iff. split; apply N.leb_le; lia.
Qed.

Lemma digits_of_pos_fuel_S (f : nat) (n : N) (acc : string) :
  Str.digits_of_pos_fuel (S f) n acc
  = if (n <? 10)%N then String (ascii_of_N (48 + n mod 10)) acc
    else Str.digits_of_pos_fuel f (n / 10) (String (ascii_of_N (48 + n mod 10)) acc).
Proof. reflexivity. Qed.

(** The digits [str] writes for a number: how they read back, and how many
    they are. *)
Lemma digits_of_pos_fuel_spec (f : nat) (n : N) (acc : string) :
  (n < 10 ^ N.of_nat (S f))%N ->
  exists ds,
    Str.digits_of_pos_fuel (S f) n acc = ds ++ acc
    /\ Str.forallb Str.isdigit ds = true
    /\ ds <> ""
    /\ (forall a, int_of_digits_acc a ds
                  = a * 10 ^ N.of_nat (String.length ds) + n)%N
    /\ (n < 10 ^ N.of_nat (String.length ds))%N
    /\ ((0 < n)%N -> (10 ^ (N.of_nat (String.length ds) - 1) <= n)%N).
Proof.
  revert n acc. induction f as [|f IH]; intros n acc Hn.
  - change (10 ^ N.of_nat 1)%N with 10%N in Hn.
    destruct (digit_code (n mod 10)) as [D1 D2]; [apply N.mod_lt; lia|].
    rewrite N.mod_small in D1, D2 by exact Hn.
    exists (String (ascii_of_N (48 + n)) "").
    split.
    { rewrite digits_of_pos_fuel_S, N.mod_small by exact Hn.
      destruct (n <? 10)%N; reflexivity. }
    split; [cbn [Str.forallb]; now rewrite D1|].
    split; [discriminate|].
    split; [intros a; cbn [int_of_digits_acc String.length]; rewrite D2;
            change (10 ^ N.of_nat 1)%N with 10%N; lia|].
    split; [exact Hn|].
    intros Hp. cbn [String.length]. change (10 ^ (N.of_nat 1 - 1))%N with 1%N. lia.
  - destruct (digit_code (n mod 10)) as [D1 D2]; [apply N.mod_lt; lia|].
    rewrite digits_of_pos_fuel_S.
    destruct (n <? 10)%N eqn:E.
    + apply N.ltb_lt in E.
      rewrite N.mod_small in D1, D2 |- * by exact E.
      exists (String (ascii_of_N (48 + n)) "").
      split; [reflexivity|].
      split; [cbn [Str.forallb]; now rewrite D1|].
      split; [discriminate|].
      split; [intros a; cbn [int_of_digits_acc String.length]; rewrite D2;
              change (10 ^ N.of_nat 1)%N with 10%N; lia|].
      split; [exact E|].
      intros Hp. cbn [String.length]. change (10 ^ (N.of_nat 1 - 1))%N with 1%N. lia.
    + apply N.ltb_ge in E.
      assert (Hq : (n / 10 < 10 ^ N.of_nat (S f))%N).
      { apply N.Div0.div_lt_upper_bound.
        replace (N.of_nat (S (S f))) with (N.succ (N.of_nat (S f))) in Hn by lia.
        now rewrite N.pow_succ_r' in Hn. }
      destruct (IH (n / 10)%N (String (ascii_of_N (48 + n mod 10)) acc) Hq)
        as (ds & E1 & E2 & E3 & E4 & E5 & E6).
      exists (ds ++ String (ascii_of_N (48 + n mod 10)) "").
      assert (L : N.of_nat (String.length (ds ++ String (ascii_of_N (48 + n mod 10)) ""))
                  = N.succ (N.of_nat (String.length ds))).
      { rewrite length_append. cbn [String.length]. lia. }
      assert (Hdm : n = (10 * (n / 10) + n mod 10)%N) by apply N.div_mod'.
      assert (Hm : (n mod 10 < 10)%N) by (apply N.mod_lt; lia).
      split; [rewrite E1, append_assoc; reflexivity|].
      split; [rewrite forallb_append, E2; cbn [Str.forallb]; now rewrite D1|].
      split; [destruct ds; discriminate|].
      split.
      { intros a. rewrite int_of_digits_acc_append, E4.
        cbn [int_of_digits_acc]. rewrite D2, L, N.pow_succ_r'. lia. }
      split; [rewrite L, N.pow_succ_r'; lia|].
      intros _. rewrite L.
      replace (N.succ (N.of_nat (String.length ds)) - 1)%N
        with (N.succ (N.of_nat (String.length ds) - 1))%N.
      2:{ destruct ds; [now elim E3|]. cbn [String.length]. lia. }
      rewrite N.pow_succ_r'.
      assert (0 < n / 10)%N.
      { apply N.div_str_pos. lia. }
      specialize (E6 H). lia.
Qed.

Lemma str_of_N_spec (n : N) :
  exists ds,
    Str.str_of_N n = ds
    /\ Str.forallb Str.isdigit ds = true
    /\ ds <> ""
    /\ (forall a, int_of_digits_acc a ds
                  = a * 10 ^ N.of_nat (String.length ds) + n)%N
    /\ (n < 10 ^ N.of_nat (String.length ds))%N
    /\ ((0 < n)%N -> (10 ^ (N.of_nat (String.length ds) - 1) <= n)%N).
Proof.
  unfold Str.str_of_N.
  destruct (digits_of_pos_fuel_spec (N.size_nat n) n "") as (ds & E & H).
  { eapply N.lt_le_trans; [apply size_nat_bound|].
    replace (N.of_nat (S (N.size_nat n))) with (N.succ (N.of_nat (N.size_nat n))) by lia.
    rewrite N.pow_succ_r'.
    assert (2 ^ N.of_nat (N.size_nat n) <= 10 ^ N.of_nat (N.size_nat n))%N
      by (apply N.pow_le_mono_l; lia).
    lia. }
  exists ds. rewrite E, append_empty_r. split; [reflexivity | exact H].
Qed.

Lemma str_of_N_digits (n : N) : Str.forallb Str.isdigit (Str.str_of_N n) = true.
Proof. destruct (str_of_N_spec n) as (ds & -> & H & _). exact H. Qed.

Lemma str_of_N_not_empty (n : N) : Str.str_of_N n <> "".
Proof. destruct (str_of_N_spec n) as (ds & -> & _ & H & _). exact H. Qed.

(** [int(str(n)) == n] *)
Lemma int_of_str_of_N (n : N) : int_of_digits (Str.str_of_N n) = n.
Proof.
  destruct (str_of_N_spec n) as (ds & -> & _ & _ & H & _).
  unfold int_of_digits. rewrite H. lia.
Qed.

(** [len(str(n))] *)
Lemma length_str_of_N (n : N) :
  Z.of_nat (String.length (Str.str_of_N n)) = ndigits n.
Proof.
  destruct (N.eq_dec n 0) as [->|Hn]; [reflexivity|].
  destruct (str_of_N_spec n) as (ds & -> & _ & Hne & _ & Hu & Hl).
  assert (Hp : (0 < n)%N) by lia.
  specialize (Hl Hp).
  destruct (ndigits_spec n Hp) as [Nl Nu].
  pose proof (ndigits_fuel_pos (N.size_nat n) n) as N1. fold (ndigits n) in N1.
  assert (L1 : (1 <= String.length ds)%nat) by (destruct ds; [now elim Hne | simpl; lia]).
  destruct (Z.lt_trichotomy (Z.of_nat (String.length ds)) (ndigits n)) as [C|[C|C]];
    [exfalso | exact C | exfalso].
  - assert (10 ^ N.of_nat (String.length ds) <= 10 ^ Z.to_N (ndigits n - 1))%N
      by (apply N.pow_le_mono_r; lia).
    lia.
  - assert (10 ^ Z.to_N (ndigits n) <= 10 ^ (N.of_nat (String.length ds) - 1))%N
      by (apply N.pow_le_mono_r; lia).
    lia.
Qed.

Lemma zeros_digits (k : nat) : Str.forallb Str.isdigit (zeros k) = true.
Proof. induction k as [|k IH]; simpl; [reflexivity | exact IH]. Qed.

Lemma length_zeros (k : nat) : String.length (zeros k) = k.
Proof. induction k as [|k IH]; simpl; [reflexivity | now rewrite IH]. Qed.

Lemma int_of_digits_acc_zeros (k : nat) (s : string) :
  int_of_digits_acc 0 (zeros k ++ s) = int_of_digits_acc 0 s.
Proof. induction k as [|k IH]; simpl; [reflexivity | exact IH]. Qed.

Lemma take_drop (k : nat) (s : string) : str_take k s ++ str_drop k s = s.
Proof.
  revert s. induction k as [|k IH]; intros [|c s]; simpl; try reflexivity.
  now rewrite IH.
Qed.

Lemma length_drop (k : nat) (s : string) :
  String.length (str_drop k s) = (String.length s - k)%nat.
Proof.
  revert s. induction k as [|k IH]; intros [|c s]; simpl; try reflexivity.
  apply IH.
Qed.

Lemma take_not_empty (k : nat) (s : string) :
  (0 < k)%nat -> s <> "" -> str_take k s <> "".
Proof. destruct k, s; simpl; try lia; try congruence. Qed.

Lemma forallb_take_drop (p : ascii -> bool) (k : nat) (s : string) :
  Str.forallb p s = true ->
  Str.forallb p (str_take k s) = true /\ Str.forallb p (str_drop k s) = true.
Proof.
  intros H. rewrite <- (take_drop k s), forallb_append in H.
  now apply andb_true_iff in H.
Qed.
(** ** The text of a decimal *)

Lemma isdigit_neq (c x : ascii) :
  Str.isdigit c = true -> Str.isdigit x = false -> Ascii.eqb c x = false.
Proof.
  intros Hc Hx. apply Ascii.eqb_neq. intros ->. congruence.
Qed.

Lemma lower_digit (c : ascii) : Str.isdigit c = true -> lower c = c.
Proof.
  unfold Str.isdigit, lower. intros H.
  apply andb_true_iff in H as [_ H]. apply N.leb_le in H.
  destruct (65 <=? N_of_ascii c)%N eqn:E; [|reflexivity].
  apply N.leb_le in E. lia.
Qed.

Lemma lower_str_digits (s : string) :
  Str.forallb Str.isdigit s = true -> lower_str s = s.
Proof.
  induction s as [|c s IH]; simpl; [reflexivity|].
  intros H. apply andb_true_iff in H as [H1 H2].
  now rewrite (lower_digit _ H1), IH.
Qed.

Lemma split_sign_digit (c : ascii) (r : string) :
  Str.isdigit c = true -> split_sign (String c r) = (false, String c r).
Proof.
  intros H. unfold split_sign.
  now rewrite (isdigit_neq c "-" H), (isdigit_neq c "+" H).
Qed.

Lemma split_sign_text (neg : bool) (c : ascii) (r : string) :
  Ascii.eqb c "-" = false -> Ascii.eqb c "+" = false ->
  split_sign (sign_text neg ++ String c r) = (neg, String c r).
Proof.
  intros H1 H2. destruct neg; cbn [sign_text String.append split_sign].
  - reflexivity.
  - now rewrite H1, H2.
Qed.

Lemma split_sign_format_signed (z : Z) :
  split_sign (format_signed z) = (z <? 0, Str.str_of_N (Z.abs_N z)).
Proof. unfold format_signed. destruct (z <? 0); reflexivity. Qed.

Lemma parse_special_digit (neg : bool) (c : ascii) (r : string) :
  Str.isdigit c = true -> parse_special neg (String c r) = None.
Proof.
  intros H. unfold parse_special. cbn [lower_str].
  rewrite (lower_digit _ H).
  cbn [String.eqb drop_prefix].
  rewrite (isdigit_neq c "i" H) by reflexivity.
  rewrite (Ascii.eqb_sym "n" c), (isdigit_neq c "n" H) by reflexivity.
  rewrite (Ascii.eqb_sym "s" c), (isdigit_neq c "s" H) by reflexivity.
  reflexivity.
Qed.

Lemma parse_exponent_render (hasexp : bool) (z : Z) :
  (hasexp = false -> z = 0) ->
  parse_exponent (if hasexp then "E" ++ format_signed z else "") = Some z.
Proof.
  intros H. destruct hasexp; [|now rewrite H].
  cbn [String.append parse_exponent].
  change (Ascii.eqb (lower "E") "e") with true. cbn iota.
  rewrite split_sign_format_signed.
  rewrite (proj2 (is_empty_false _) (str_of_N_not_empty _)).
  rewrite str_of_N_digits, int_of_str_of_N. cbn [orb negb].
  f_equal. destruct (z <? 0) eqn:E; [apply Z.ltb_lt in E | apply Z.ltb_ge in E]; lia.
Qed.

Lemma exponent_head (hasexp : bool) (z : Z) :
  match (if hasexp then "E" ++ format_signed z else "") with
  | EmptyString => True
  | String c _ => Str.isdigit c = false /\ Ascii.eqb c "." = false
  end.
Proof. destruct hasexp; cbn; auto. Qed.

(** [Decimal] reads a text of the shape of [number_text] digit by digit. *)
Lemma parse_number_render (neg : bool) (ip fd : string) (hasdot hasexp : bool) (z : Z) :
  Str.forallb Str.isdigit ip = true -> ip <> "" ->
  Str.forallb Str.isdigit fd = true ->
  (hasdot = false -> fd = "") -> (hasexp = false -> z = 0) ->
  parse_number neg (number_text ip fd hasdot hasexp z)
  = Some (Fin neg (int_of_digits (ip ++ fd)) (z - Z.of_nat (String.length fd))).
Proof.
  intros Hip Hne Hfd Hdot Hexp. unfold parse_number, number_text.
  pose proof (exponent_head hasexp z) as Hh.
  pose proof (parse_exponent_render hasexp z Hexp) as Hp.
  set (ex := if hasexp then "E" ++ format_signed z else "") in *.
  destruct hasdot.
  - cbn [String.append].
    rewrite (span_append Str.isdigit ip (String "." (fd ++ ex)) Hip) by reflexivity.
    change (Ascii.eqb "." ".") with true. cbn iota.
    rewrite (span_append Str.isdigit fd ex Hfd).
    2:{ destruct ex; [exact I | apply Hh]. }
    rewrite (proj2 (is_empty_false _) Hne). cbn [andb].
    now rewrite Hp.
  - rewrite (Hdot eq_refl). cbn [String.append].
    rewrite (span_append Str.isdigit ip ex Hip).
    2:{ destruct ex; [exact I | apply Hh]. }
    rewrite (proj2 (is_empty_false _) Hne). cbn [andb].
    destruct ex as [|c ex'] eqn:Eex.
    + rewrite Hp. reflexivity.
    + destruct Hh as [_ Hh]. rewrite Hh, Hp. reflexivity.
Qed.

(** The text of a finite decimal has the shape of [number_text], with the
    digits of the coefficient and the exponent to be read off it. *)
Lemma Decimal_str_shape (neg : bool) (c : N) (e : Z) :
  exists ip fd hasdot hasexp z,
    Decimal_str (Fin neg c e) = sign_text neg ++ number_text ip fd hasdot hasexp z
    /\ Str.forallb Str.isdigit ip = true /\ ip <> ""
    /\ Str.forallb Str.isdigit fd = true
    /\ (hasdot = false -> fd = "") /\ (hasexp = false -> z = 0)
    /\ int_of_digits (ip ++ fd) = c
    /\ z - Z.of_nat (String.length fd) = e
    /\ Z.of_nat (String.length (ip ++ fd)) <= ndigits c + 6.
Proof.
  pose proof (str_of_N_digits c) as Hd.
  pose proof (str_of_N_not_empty c) as Hne.
  pose proof (int_of_str_of_N c) as Hi.
  pose proof (length_str_of_N c) as Hl.
  unfold Decimal_str. set (int_ := Str.str_of_N c) in *.
  set (len := Z.of_nat (String.length int_)) in *.
  assert (L1 : 1 <= len).
  { subst len. destruct int_; [now elim Hne | cbn [String.length]; lia]. }
  destruct ((e <=? 0) && (-6 <? e + len)) eqn:B1.
  - apply andb_true_iff in B1 as [B1 B2]. apply Z.leb_le in B1. apply Z.ltb_lt in B2.
    rewrite Z.eqb_refl.
    destruct (e + len <=? 0) eqn:B3; [apply Z.leb_le in B3 | apply Z.leb_gt in B3].
    + exists "0", (zeros (Z.to_nat (- (e + len))) ++ int_), true, false, 0.
      split; [unfold number_text; now rewrite append_empty_r|].
      split; [reflexivity|]. split; [discriminate|].
      split; [rewrite forallb_append, zeros_digits, Hd; reflexivity|].
      split; [discriminate|]. split; [reflexivity|].
      split; [cbn [String.append]; unfold int_of_digits; cbn [int_of_digits_acc];
              rewrite int_of_digits_acc_zeros; exact Hi|].
      rewrite !length_append, length_zeros. cbn [String.length].
      fold len. lia.
    + destruct (len <=? e + len) eqn:B4; [apply Z.leb_le in B4 | apply Z.leb_gt in B4].
      * assert (e = 0) by lia. subst e.
        exists int_, "", false, false, 0.
        split.
        { unfold number_text. replace (0 + len - len) with 0 by lia.
          cbn [Z.to_nat zeros]. now rewrite !append_empty_r. }
        split; [exact Hd|]. split; [exact Hne|]. split; [reflexivity|].
        split; [reflexivity|]. split; [reflexivity|].
        split; [now rewrite append_empty_r|].
        rewrite append_empty_r. fold len. cbn [String.length]. lia.
      * exists (str_take (Z.to_nat (e + len)) int_),
               (str_drop (Z.to_nat (e + len)) int_), true, false, 0.
        destruct (forallb_take_drop Str.isdigit (Z.to_nat (e + len)) int_ Hd) as [T D].
        split; [unfold number_text; now rewrite append_empty_r|].
        split; [exact T|].
        split; [apply take_not_empty; [lia | exact Hne]|].
        split; [exact D|]. split; [discriminate|]. split; [reflexivity|].
        split; [now rewrite take_drop|].
        rewrite take_drop, length_drop. fold len. lia.
  - assert (B : 0 < e \/ e + len <= -6).
    { apply andb_false_iff in B1 as [B1|B1];
        [apply Z.leb_gt in B1 | apply Z.ltb_ge in B1]; lia. }
    change (1 <=? 0) with false. cbn iota.
    assert (X : (e + len =? 1) = false) by (apply Z.eqb_neq; lia).
    rewrite X.
    destruct (len <=? 1) eqn:B4; [apply Z.leb_le in B4 | apply Z.leb_gt in B4].
    + exists int_, "", false, true, (e + len - 1).
      split.
      { unfold number_text. replace (1 - len) with 0 by lia.
        cbn [Z.to_nat zeros]. now rewrite !append_empty_r. }
      split; [exact Hd|]. split; [exact Hne|]. split; [reflexivity|].
      split; [reflexivity|]. split; [discriminate|].
      split; [now rewrite append_empty_r|].
      rewrite append_empty_r. fold len. cbn [String.length]. lia.
    + exists (str_take (Z.to_nat 1) int_), (str_drop (Z.to_nat 1) int_),
             true, true, (e + len - 1).
      destruct (forallb_take_drop Str.isdigit (Z.to_nat 1) int_ Hd) as [T D].
      split; [reflexivity|].
      split; [exact T|].
      split; [apply take_not_empty; [lia | exact Hne]|].
      split; [exact D|]. split; [discriminate|]. split; [discriminate|].
      split; [now rewrite take_drop|].
      rewrite take_drop, length_drop. fold len. lia.
Qed.

Lemma numeric_not_space (c : ascii) :
  numeric_char c = true -> Str.isspace c = false.
Proof.
  destruct c as [[] [] [] [] [] [] [] []]; intros H;
    solve [reflexivity | vm_compute in H; discriminate H].
Qed.

Lemma isdigit_numeric (c : ascii) : Str.isdigit c = true -> numeric_char c = true.
Proof. unfold numeric_char. now intros ->. Qed.

Lemma digits_numeric (s : string) :
  Str.forallb Str.isdigit s = true -> Str.forallb numeric_char s = true.
Proof. apply forallb_impl, isdigit_numeric. Qed.

Lemma strip_numeric (s : string) :
  Str.forallb numeric_char s = true -> Str.strip s = s.
Proof.
  intros H. unfold Str.strip.
  assert (R : Str.rstrip s = s).
  { induction s as [|c s IH]; [reflexivity|].
    cbn [Str.forallb] in H. apply andb_true_iff in H as [H1 H2].
    cbn [Str.rstrip]. rewrite (numeric_not_space _ H1), (IH H2). reflexivity. }
  rewrite R. destruct s as [|c s]; [reflexivity|].
  cbn [Str.forallb] in H. apply andb_true_iff in H as [H1 _].
  cbn [Str.lstrip]. now rewrite (numeric_not_space _ H1).
Qed.

Lemma format_signed_numeric (z : Z) :
  Str.forallb numeric_char (format_signed z) = true.
Proof.
  unfold format_signed.
  destruct (z <? 0); cbn [Str.forallb];
    now rewrite (digits_numeric _ (str_of_N_digits _)).
Qed.

Lemma sign_text_numeric (neg : bool) : Str.forallb numeric_char (sign_text neg) = true.
Proof. destruct neg; reflexivity. Qed.

(** [str] writes a decimal with digits, signs, a point and letters only. *)
Lemma Decimal_str_numeric (d : decimal) :
  Str.forallb numeric_char (Decimal_str d) = true.
Proof.
  destruct d as [neg c e|neg|neg g p].
  - destruct (Decimal_str_shape neg c e)
      as (ip & fd & hasdot & hasexp & z & -> & Hip & _ & Hfd & _).
    unfold number_text.
    rewrite !forallb_append, sign_text_numeric, (digits_numeric _ Hip).
    cbn [andb]. apply andb_true_iff. split.
    + destruct hasdot; [|reflexivity].
      cbn [String.append Str.forallb]. now rewrite (digits_numeric _ Hfd).
    + destruct hasexp; [|reflexivity].
      cbn [String.append Str.forallb]. now rewrite format_signed_numeric.
  - destruct neg; reflexivity.
  - cbn [Decimal_str]. rewrite !forallb_append, sign_text_numeric.
    cbn [andb]. apply andb_true_iff. split; [destruct g; reflexivity|].
    destruct (p =? 0)%N; [reflexivity | apply digits_numeric, str_of_N_digits].
Qed.

Lemma Decimal_str_not_empty (d : decimal) : Decimal_str d <> "".
Proof.
  destruct d as [neg c e|neg|neg g p].
  - destruct (Decimal_str_shape neg c e)
      as (ip & fd & hasdot & hasexp & z & -> & _ & Hne & _).
    unfold number_text. destruct neg, ip; try discriminate; now elim Hne.
  - destruct neg; discriminate.
  - destruct neg, g; discriminate.
Qed.

Lemma parse_special_nan (neg g : bool) (ds : string) :
  Str.forallb Str.isdigit ds = true ->
  parse_special neg ((if g then "sNaN" else "NaN") ++ ds)
  = Some (NaN neg g (int_of_digits ds)).
Proof.
  intros H. unfold parse_special.
  assert (L : lower_str ((if g then "sNaN" else "NaN") ++ ds)
              = (if g then "snan" else "nan") ++ ds).
  { destruct g; cbn [lower_str String.append]; now rewrite (lower_str_digits _ H). }
  rewrite L. unfold parse_diag.
  destruct g.
  - change (("snan" ++ ds =? "inf")%string) with false.
    change (("snan" ++ ds =? "infinity")%string) with false.
    change (drop_prefix "nan" ("snan" ++ ds)) with (@None string).
    change (drop_prefix "snan" ("snan" ++ ds)) with (Some ds).
    cbn [orb]. now rewrite H.
  - change (("nan" ++ ds =? "inf")%string) with false.
    change (("nan" ++ ds =? "infinity")%string) with false.
    change (drop_prefix "nan" ("nan" ++ ds)) with (Some ds).
    cbn [orb]. now rewrite H.
Qed.

(** [Decimal(str(d)) == d], with the sign, the digits and the exponent of
    [d]. *)
Lemma Decimal_of_str (d : decimal) :
  representable d = true -> Decimal (Decimal_str d) = Ok d.
Proof.
  intros Hr.
  pose proof (Decimal_str_numeric d) as Hn.
  unfold Decimal.
  rewrite (strip_numeric _ Hn).
  rewrite (replace_not_mem "_" "" _ (mem_forallb numeric_char "_" _ Hn eq_refl)).
  destruct d as [neg c e|neg|neg g p].
  - destruct (Decimal_str_shape neg c e)
      as (ip & fd & hasdot & hasexp & z & -> & Hip & Hne & Hfd & Hdot & Hexp & Hc & He & _).
    pose proof (parse_number_render neg ip fd hasdot hasexp z Hip Hne Hfd Hdot Hexp) as Hp.
    rewrite Hc, He in Hp.
    assert (Hb : exists c0 r0, number_text ip fd hasdot hasexp z = String c0 r0
                               /\ Str.isdigit c0 = true).
    { destruct ip as [|c0 r0]; [now elim Hne|].
      cbn [Str.forallb] in Hip. apply andb_true_iff in Hip as [H0 _].
      eexists _, _. split; [reflexivity | exact H0]. }
    destruct Hb as (c0 & r0 & Eb & H0).
    rewrite Eb in Hp |- *.
    rewrite split_sign_text by (apply isdigit_neq; [exact H0 | reflexivity]).
    rewrite (parse_special_digit neg c0 r0 H0), Hp, Hr. reflexivity.
  - destruct neg; reflexivity.
  - cbn [Decimal_str].
    assert (Hs : split_sign (sign_text neg ++ (if g then "sNaN" else "NaN")
                               ++ (if (p =? 0)%N then "" else Str.str_of_N p))
                 = (neg, (if g then "sNaN" else "NaN")
                           ++ (if (p =? 0)%N then "" else Str.str_of_N p))).
    { destruct g; apply split_sign_text; reflexivity. }
    rewrite Hs, parse_special_nan.
    + destruct (p =? 0)%N eqn:E.
      * apply N.eqb_eq in E. now subst p.
      * now rewrite int_of_str_of_N.
    + destruct (p =? 0)%N; [reflexivity | apply str_of_N_digits].
Qed.

Lemma parse_amount_of_str (d : decimal) :
  representable d = true -> parse_amount (PyOther (Decimal_str d)) = Ok (Some d).
Proof.
  intros Hr. apply parse_amount_of_valid; [reflexivity | reflexivity |].
  pose proof (Decimal_str_numeric d) as Hn.
  cbn [str]. rewrite (strip_numeric _ Hn).
  rewrite (replace_not_mem " " "" _ (mem_forallb numeric_char " " _ Hn eq_refl)).
  now apply Decimal_of_str.
Qed.
(** ** The float of the text of a decimal *)

Lemma numeric_not_float_space (c : ascii) :
  numeric_char c = true -> float_isspace c = false.
Proof.
  intros H. unfold float_isspace. now rewrite (numeric_not_space _ H).
Qed.

Lemma float_strip_numeric (s : string) :
  Str.forallb numeric_char s = true ->
  lstrip_by float_isspace (rstrip_by float_isspace s) = s.
Proof.
  intros H.
  assert (R : rstrip_by float_isspace s = s).
  { induction s as [|c s IH]; [reflexivity|].
    cbn [Str.forallb] in H. apply andb_true_iff in H as [H1 H2].
    cbn [rstrip_by]. rewrite (numeric_not_float_space _ H1), (IH H2). reflexivity. }
  rewrite R. destruct s as [|c s]; [reflexivity|].
  cbn [Str.forallb] in H. apply andb_true_iff in H as [H1 _].
  cbn [lstrip_by]. now rewrite (numeric_not_float_space _ H1).
Qed.

Lemma length_lstrip_by (p : ascii -> bool) (s : string) :
  (String.length (lstrip_by p s) <= String.length s)%nat.
Proof.
  induction s as [|c s IH]; simpl; [lia|].
  destruct (p c); simpl; lia.
Qed.

Lemma strtod_exponent_render (hasexp : bool) (z : Z) :
  (hasexp = false -> z = 0) -> Z.abs z < 10 ^ 9 ->
  strtod_exponent (if hasexp then "E" ++ format_signed z else "") = (z, "").
Proof.
  intros H Hz. destruct hasexp; [|now rewrite H].
  cbn [String.append strtod_exponent].
  change (Ascii.eqb (lower "E") "e") with true. cbn iota.
  rewrite split_sign_format_signed.
  pose proof (span_append Str.isdigit (Str.str_of_N (Z.abs_N z)) ""
                (str_of_N_digits _) I) as Hs.
  rewrite append_empty_r in Hs. rewrite Hs.
  rewrite (proj2 (is_empty_false _) (str_of_N_not_empty _)).
  rewrite int_of_str_of_N.
  assert (L : (9 <? Z.of_nat (String.length
                 (lstrip_by (fun d => Ascii.eqb d "0") (Str.str_of_N (Z.abs_N z))))) = false).
  { apply Z.ltb_ge.
    pose proof (length_lstrip_by (fun d => Ascii.eqb d "0") (Str.str_of_N (Z.abs_N z))).
    pose proof (length_str_of_N (Z.abs_N z)).
    assert (ndigits (Z.abs_N z) <= 9).
    { apply ndigits_le; [lia|].
      change (10 ^ Z.to_N 9)%N with (Z.to_N (10 ^ 9)). lia. }
    lia. }
  rewrite L.
  assert (M : (MAX_ABS_EXP <? Z.of_N (Z.abs_N z)) = false).
  { apply Z.ltb_ge. unfold MAX_ABS_EXP. change (10 ^ 9) with 1000000000 in Hz. lia. }
  rewrite M. cbn [orb].
  f_equal. destruct (z <? 0) eqn:E; [apply Z.ltb_lt in E | apply Z.ltb_ge in E]; lia.
Qed.

(** [float] reads a text of the shape of [number_text] as [Decimal]
    does. *)
Lemma strtod_render (neg : bool) (ip fd : string) (hasdot hasexp : bool) (z : Z) :
  Str.forallb Str.isdigit ip = true -> ip <> "" ->
  Str.forallb Str.isdigit fd = true ->
  (hasdot = false -> fd = "") -> (hasexp = false -> z = 0) ->
  Z.abs z < 10 ^ 9 -> Z.of_nat (String.length (ip ++ fd)) <= MAX_DIGITS ->
  strtod (sign_text neg ++ number_text ip fd hasdot hasexp z)
  = Some (float_of_digits neg (int_of_digits (ip ++ fd))
                          (z - Z.of_nat (String.length fd)), "").
Proof.
  intros Hip Hne Hfd Hdot Hexp Hz Hlen. unfold strtod.
  assert (Hb : exists c0 r0, number_text ip fd hasdot hasexp z = String c0 r0
                             /\ Str.isdigit c0 = true).
  { destruct ip as [|c0 r0]; [now elim Hne|].
    cbn [Str.forallb] in Hip. apply andb_true_iff in Hip as [H0 _].
    eexists _, _. split; [reflexivity | exact H0]. }
  destruct Hb as (c0 & r0 & Eb & H0).
  rewrite Eb, split_sign_text by (apply isdigit_neq; [exact H0 | reflexivity]).
  rewrite <- Eb. unfold number_text.
  pose proof (exponent_head hasexp z) as Hh.
  pose proof (strtod_exponent_render hasexp z Hexp Hz) as Hp.
  set (ex := if hasexp then "E" ++ format_signed z else "") in *.
  assert (Hsig : (MAX_DIGITS <? Z.of_nat (String.length
                    (lstrip_by (fun d => Ascii.eqb d "0") (ip ++ fd)))) = false).
  { apply Z.ltb_ge.
    pose proof (length_lstrip_by (fun d => Ascii.eqb d "0") (ip ++ fd)). lia. }
  assert (Hfrac : (MAX_DIGITS <? Z.of_nat (String.length fd)) = false).
  { apply Z.ltb_ge. rewrite length_append in Hlen. lia. }
  destruct hasdot.
  - cbn [String.append].
    rewrite (span_append Str.isdigit ip (String "." (fd ++ ex)) Hip) by reflexivity.
    change (Ascii.eqb "." ".") with true. cbn iota.
    rewrite (span_append Str.isdigit fd ex Hfd).
    2:{ destruct ex; [exact I | apply Hh]. }
    rewrite (proj2 (is_empty_false _) Hne). cbn [andb].
    now rewrite Hsig, Hfrac, Hp.
  - rewrite (Hdot eq_refl) in *. cbn [String.append].
    rewrite (span_append Str.isdigit ip ex Hip).
    2:{ destruct ex; [exact I | apply Hh]. }
    rewrite (proj2 (is_empty_false _) Hne). cbn [andb].
    destruct ex as [|c ex'] eqn:Eex.
    + rewrite Hsig, Hp. reflexivity.
    + destruct Hh as [_ Hh]. rewrite Hh, Hsig, Hp. reflexivity.
Qed.

Lemma python_float_numeric (t : string) :
  Str.forallb numeric_char t = true -> t <> "" ->
  python_float t = match strtod t with
                   | Some (x, EmptyString) => Some x
                   | _ => None
                   end.
Proof.
  intros Hn Hne. unfold python_float.
  rewrite (float_strip_numeric _ Hn).
  rewrite (proj2 (is_empty_false _) Hne).
  now rewrite (mem_forallb numeric_char "_" _ Hn eq_refl).
Qed.

(** The float of the text of a number is the float nearest to it. *)
Lemma python_float_of_number (d : decimal) :
  is_number d = true -> python_float (Decimal_str d) = Some (float_of_decimal d).
Proof.
  intros Hd.
  rewrite (python_float_numeric _ (Decimal_str_numeric d) (Decimal_str_not_empty d)).
  destruct d as [neg c e|neg|neg g p]; [|destruct neg; reflexivity|discriminate].
  cbn [is_number] in Hd.
  apply andb_true_iff in Hd as [Hd H3]. apply andb_true_iff in Hd as [H1 H2].
  apply Z.leb_le in H1, H2, H3.
  pose proof (ndigits_fuel_pos (N.size_nat c) c) as N1. fold (ndigits c) in N1.
  unfold prec in H1. unfold Etiny, Emin, prec in H2. unfold Emax in H3.
  destruct (Decimal_str_shape neg c e)
    as (ip & fd & hasdot & hasexp & z & -> & Hip & Hne & Hfd & Hdot & Hexp & Hc & He & Hl).
  assert (Hz : Z.abs z < 10 ^ 9).
  { change (10 ^ 9) with 1000000000. rewrite length_append in Hl. lia. }
  rewrite (strtod_render neg ip fd hasdot hasexp z Hip Hne Hfd Hdot Hexp Hz).
  - cbn [float_of_decimal]. now rewrite Hc, He.
  - unfold MAX_DIGITS. lia.
Qed.

(** The text of a NaN is a float only for the plain quiet NaN: [float]
    knows neither signaling NaNs nor diagnostic digits. *)
Lemma python_float_of_nan (neg g : bool) (p : N) :
  python_float (Decimal_str (NaN neg g p))
  = if negb g && (p =? 0)%N then Some SpecFloat.S754_nan else None.
Proof.
  rewrite (python_float_numeric _ (Decimal_str_numeric _) (Decimal_str_not_empty _)).
  cbn [Decimal_str].
  destruct g; cbn [negb andb].
  - destruct neg; reflexivity.
  - destruct (p =? 0)%N eqn:E; [destruct neg; reflexivity|].
    pose proof (str_of_N_not_empty p) as Hne.
    destruct (Str.str_of_N p) as [|c r]; [now elim Hne|].
    destruct neg; reflexivity.
Qed.
(** ** What the arithmetic of the context returns *)

Lemma round_half_even_bound (c : N) (k p : Z) :
  0 <= k -> 0 <= p -> (c < 10 ^ Z.to_N (k + p))%N ->
  (round_half_even c k <= 10 ^ Z.to_N p)%N.
Proof.
  intros Hk Hp Hc. unfold round_half_even.
  rewrite Z2N.inj_add, N.pow_add_r in Hc by lia.
  assert (Hq : (c / 10 ^ Z.to_N k < 10 ^ Z.to_N p)%N).
  { apply N.Div0.div_lt_upper_bound. exact Hc. }
  destruct (2 * (c mod 10 ^ Z.to_N k) ?= 10 ^ Z.to_N k)%N;
    [destruct (N.even (c / 10 ^ Z.to_N k))| |]; lia.
Qed.

Lemma is_number_zero (s : bool) (e : Z) :
  Etiny <= e <= Emax -> is_number (Fin s 0 e) = true.
Proof.
  intros H. cbn [is_number]. change (ndigits 0 <=? prec) with true.
  cbn [andb]. apply andb_true_iff. split; apply Z.leb_le; lia.
Qed.

(** A result the context has rounded has no more than [prec] digits and
    an exponent in range. *)
Lemma fix_number (s : bool) (c : N) (e : Z) (d : decimal) :
  fix_ s c e = Ok d -> is_number d = true.
Proof.
  unfold fix_.
  destruct (c =? 0)%N eqn:Ec.
  { intros H. injection H as <-. apply is_number_zero.
    unfold Etiny, Emin, Emax, prec. lia. }
  apply N.eqb_neq in Ec.
  assert (Hc : (0 < c)%N) by lia.
  destruct (ndigits_spec c Hc) as [Nl Nu].
  pose proof (ndigits_fuel_pos (N.size_nat c) c) as N1. fold (ndigits c) in N1.
  destruct (Etop <? ndigits c + e - prec) eqn:E1; [discriminate|].
  apply Z.ltb_ge in E1.
  set (exp_min := Z.max (ndigits c + e - prec) Etiny).
  assert (Hmin : Etiny <= exp_min <= Etop).
  { subst exp_min. unfold Etiny, Etop, Emin, Emax, prec in *. lia. }
  destruct (e <? exp_min) eqn:E2.
  - apply Z.ltb_lt in E2.
    assert (Hq : (round_half_even c (exp_min - e) <= 10 ^ Z.to_N prec)%N).
    { apply round_half_even_bound; [lia | unfold prec; lia|].
      eapply N.lt_le_trans; [exact Nu|].
      apply N.pow_le_mono_r; [lia|]. subst exp_min. unfold prec. lia. }
    destruct (prec <? ndigits (round_half_even c (exp_min - e))) eqn:E3.
    + destruct (Etop <? exp_min + 1) eqn:E4; [discriminate|].
      apply Z.ltb_ge in E4. intros H. injection H as <-.
      cbn [is_number]. apply andb_true_iff. split; [apply andb_true_iff; split|];
        apply Z.leb_le; [|lia | unfold Etop, Emax, prec in *; lia].
      apply ndigits_le; [unfold prec; lia|].
      apply N.Div0.div_lt_upper_bound.
      change (10 ^ Z.to_N prec)%N with 10000000000000000000000000000%N in *.
      lia.
    + destruct (Etop <? exp_min) eqn:E4; [discriminate|].
      apply Z.ltb_ge in E3. intros H. injection H as <-.
      cbn [is_number]. apply andb_true_iff. split; [apply andb_true_iff; split|];
        apply Z.leb_le; [exact E3 | lia | unfold Etop, Emax, prec in *; lia].
  - apply Z.ltb_ge in E2. intros H. injection H as <-.
    cbn [is_number]. apply andb_true_iff. split; [apply andb_true_iff; split|];
      apply Z.leb_le; subst exp_min; unfold Etop, Emax, prec in *; lia.
Qed.


Lemma is_number_not_nan (d : decimal) : is_number d = true -> is_nan d = false.
Proof. destruct d; [reflexivity | reflexivity | discriminate]. Qed.

(** A sum is a number or a quiet NaN, never a signaling NaN. *)
Lemma dec_add_context (a b d : decimal) :
  dec_add a b = Ok d -> is_number d = true \/ decimal_isna d = true.
Proof.
  unfold dec_add.
  destruct a as [s1 c1 e1|s1|s1 [] p1], b as [s2 c2 e2|s2|s2 [] p2];
    cbn [check_nans]; intros H; try discriminate H;
    try (injection H as <-; now right);
    try (injection H as <-; now left).
  - left. cbn [exact_add] in H. now apply fix_number in H.
  - destruct (Bool.eqb s1 s2); [injection H as <-; now left | discriminate H].
Qed.

Lemma dec_add_number (a b d : decimal) :
  is_nan a = false -> is_nan b = false -> dec_add a b = Ok d -> is_number d = true.
Proof.
  intros Ha Hb H. destruct (dec_add_context a b d H) as [N|N]; [exact N|].
  exfalso. unfold dec_add in H.
  destruct a as [s1 c1 e1|s1|s1 g1 p1], b as [s2 c2 e2|s2|s2 g2 p2];
    try discriminate Ha; try discriminate Hb; cbn [check_nans] in H.
  - cbn [exact_add] in H. apply fix_number in H. destruct d; discriminate.
  - injection H as <-. discriminate.
  - injection H as <-. discriminate.
  - destruct (Bool.eqb s1 s2); [injection H as <-; discriminate | discriminate].
Qed.

Lemma is_nan_copy_negate (d : decimal) : is_nan (copy_negate d) = is_nan d.
Proof. now destruct d. Qed.

Lemma dec_sub_number (a b d : decimal) :
  is_nan a = false -> is_nan b = false -> dec_sub a b = Ok d -> is_number d = true.
Proof.
  intros Ha Hb. unfold dec_sub.
  destruct (check_nans a b) eqn:E.
  - destruct a, b; try discriminate Ha; try discriminate Hb; discriminate E.
  - apply dec_add_number; [exact Ha | now rewrite is_nan_copy_negate].
Qed.

(** A quiet NaN among the terms of a sum makes the sum a quiet NaN. *)
Lemma dec_add_nan (a b d : decimal) :
  dec_add a b = Ok d ->
  decimal_isna a = true \/ decimal_isna b = true -> decimal_isna d = true.
Proof.
  unfold dec_add. intros H [N|N].
  - destruct a as [| |s1 [] p1]; try discriminate N.
    destruct b as [| |s2 [] p2]; cbn [check_nans] in H;
      solve [discriminate H | injection H as <-; reflexivity].
  - destruct b as [| |s2 [] p2]; try discriminate N.
    destruct a as [| |s1 [] p1]; cbn [check_nans] in H;
      solve [discriminate H | injection H as <-; reflexivity].
Qed.

Lemma py_sum_context (values : list decimal) (start d : decimal) :
  is_number start = true \/ decimal_isna start = true ->
  py_sum values start = Ok d -> is_number d = true \/ decimal_isna d = true.
Proof.
  revert start. induction values as [|v values IH]; intros start Hs; cbn [py_sum].
  - intros H. now injection H as <-.
  - destruct (dec_add start v) as [s|e] eqn:E; cbn [bind]; [|discriminate].
    apply IH. now apply dec_add_context in E.
Qed.

Lemma py_sum_number (values : list decimal) (start d : decimal) :
  is_number start = true -> Forall (fun v => is_nan v = false) values ->
  py_sum values start = Ok d -> is_number d = true.
Proof.
  revert start. induction values as [|v values IH]; intros start Hs Hv; cbn [py_sum].
  - intros H. now injection H as <-.
  - inversion Hv as [|? ? Hv1 Hv2]; subst.
    destruct (dec_add start v) as [s|e] eqn:E; cbn [bind]; [|discriminate].
    apply IH; [|exact Hv2].
    eapply dec_add_number; [apply is_number_not_nan, Hs | exact Hv1 | exact E].
Qed.

Lemma py_sum_nan (values : list decimal) (start d : decimal) :
  py_sum values start = Ok d ->
  decimal_isna start = true \/ (exists v, In v values /\ decimal_isna v = true) ->
  decimal_isna d = true.
Proof.
  revert start. induction values as [|v values IH]; intros start; cbn [py_sum].
  - intros H [N|(v & [] & _)]. now injection H as <-.
  - destruct (dec_add start v) as [s|e] eqn:E; cbn [bind]; [|discriminate].
    intros H N. apply (IH s H).
    destruct N as [N|(w & [->|Hin] & N)].
    + left. apply (dec_add_nan _ _ _ E). now left.
    + left. apply (dec_add_nan _ _ _ E). now right.
    + right. now exists w.
Qed.

Lemma fillna_0_number (v : option decimal) :
  match v with
  | Some d => is_number d = true \/ decimal_isna d = true
  | None => True
  end ->
  is_number (fillna_0 v) = true.
Proof.
  destruct v as [d|]; [|reflexivity]. cbn [fillna_0].
  intros [N|N]; [|now rewrite N].
  destruct (decimal_isna d); [reflexivity | exact N].
Qed.

(** The totals of an aggregated table are numbers or quiet NaNs. *)
Lemma aggregate_context (out : list kept) (agg : list total) (t : total) :
  aggregate out = Ok agg -> In t agg ->
  is_number (t_amount t) = true \/ decimal_isna (t_amount t) = true.
Proof.
  intros H Hin. destruct (aggregate_rows _ _ H) as [_ Hrows].
  destruct (Hrows t Hin) as [Hsum _].
  apply (py_sum_context _ Decimal_0 _ (or_introl eq_refl) Hsum).
Qed.

(** In what [compare] returns every amount, every delta and every total
    of the summary is a number. *)
Lemma compare_numbers (f1 f2 : string) (file1 : list row1) (file2 : list row2)
      (detail : list detail_row) (summary : list summary_row) :
  compare f1 f2 file1 file2 = Ok (detail, summary) ->
  (forall row, In row detail ->
     is_number (amount_1 row) = true /\ is_number (amount_2 row) = true
     /\ is_number (delta row) = true)
  /\ (forall s, In s summary ->
        is_number (s_total_amount_1 s) = true /\ is_number (s_total_amount_2 s) = true
        /\ is_number (s_total_delta s) = true).
Proof.
  intros Hc.
  destruct (compare_inv _ _ _ _ _ _ Hc)
    as (left & right & wd & ws & Hl & Hr & _ & _ & _ & Hsum).
  assert (Hrows : forall row, In row detail ->
     is_number (amount_1 row) = true /\ is_number (amount_2 row) = true
     /\ is_number (delta row) = true).
  { intros row Hin.
    destruct (report_row _ _ _ _ _ _ _ _ Hl Hr Hc row Hin)
      as (m & Hm & _ & _ & _ & A1 & A2 & Hd & _).
    destruct (merge_outer_sides _ _ _ Hm) as [S1 S2].
    assert (N1 : is_number (amount_1 row) = true).
    { rewrite A1. apply fillna_0_number.
      destruct (m_side_1 m) as [l|]; [|exact I]. cbn [option_map].
      rewrite prepare_file1_kept in Hl.
      apply (aggregate_context _ _ _ Hl (proj1 S1)). }
    assert (N2 : is_number (amount_2 row) = true).
    { rewrite A2. apply fillna_0_number.
      destruct (m_side_2 m) as [r|]; [|exact I]. cbn [option_map].
      rewrite prepare_file2_kept in Hr.
      apply (aggregate_context _ _ _ Hr (proj1 S2)). }
    split; [exact N1|]. split; [exact N2|].
    eapply dec_sub_number; [apply is_number_not_nan, N1 | apply is_number_not_nan, N2 | exact Hd]. }
  split; [exact Hrows|].
  intros s Hs.
  destruct (summarize_rows _ _ Hsum) as (pre & Hpre & ->).
  apply sort_values_In in Hs.
  destruct (Forall2_In_r _ _ _ _ Hpre Hs) as (k & _ & _ & _ & T1 & T2 & T3).
  assert (G : forall (f : detail_row -> decimal),
            (forall row, In row detail -> is_number (f row) = true) ->
            Forall (fun v => is_nan v = false) (map f (status_group detail k))).
  { intros f Hf. apply Forall_forall. intros v Hv.
    apply in_map_iff in Hv as (row & <- & Hrow).
    apply filter_In in Hrow as [Hrow _].
    apply is_number_not_nan, Hf, Hrow. }
  split; [|split].
  - apply (py_sum_number _ Decimal_0 _ eq_refl (G amount_1 (fun r H => proj1 (Hrows r H))) T1).
  - apply (py_sum_number _ Decimal_0 _ eq_refl
             (G amount_2 (fun r H => proj1 (proj2 (Hrows r H)))) T2).
  - apply (py_sum_number _ Decimal_0 _ eq_refl
             (G delta (fun r H => proj2 (proj2 (Hrows r H)))) T3).
Qed.
(** ** The frames of the written report *)

Lemma mapM_map {A B C : Type} (g : A -> B) (f : B -> result C) (l : list A) :
  mapM f (map g l) = mapM (fun x => f (g x)) l.
Proof.
  induction l as [|x l IH]; cbn [map mapM]; [reflexivity | now rewrite IH].
Qed.

(** A traversal whose steps raise nothing but [e] raises it exactly when
    some step does. *)
Lemma mapM_raises {A B : Type} (f : A -> result B) (e : exn) (l : list A) :
  (forall x, In x l -> (exists y, f x = Ok y) \/ f x = Raise e) ->
  (mapM f l = Raise e <-> exists x, In x l /\ f x = Raise e)
  /\ (forall e', mapM f l = Raise e' -> e' = e).
Proof.
  induction l as [|x l IH]; intros H; cbn [mapM].
  - split; [split; [discriminate | intros (x & [] & _)] | discriminate].
  - destruct IH as [IH1 IH2]; [intros z Hz; apply H; now right|].
    destruct (H x (or_introl eq_refl)) as [(y & E)|E]; rewrite E; cbn [bind].
    + destruct (mapM f l) as [ys|e0] eqn:M; cbn [bind].
      * split; [split; [discriminate|] | discriminate].
        intros (z & [<-|Hz] & Ez); [congruence|].
        assert (N : @Ok (list B) ys = Raise e) by (apply IH1; now exists z).
        discriminate N.
      * rewrite (IH2 e0 eq_refl) in *. split; [|now intros e' [= <-]].
        split; [intros _ | reflexivity].
        destruct (proj1 IH1 eq_refl) as (z & Hz & Ez).
        exists z. split; [now right | exact Ez].
    + split; [|now intros e' [= <-]].
      split; [intros _ | reflexivity]. exists x. split; [now left | exact E].
Qed.

(** The first pass of the conversion signals on a signaling NaN and on
    nothing else. *)
Lemma astype_str_column (column : list decimal) :
  (mapM astype_str_decimal column = Raise InvalidOperation <->
   exists neg p, In (NaN neg true p) column)
  /\ ((forall neg p, ~ In (NaN neg true p) column) ->
      mapM astype_str_decimal column = Ok (map Decimal_str column)).
Proof.
  split.
  - destruct (mapM_raises astype_str_decimal InvalidOperation column) as [R _].
    { intros d _. destruct d as [s c e|s|s [|] p]; cbn [astype_str_decimal];
        [left | left | right | left]; try (now eexists); reflexivity. }
    rewrite R. split.
    + intros (d & Hd & E). destruct d as [s c e|s|s [|] p]; try discriminate E.
      now exists s, p.
    + intros (neg & p & Hd). now exists (NaN neg true p).
  - intros H. apply mapM_pure. intros d Hd.
    destruct d as [s c e|s|s [|] p]; try reflexivity.
    now elim (H s p).
Qed.

Lemma to_numeric_column_quiet (column : list decimal) :
  (forall neg p, ~ In (NaN neg true p) column) ->
  to_numeric_column column = mapM (fun d => astype_float (Decimal_str d)) column.
Proof.
  intros H. unfold to_numeric_column.
  rewrite (proj2 (astype_str_column column) H). cbn [bind]. apply mapM_map.
Qed.

Lemma to_numeric_column_numbers (column : list decimal) :
  (forall d, In d column -> is_number d = true) ->
  to_numeric_column column = Ok (map float_of_decimal column).
Proof.
  intros H. rewrite to_numeric_column_quiet.
  - apply mapM_pure. intros d Hd. unfold astype_float.
    now rewrite (python_float_of_number d (H d Hd)).
  - intros neg p Hd. apply H in Hd. discriminate Hd.
Qed.

Lemma combine3_map {A B C D E : Type} (g1 : A -> B) (g2 : A -> C) (g3 : A -> D)
      (F : A * B * C * D -> E) (l : list A) :
  map F (combine (combine (combine l (map g1 l)) (map g2 l)) (map g3 l))
  = map (fun x => F (x, g1 x, g2 x, g3 x)) l.
Proof. induction l as [|x l IH]; cbn [map combine]; [reflexivity | now rewrite IH]. Qed.

Lemma detail_out_numbers (detail : list detail_row) :
  (forall row, In row detail ->
     is_number (amount_1 row) = true /\ is_number (amount_2 row) = true
     /\ is_number (delta row) = true) ->
  detail_out detail
  = Ok (map (fun row =>
               Build_detail_out_row (company_id row) (company_name_1 row)
                 (company_name_2 row) (float_of_decimal (amount_1 row))
                 (float_of_decimal (amount_2 row)) (float_of_decimal (delta row))
                 (status row)) detail).
Proof.
  intros H. unfold detail_out.
  rewrite !to_numeric_column_numbers.
  - cbn [bind]. rewrite !map_map. now rewrite combine3_map.
  - intros d Hd. apply in_map_iff in Hd as (row & <- & Hr). apply (H row Hr).
  - intros d Hd. apply in_map_iff in Hd as (row & <- & Hr). apply (H row Hr).
  - intros d Hd. apply in_map_iff in Hd as (row & <- & Hr). apply (H row Hr).
Qed.

Lemma summary_out_numbers (summary : list summary_row) :
  (forall s, In s summary ->
     is_number (s_total_amount_1 s) = true /\ is_number (s_total_amount_2 s) = true
     /\ is_number (s_total_delta s) = true) ->
  summary_out summary
  = Ok (map (fun s =>
               Build_summary_out_row (s_status s) (s_rows s)
                 (float_of_decimal (s_total_amount_1 s))
                 (float_of_decimal (s_total_amount_2 s))
                 (float_of_decimal (s_total_delta s))) summary).
Proof.
  intros H. unfold summary_out.
  rewrite !to_numeric_column_numbers.
  - cbn [bind]. rewrite !map_map. now rewrite combine3_map.
  - intros d Hd. apply in_map_iff in Hd as (row & <- & Hr). apply (H row Hr).
  - intros d Hd. apply in_map_iff in Hd as (row & <- & Hr). apply (H row Hr).
  - intros d Hd. apply in_map_iff in Hd as (row & <- & Hr). apply (H row Hr).
Qed.

(** ** The counts of a run *)

Lemma run_compare_inv (f1 f2 : string) (file1 : list row1) (file2 : list row2)
      (st : stats) :
  run_compare f1 f2 file1 file2 = Ok st ->
  exists detail summary,
    compare f1 f2 file1 file2 = Ok (detail, summary)
    /\ st = Build_stats (List.length detail) (count_status detail "MISMATCH")
                        (count_status detail ("only_file_" ++ f1))
                        (count_status detail ("only_file_" ++ f2)).
Proof.
  unfold run_compare.
  destruct (compare f1 f2 file1 file2) as [[detail summary]|e]; cbn [bind fst];
    [|discriminate].
  intros H. injection H as <-. now exists detail, summary.
Qed.

Lemma only_file_inj (f g : string) :
  "only_file_" ++ f = "only_file_" ++ g -> f = g.
Proof. cbn [String.append]. intros H. now injection H. Qed.





Section Counts.

Variables (f1 f2 : string) (file1 : list row1) (file2 : list row2).
Variables (left right : list total).
Variables (detail : list detail_row) (summary : list summary_row).
Hypothesis prepared_1 : prepare_file1 file1 = Ok left.
Hypothesis prepared_2 : prepare_file2 file2 = Ok right.
Hypothesis compared : compare f1 f2 file1 file2 = Ok (detail, summary).

(** The status of a row tells where its identifier is. *)
Lemma report_status_sources (row : detail_row) :
  In row detail ->
  (In (company_id row) (map t_company_id left)
   /\ In (company_id row) (map t_company_id right)
   /\ (status row = "MATCH" \/ status row = "MISMATCH"))
  \/ (In (company_id row) (map t_company_id left)
      /\ ~ In (company_id row) (map t_company_id right)
      /\ status row = "only_file_" ++ f1)
  \/ (~ In (company_id row) (map t_company_id left)
      /\ In (company_id row) (map t_company_id right)
      /\ status row = "only_file_" ++ f2).
Proof.
  intros Hin.
  destruct (report_side_1 _ _ _ _ _ _ _ _ prepared_1 prepared_2 compared row Hin)
    as (_ & _ & N1).
  destruct (report_side_2 _ _ _ _ _ _ _ _ prepared_1 prepared_2 compared row Hin)
    as (_ & _ & N2).
  pose proof (report_status _ _ _ _ _ _ _ _ prepared_1 prepared_2 compared row Hin) as S.
  destruct (company_name_1 row) as [n1|], (company_name_2 row) as [n2|].
  - left. split; [apply N1; discriminate|]. split; [apply N2; discriminate|].
    destruct S as ([] & _ & ->); auto.
  - right. left. split; [apply N1; discriminate|].
    split; [|exact S]. intros H. now apply N2 in H.
  - right. right. split; [|split; [apply N2; discriminate | exact S]].
    intros H. now apply N1 in H.
  - destruct S.
Qed.

Lemma report_status_label (row : detail_row) :
  In row detail ->
  In (status row) ["MATCH"; "MISMATCH"; "only_file_" ++ f1; "only_file_" ++ f2].
Proof.
  intros Hin. cbn [In].
  destruct (report_status_sources row Hin) as [(_ & _ & [S|S])|[(_ & _ & S)|(_ & _ & S)]];
    rewrite S; auto.
Qed.

Lemma labels_NoDup :
  f1 <> f2 ->
  NoDup ["MATCH"; "MISMATCH"; "only_file_" ++ f1; "only_file_" ++ f2].
Proof.
  intros Hf.
  destruct (only_file_label f1) as [A1 B1], (only_file_label f2) as [A2 B2].
  repeat constructor; cbn [In]; intros H;
    repeat (destruct H as [H|H]; [try discriminate H; try congruence|]);
    try exact H.
  apply Hf. symmetry. now apply only_file_inj.
Qed.

(** Every row is counted under one status. *)
Lemma count_partition :
  f1 <> f2 ->
  List.length detail
  = (count_status detail "MATCH" + count_status detail "MISMATCH"
     + count_status detail ("only_file_" ++ f1)
     + count_status detail ("only_file_" ++ f2))%nat.
Proof.
  intros Hf.
  rewrite <- (group_sizes status _ detail (labels_NoDup Hf) report_status_label).
  unfold count_status, list_sum. cbn [map fold_right]. lia.
Qed.

Lemma count_partition_same :
  f1 = f2 ->
  List.length detail
  = (count_status detail "MATCH" + count_status detail "MISMATCH"
     + count_status detail ("only_file_" ++ f1))%nat.
Proof.
  intros Hf.
  assert (Hn : NoDup ["MATCH"; "MISMATCH"; "only_file_" ++ f1]).
  { destruct (only_file_label f1) as [A1 B1].
    repeat constructor; cbn [In]; intros H;
      repeat (destruct H as [H|H]; [try discriminate H; try congruence|]);
      exact H. }
  assert (Hin : forall row, In row detail ->
                  In (status row) ["MATCH"; "MISMATCH"; "only_file_" ++ f1]).
  { intros row Hr. pose proof (report_status_label row Hr) as H.
    rewrite <- Hf in H. cbn [In] in H |- *. tauto. }
  rewrite <- (group_sizes status _ detail Hn Hin).
  unfold count_status, list_sum. cbn [map fold_right]. lia.
Qed.




End Counts.
(** ** More on the parsers *)

Lemma strip_cons (c : ascii) (s : string) :
  Str.isspace c = false -> Str.strip (String c s) = String c (Str.rstrip s).
Proof.
  intros H. unfold Str.strip. cbn [Str.rstrip]. rewrite H. cbn [andb Str.lstrip].
  now rewrite H.
Qed.

Lemma rstrip_digits_append (d r : string) :
  Str.forallb Str.isdigit d = true ->
  Str.rstrip (d ++ r) = d ++ Str.rstrip r.
Proof.
  intros Hd. induction d as [|c d IH]; [reflexivity|].
  cbn [Str.forallb] in Hd. apply andb_true_iff in Hd as [H1 H2].
  cbn [String.append Str.rstrip]. rewrite (IH H2).
  rewrite (numeric_not_space _ (isdigit_numeric _ H1)). reflexivity.
Qed.

Lemma split_head_digits (d r : string) :
  Str.forallb Str.isdigit d = true ->
  Str.split_head "," (d ++ String "," r) = d.
Proof.
  intros Hd. induction d as [|c d IH]; [reflexivity|].
  cbn [Str.forallb] in Hd. apply andb_true_iff in Hd as [H1 H2].
  cbn [String.append Str.split_head].
  rewrite (isdigit_neq c "," H1 eq_refl), (IH H2). reflexivity.
Qed.

Lemma strip_digits (d : string) :
  Str.forallb Str.isdigit d = true -> Str.strip d = d.
Proof. intros H. apply strip_numeric, digits_numeric, H. Qed.

Lemma search_skip (p rest : string) :
  Str.mem "[" p = false ->
  ID_BRACKET_RE_search (p ++ rest) = ID_BRACKET_RE_search rest.
Proof.
  induction p as [|c p IH]; [reflexivity|].
  cbn [Str.mem String.append ID_BRACKET_RE_search].
  intros H. apply orb_false_elim in H as [H1 H2].
  rewrite H1. apply IH, H2.
Qed.

(** The first character of a trimmed text is no whitespace. *)
Lemma lstrip_head (s : string) (c : ascii) (r : string) :
  Str.lstrip s = String c r -> Str.isspace c = false.
Proof.
  induction s as [|x s IH]; cbn [Str.lstrip]; [discriminate|].
  destruct (Str.isspace x) eqn:E; [exact IH|].
  intros H. injection H as <- _. exact E.
Qed.

Lemma strip_head (s : string) (c : ascii) (r : string) :
  Str.strip s = String c r -> Str.isspace c = false.
Proof. apply lstrip_head. Qed.

(** *** Periods in a numeric string *)

Lemma count_char_append (c : ascii) (a b : string) :
  count_char c (a ++ b) = (count_char c a + count_char c b)%nat.
Proof. induction a as [|x a IH]; simpl; [reflexivity | rewrite IH; lia]. Qed.

Lemma count_char_mem (c : ascii) (s : string) :
  Str.mem c s = false -> count_char c s = O.
Proof.
  induction s as [|x s IH]; simpl; [reflexivity|].
  intros H. apply orb_false_elim in H as [H1 H2]. now rewrite H1, IH.
Qed.

Lemma count_char_lstrip (c : ascii) (s : string) :
  Str.isspace c = false -> count_char c (Str.lstrip s) = count_char c s.
Proof.
  intros Hc. induction s as [|x s IH]; simpl; [reflexivity|].
  destruct (Str.isspace x) eqn:E; [|reflexivity].
  rewrite IH. destruct (Ascii.eqb_spec x c) as [->|]; [congruence | reflexivity].
Qed.

Lemma count_char_rstrip (c : ascii) (s : string) :
  Str.isspace c = false -> count_char c (Str.rstrip s) = count_char c s.
Proof.
  intros Hc. induction s as [|x s IH]; simpl; [reflexivity|].
  destruct (Str.isspace x && Str.is_empty (Str.rstrip s)) eqn:E; simpl.
  - apply andb_true_iff in E as [E1 E2]. apply is_empty_true in E2.
    rewrite E2 in IH. simpl in IH. rewrite <- IH.
    destruct (Ascii.eqb_spec x c) as [->|]; [congruence | reflexivity].
  - now rewrite IH.
Qed.

Lemma count_char_strip (c : ascii) (s : string) :
  Str.isspace c = false -> count_char c (Str.strip s) = count_char c s.
Proof.
  intros Hc. unfold Str.strip. now rewrite count_char_lstrip, count_char_rstrip.
Qed.

Lemma count_char_drop (old c : ascii) (s : string) :
  c <> old -> count_char c (Str.replace old "" s) = count_char c s.
Proof.
  intros Hc. induction s as [|x s IH]; simpl; [reflexivity|].
  destruct (Ascii.eqb_spec x old) as [->|Hx]; simpl.
  - rewrite IH. destruct (Ascii.eqb_spec old c) as [<-|]; [now elim Hc | reflexivity].
  - now rewrite IH.
Qed.

Lemma count_commas_to_periods (s : string) :
  count_char "." (Str.replace "," "." s)
  = (count_char "," s + count_char "." s)%nat.
Proof.
  induction s as [|x s IH]; simpl; [reflexivity|].
  destruct (Ascii.eqb_spec x ",") as [->|Hx]; simpl; rewrite IH.
  - reflexivity.
  - destruct (Ascii.eqb x "."); lia.
Qed.

Lemma count_char_lower_str (s : string) :
  count_char "." (lower_str s) = count_char "." s.
Proof.
  induction s as [|x s IH]; simpl; [reflexivity|].
  rewrite IH. f_equal.
  destruct x as [[] [] [] [] [] [] [] []]; reflexivity.
Qed.

Lemma count_char_split_sign (s r : string) (neg : bool) :
  split_sign s = (neg, r) -> count_char "." s = count_char "." r.
Proof.
  unfold split_sign. destruct s as [|c s]; [now intros [= _ <-]|].
  destruct (Ascii.eqb_spec c "-") as [->|_]; [now intros [= _ <-]|].
  destruct (Ascii.eqb_spec c "+") as [->|_]; now intros [= _ <-].
Qed.

Lemma count_periods_digits (s : string) :
  Str.forallb Str.isdigit s = true -> count_char "." s = O.
Proof.
  intros H. apply count_char_mem, (mem_forallb Str.isdigit); [exact H | reflexivity].
Qed.

Lemma parse_exponent_periods (s : string) (e : Z) :
  parse_exponent s = Some e -> count_char "." s = O.
Proof.
  unfold parse_exponent. destruct s as [|x s]; [reflexivity|].
  destruct (Ascii.eqb_spec (lower x) "e") as [E|_]; [|discriminate].
  destruct (split_sign s) as [neg ds] eqn:S.
  destruct (Str.is_empty ds || negb (Str.forallb Str.isdigit ds)) eqn:B;
    [discriminate|].
  intros _. apply orb_false_elim in B as [_ B]. apply negb_false_iff in B.
  cbn [count_char].
  rewrite (count_char_split_sign _ _ _ S), (count_periods_digits _ B).
  destruct (Ascii.eqb_spec x ".") as [->|]; [discriminate E | reflexivity].
Qed.

Lemma parse_number_periods (neg : bool) (s : string) (d : decimal) :
  parse_number neg s = Some d -> (count_char "." s <= 1)%nat.
Proof.
  unfold parse_number.
  destruct (Str.span Str.isdigit s) as [ip r1] eqn:S1.
  apply span_spec in S1 as (-> & Hip & _).
  rewrite count_char_append, (count_periods_digits _ Hip).
  destruct r1 as [|c r].
  - intros _. simpl. lia.
  - destruct (Ascii.eqb_spec c ".") as [->|Hc].
    + destruct (Str.span Str.isdigit r) as [fp r2] eqn:S2.
      apply span_spec in S2 as (-> & Hfp & _).
      destruct (Str.is_empty ip && Str.is_empty fp); [discriminate|].
      destruct (parse_exponent r2) as [e|] eqn:E; [|discriminate].
      intros _. cbn [count_char].
      rewrite count_char_append, (count_periods_digits _ Hfp),
        (parse_exponent_periods _ _ E).
      simpl. lia.
    + destruct (Str.is_empty ip && Str.is_empty ""); [discriminate|].
      destruct (parse_exponent (String c r)) as [e|] eqn:E; [|discriminate].
      intros _. rewrite (parse_exponent_periods _ _ E). lia.
Qed.

Lemma parse_special_periods (neg : bool) (s : string) (d : decimal) :
  parse_special neg s = Some d -> count_char "." s = O.
Proof.
  unfold parse_special. rewrite <- count_char_lower_str.
  destruct (String.eqb_spec (lower_str s) "inf") as [->|_]; [reflexivity|].
  destruct (String.eqb_spec (lower_str s) "infinity") as [->|_]; [reflexivity|].
  cbn [orb].
  destruct (drop_prefix "nan" (lower_str s)) as [diag|] eqn:D.
  - apply drop_prefix_spec in D. rewrite D. unfold parse_diag.
    destruct (Str.forallb Str.isdigit diag) eqn:B; [|discriminate].
    intros _. rewrite count_char_append, (count_periods_digits _ B). reflexivity.
  - destruct (drop_prefix "snan" (lower_str s)) as [diag|] eqn:D'; [|discriminate].
    apply drop_prefix_spec in D'. rewrite D'. unfold parse_diag.
    destruct (Str.forallb Str.isdigit diag) eqn:B; [|discriminate].
    intros _. rewrite count_char_append, (count_periods_digits _ B). reflexivity.
Qed.

(** A numeric string holds one period at most. *)
Lemma Decimal_periods (text : string) (d : decimal) :
  Decimal text = Ok d -> (count_char "." text <= 1)%nat.
Proof.
  unfold Decimal.
  rewrite <- (count_char_strip "." text eq_refl).
  rewrite <- (count_char_drop "_" "." (Str.strip text)) by discriminate.
  destruct (split_sign (Str.replace "_" "" (Str.strip text))) as [neg body] eqn:S.
  rewrite (count_char_split_sign _ _ _ S).
  destruct (parse_special neg body) as [x|] eqn:P.
  - intros _. rewrite (parse_special_periods _ _ _ P). lia.
  - destruct (parse_number neg body) as [x|] eqn:Q; [|discriminate].
    intros _. apply (parse_number_periods _ _ _ Q).
Qed.

Lemma cleaned_periods (s : string) :
  count_char "." (Str.replace "," "." (Str.replace " " "" (Str.strip s)))
  = (count_char "," s + count_char "." s)%nat.
Proof.
  rewrite count_commas_to_periods.
  rewrite !count_char_drop by discriminate.
  now rewrite !count_char_strip by reflexivity.
Qed.

(** *** Cells that hold a number *)

Lemma Decimal_str_integer (neg : bool) (c : N) :
  Decimal_str (Fin neg c 0) = sign_text neg ++ Str.str_of_N c.
Proof.
  pose proof (str_of_N_not_empty c) as Hne.
  unfold Decimal_str. set (int_ := Str.str_of_N c) in *.
  set (len := Z.of_nat (String.length int_)).
  assert (L1 : 1 <= len).
  { subst len. destruct int_; [now elim Hne | cbn [String.length]; lia]. }
  assert (B1 : (0 <=? 0) && (-6 <? 0 + len) = true).
  { apply andb_true_iff. split; [reflexivity | apply Z.ltb_lt; lia]. }
  rewrite B1.
  assert (B2 : (0 + len <=? 0) = false) by (apply Z.leb_gt; lia).
  assert (B3 : (len <=? 0 + len) = true) by (apply Z.leb_le; lia).
  rewrite B2, B3, Z.eqb_refl.
  replace (0 + len - len) with 0 by lia.
  cbn [Z.to_nat zeros]. now rewrite !append_empty_r.
Qed.

Lemma str_of_Z_Decimal_str (n : Z) :
  Str.str_of_Z n = Decimal_str (Fin (n <? 0) (Z.abs_N n) 0).
Proof.
  rewrite Decimal_str_integer. destruct n as [|p|p]; reflexivity.
Qed.

Lemma parse_amount_of_text (value : scalar) (d : decimal) :
  is_missing value = false -> str_raises value = false ->
  str value = Decimal_str d ->
  representable d = true -> parse_amount value = Ok (Some d).
Proof.
  intros Hm Hv Hs Hr. apply parse_amount_of_valid; [exact Hm | exact Hv |].
  pose proof (Decimal_str_numeric d) as Hn.
  rewrite Hs, (strip_numeric _ Hn).
  rewrite (replace_not_mem " " "" _ (mem_forallb numeric_char " " _ Hn eq_refl)).
  now apply Decimal_of_str.
Qed.

(** The text of an [int] is a run of digits, with a minus in front when it
    is negative. *)
Lemma count_char_str_of_Z (c : ascii) (n : Z) :
  Str.isdigit c = false -> c <> "-"%char -> count_char c (Str.str_of_Z n) = O.
Proof.
  intros Hd Hm.
  assert (HN : forall m, count_char c (Str.str_of_N m) = O).
  { intros m. apply count_char_mem, (mem_forallb Str.isdigit);
      [apply str_of_N_digits | exact Hd]. }
  destruct n as [|p|p]; cbn [Str.str_of_Z].
  - change "0" with (Str.str_of_N 0). apply HN.
  - apply HN.
  - cbn [count_char]. rewrite HN.
    destruct (Ascii.eqb_spec "-" c) as [E|_]; [now elim Hm | reflexivity].
Qed.

Lemma str_raises_no_separator (value : scalar) :
  str_raises value = true ->
  (count_char "," (str value) + count_char "." (str value))%nat = O.
Proof.
  intros H. apply str_raises_int in H as (n & -> & _). cbn [str].
  now rewrite !count_char_str_of_Z.
Qed.

Lemma representable_integer (neg : bool) (c : N) :
  (c < 10 ^ 4300)%N -> representable (Fin neg c 0) = true.
Proof.
  intros H. cbn [representable].
  assert (ndigits c <= 4300) by (apply ndigits_le; [lia | exact H]).
  apply andb_true_iff. split; apply Z.leb_le; unfold MIN_ETINY, MAX_EMAX; lia.
Qed.

(** *** A sign in front of an amount *)

Lemma parse_special_period (neg : bool) (r : string) :
  parse_special neg (String "." r) = None.
Proof. reflexivity. Qed.

Lemma parse_number_sign (neg : bool) (s : string) :
  parse_number neg s = option_map (with_sign neg) (parse_number false s).
Proof.
  unfold parse_number.
  destruct (Str.span Str.isdigit s) as [ip r1].
  destruct (match r1 with
            | EmptyString => (EmptyString, r1)
            | String c r =>
                if Ascii.eqb c "." then Str.span Str.isdigit r else (EmptyString, r1)
            end) as [fp r2].
  destruct (Str.is_empty ip && Str.is_empty fp); [reflexivity|].
  destruct (parse_exponent r2); reflexivity.
Qed.

Lemma representable_with_sign (neg : bool) (d : decimal) :
  representable (with_sign neg d) = representable d.
Proof. now destruct d. Qed.

Lemma Decimal_head (c : ascii) (s : string) :
  Str.isdigit c = true \/ c = "."%char ->
  Str.isspace c = false /\ Ascii.eqb c "_" = false
  /\ Ascii.eqb c "-" = false /\ Ascii.eqb c "+" = false
  /\ forall neg r, parse_special neg (String c r) = None.
Proof.
  intros [H| ->].
  - split; [apply numeric_not_space, isdigit_numeric, H|].
    split; [now apply isdigit_neq|]. split; [now apply isdigit_neq|].
    split; [now apply isdigit_neq|]. intros neg r. now apply parse_special_digit.
  - repeat split.
Qed.

(** A minus in front of a number negates it, a plus does nothing. *)
Lemma Decimal_signed (c : ascii) (s : string) :
  Str.isdigit c = true \/ c = "."%char ->
  Decimal (String "-" (String c s))
  = (d <- Decimal (String c s) ;; Ok (with_sign true d))
  /\ Decimal (String "+" (String c s)) = Decimal (String c s).
Proof.
  intros Hc. destruct (Decimal_head c s Hc) as (Hsp & Hu & Hm & Hp & Hspecial).
  unfold Decimal.
  rewrite (strip_cons "-" (String c s) eq_refl), (strip_cons "+" (String c s) eq_refl),
    (strip_cons c s Hsp).
  cbn [Str.rstrip]. rewrite Hsp. cbn [andb].
  cbn [Str.replace]. change (Ascii.eqb "-" "_") with false.
  change (Ascii.eqb "+" "_") with false. rewrite Hu. cbn iota.
  cbn [split_sign]. change (Ascii.eqb "-" "-") with true.
  change (Ascii.eqb "+" "-") with false. change (Ascii.eqb "+" "+") with true.
  rewrite Hm, Hp. cbn iota.
  rewrite !Hspecial.
  split; [|reflexivity].
  rewrite (parse_number_sign true).
  destruct (parse_number false (String c (Str.replace "_" "" (Str.rstrip s)))) as [d|];
    cbn [option_map bind]; [|reflexivity].
  rewrite representable_with_sign. destruct (representable d); reflexivity.
Qed.

Lemma cleaned_cons (c : ascii) (s : string) :
  Str.isspace c = false ->
  Str.replace " " "" (Str.strip (String c s))
  = String c (Str.replace " " "" (Str.rstrip s)).
Proof.
  intros H. rewrite (strip_cons c s H). cbn [Str.replace].
  destruct (Ascii.eqb_spec c " ") as [->|]; [discriminate H | reflexivity].
Qed.

Lemma cleaned_signed (sign c : ascii) (s : string) :
  Str.isspace sign = false -> Ascii.eqb sign "," = false -> Str.isspace c = false ->
  Str.replace " " "" (Str.strip (String sign (String c s)))
  = String sign (Str.replace " " "" (Str.strip (String c s)))
  /\ Str.replace "," "." (Str.replace " " "" (Str.strip (String sign (String c s))))
     = String sign (Str.replace "," "." (Str.replace " " "" (Str.strip (String c s)))).
Proof.
  intros Hs Hcomma Hc.
  assert (E : Str.replace " " "" (Str.strip (String sign (String c s)))
              = String sign (Str.replace " " "" (Str.strip (String c s)))).
  { rewrite (cleaned_cons sign _ Hs), (strip_cons c s Hc).
    cbn [Str.rstrip]. rewrite Hc. reflexivity. }
  split; [exact E|]. rewrite E. cbn [Str.replace]. now rewrite Hcomma.
Qed.

(** A minus in front of an amount negates it, a plus does nothing. *)
Lemma parse_amount_signed (c : ascii) (s : string) :
  Str.isdigit c = true \/ c = "."%char \/ c = ","%char ->
  parse_amount (PyStr (String "-" (String c s)))
  = negated (parse_amount (PyStr (String c s)))
  /\ parse_amount (PyStr (String "+" (String c s)))
     = parse_amount (PyStr (String c s)).
Proof.
  intros Hc.
  assert (Hsp : Str.isspace c = false).
  { destruct Hc as [H|[->| ->]]; [|reflexivity|reflexivity].
    apply numeric_not_space, isdigit_numeric, H. }
  rewrite !parse_amount_unfold by reflexivity. cbn [is_missing str].
  destruct (cleaned_signed "-" c s eq_refl eq_refl Hsp) as [M1 M2].
  destruct (cleaned_signed "+" c s eq_refl eq_refl Hsp) as [P1 P2].
  rewrite M2, M1, P2, P1. cbn [Str.is_empty].
  rewrite (cleaned_cons c s Hsp). cbn [Str.is_empty Str.replace].
  set (rest := Str.replace " " "" (Str.rstrip s)).
  assert (H : exists c', (if Ascii.eqb c "," then "." ++ Str.replace "," "." rest
                          else String c (Str.replace "," "." rest))
                         = String c' (Str.replace "," "." rest)
                         /\ (Str.isdigit c' = true \/ c' = "."%char)).
  { destruct Hc as [H|[->| ->]].
    - exists c. rewrite (isdigit_neq c "," H eq_refl). auto.
    - exists "."%char. auto.
    - exists "."%char. auto. }
  destruct H as (c' & -> & Hc').
  destruct (Decimal_signed c' (Str.replace "," "." rest) Hc') as [-> ->].
  split; [|reflexivity].
  destruct (Decimal (String c' (Str.replace "," "." rest))) as [d|e];
    cbn [bind negated]; reflexivity.
Qed.
(** ** More on the aggregators *)

Lemma aggregate_sorted (out : list kept) (agg : list total) :
  aggregate out = Ok agg -> StronglySorted str_lt (map t_company_id agg).
Proof.
  intros H. destruct (aggregate_rows _ _ H) as [-> _]. apply group_keys_sorted.
Qed.

Lemma aggregate_empty : aggregate [] = Ok [].
Proof. reflexivity. Qed.


Lemma In_not_None (column : list (option decimal)) (v : decimal) :
  In (Some v) column -> In v (not_None column).
Proof.
  induction column as [|[d|] column IH]; cbn [not_None In].
  - auto.
  - intros [E|H]; [left; congruence | right; auto].
  - intros [E|H]; [discriminate | auto].
Qed.

Lemma kept_rows_nil {R : Type} (id : R -> option string) (raw amt : R -> cell)
      (df : list R) :
  (forall r, In r df -> id r = None) -> kept_rows id raw amt df = [].
Proof.
  intros H. unfold kept_rows. induction df as [|r df IH]; [reflexivity|].
  cbn [flat_map]. rewrite (H r (or_introl eq_refl)), IH; [reflexivity|].
  intros x Hx. apply H. now right.
Qed.

Section AggregatorMore.

Context {R : Type} (id : R -> option string) (raw amt : R -> cell).


(** One quiet NaN among the amounts of an identifier makes its total a
    quiet NaN. *)
Lemma aggregated_nan (df : list R) (agg : list total) (t : total) (r : R) (v : decimal) :
  aggregated id raw amt df agg -> In t agg ->
  In r df -> has_id id (t_company_id t) r = true ->
  amount_value (amt r) = Some v -> decimal_isna v = true ->
  decimal_isna (t_amount t) = true.
Proof.
  intros (_ & _ & Hrows) Ht Hr Hid Hv Hna.
  destruct (Hrows t Ht) as (Hsum & _).
  apply (py_sum_nan _ _ _ Hsum). right. exists v. split; [|exact Hna].
  apply In_not_None. rewrite <- Hv.
  apply (in_map (fun r => amount_value (amt r))).
  apply filter_In. now split.
Qed.

End AggregatorMore.

(** The identifiers of the two parsers. *)
Lemma company_id_1_digits (r : row1) (i : string) :
  company_id_1 r = Some i -> digit_run i /\ Str.strip i = i.
Proof.
  unfold company_id_1, parse_id_from_file1.
  destruct (is_missing (company_raw_1 r)); [discriminate|].
  intros H. apply search_first_group in H as (n & (pre & post & _ & _ & Hd) & _).
  split; [exact Hd|]. apply strip_digits, Hd.
Qed.

Lemma company_id_2_trimmed (r : row2) (i : string) :
  company_id_2 r = Some i -> Str.mem "," i = false /\ Str.strip i = i.
Proof.
  unfold company_id_2, parse_id_from_file2.
  destruct (is_missing (r2_raw_id r)); [discriminate|].
  destruct (Str.is_empty (Str.strip (str (r2_raw_id r)))); [discriminate|].
  intros H. injection H as <-. split; [|apply strip_idem].
  rewrite mem_strip by reflexivity.
  apply (split_head_spec "," (Str.strip (str (r2_raw_id r)))).
Qed.
(** ** When the arithmetic signals *)











(** * Further properties of the parsers *)

(** X1.  A cell that holds an integer parses to that very integer, with the
    exponent zero: [parse_amount] loses nothing of it.  ([str] refuses an
    integer of more than 4300 digits.) *)
Theorem parse_amount_integer (n : Z) :
  Z.abs n < 10 ^ 4300 ->
  parse_amount (PyInt n) = Ok (Some (Fin (n <? 0) (Z.abs_N n) 0)).
Proof.
  intros H. apply parse_amount_of_text;
    [reflexivity | apply Z.leb_gt; exact H | apply str_of_Z_Decimal_str |].
  apply representable_integer.
  apply N2Z.inj_lt. rewrite N2Z.inj_abs_N, N2Z.inj_pow. exact H.
Qed.

Lemma parse_amount_integer_witness :
  parse_amount (PyInt (-1250)) = Ok (Some (Fin true 1250 0)).
Proof. apply (parse_amount_integer (-1250)). vm_compute. reflexivity. Defined.

(** X2.  A text with two or more separators, commas and periods counted
    together, is no amount: every comma becomes a period, and a numeric
    string holds one period at most.  So a thousands separator next to a
    decimal separator, as in "1,234.56", loses the amount of the row. *)
Theorem parse_amount_two_separators (value : scalar) :
  (2 <= count_char "," (str value) + count_char "." (str value))%nat ->
  parse_amount value = Ok None.
Proof.
  intros H.
  destruct (str_raises value) eqn:Hs;
    [rewrite (str_raises_no_separator _ Hs) in H; lia|].
  rewrite (parse_amount_unfold _ Hs).
  destruct (is_missing value); [reflexivity|].
  destruct (Str.is_empty (Str.replace " " "" (Str.strip (str value)))); [reflexivity|].
  destruct (Decimal (Str.replace "," "." (Str.replace " " "" (Str.strip (str value)))))
    as [d|e] eqn:E; [|reflexivity].
  apply Decimal_periods in E. rewrite cleaned_periods in E. lia.
Qed.

Lemma parse_amount_two_separators_witness :
  parse_amount (PyStr "1,234.56") = Ok None.
Proof. apply (parse_amount_two_separators (PyStr "1,234.56")). vm_compute. lia. Defined.

(** X3.  A minus in front of an amount that starts with a digit or a
    separator negates the amount, and leaves a text that is no amount as it
    is; a plus in front changes nothing. *)
Theorem parse_amount_leading_sign (c : ascii) (s : string) :
  Str.isdigit c = true \/ c = "."%char \/ c = ","%char ->
  parse_amount (PyStr (String "-" (String c s)))
  = negated (parse_amount (PyStr (String c s)))
  /\ parse_amount (PyStr (String "+" (String c s)))
     = parse_amount (PyStr (String c s)).
Proof. apply parse_amount_signed. Qed.

Lemma parse_amount_leading_sign_witness :
  parse_amount (PyStr "-12,50") = Ok (Some (Fin true 1250 (-2)))
  /\ parse_amount (PyStr "+12,50") = Ok (Some (Fin false 1250 (-2))).
Proof.
  destruct (parse_amount_leading_sign "1" "2,50" (or_introl eq_refl)) as [H1 H2].
  split; [exact H1 | exact H2].
Defined.

(** X4.  The two identifier parsers agree: the digits [d] written in
    brackets after a name without an opening bracket, and the same digits in
    front of a comma or alone in the identifier cell, give the same
    identifier [d], leading zeros included. *)
Theorem parsers_agree_on_identifier (p q q' d : string) :
  digit_run d -> Str.mem "[" p = false ->
  parse_id_from_file1 (PyStr (p ++ "[" ++ d ++ "]" ++ q)) = Some d
  /\ parse_id_from_file2 (PyStr (d ++ "," ++ q')) = Some d
  /\ parse_id_from_file2 (PyStr d) = Some d.
Proof.
  intros [Hne Hd] Hp.
  assert (Hs : Str.strip d = d) by now apply strip_digits.
  assert (He : Str.is_empty d = false) by now apply is_empty_false.
  split; [|split].
  - unfold parse_id_from_file1. cbn [is_missing str].
    rewrite search_skip by exact Hp.
    cbn [String.append ID_BRACKET_RE_search].
    change (Ascii.eqb "[" "[") with true. cbn iota.
    assert (M : match_bracket_body (d ++ String "]" q) = Some d).
    { apply match_bracket_body_spec. split; [now exists q | now split]. }
    now rewrite M.
  - unfold parse_id_from_file2. cbn [is_missing str].
    assert (S : Str.strip (d ++ "," ++ q') = d ++ String "," (Str.rstrip q')).
    { destruct d as [|c0 d']; [now elim Hne|].
      cbn [Str.forallb] in Hd. apply andb_true_iff in Hd as [H0 H1].
      cbn [String.append].
      rewrite strip_cons by (apply numeric_not_space, isdigit_numeric, H0).
      now rewrite (rstrip_digits_append d' _ H1). }
    rewrite S.
    assert (E : Str.is_empty (d ++ String "," (Str.rstrip q')) = false)
      by (destruct d; reflexivity).
    rewrite E, split_head_digits by exact Hd. now rewrite Hs.
  - unfold parse_id_from_file2. cbn [is_missing str].
    rewrite Hs, He.
    rewrite split_head_no_sep by (apply (mem_forallb Str.isdigit); [exact Hd | reflexivity]).
    now rewrite Hs.
Qed.

Lemma parsers_agree_on_identifier_witness :
  parse_id_from_file1 (PyStr "Acme Corp [0482] (old)") = Some "0482"
  /\ parse_id_from_file2 (PyStr "0482,000") = Some "0482"
  /\ parse_id_from_file2 (PyStr "0482") = Some "0482".
Proof.
  apply (parsers_agree_on_identifier "Acme Corp " " (old)" "000" "0482").
  - split; [discriminate | reflexivity].
  - reflexivity.
Defined.

(** X5.  [parse_id_from_file2] yields the empty identifier, and not
    nothing, exactly when the trimmed text of the cell starts with a comma:
    such a row is kept, under the identifier "". *)
Theorem parse_id_from_file2_empty_identifier (raw_id : scalar) :
  is_missing raw_id = false ->
  (parse_id_from_file2 raw_id = Some "" <->
   exists r, Str.strip (str raw_id) = String "," r).
Proof.
  intros Hm. unfold parse_id_from_file2. rewrite Hm.
  destruct (Str.strip (str raw_id)) as [|c t] eqn:E; cbn [Str.is_empty].
  - split; [discriminate | intros (r & H); discriminate H].
  - pose proof (strip_head _ _ _ E) as Hc.
    cbn [Str.split_head].
    destruct (Ascii.eqb_spec c ",") as [->|Hn].
    + split; [intros _; now exists t | reflexivity].
    + split.
      * rewrite (strip_cons c _ Hc). discriminate.
      * intros (r & H). injection H as H _. now elim Hn.
Qed.

Lemma parse_id_from_file2_empty_identifier_witness :
  parse_id_from_file2 (PyStr " ,000") = Some "".
Proof.
  apply (proj2 (parse_id_from_file2_empty_identifier (PyStr " ,000") eq_refl)).
  now exists "000".
Defined.
(** * Further properties of the aggregators *)

(** X6.  Every identifier of the table [prepare_file1] returns is a run
    of one or more digits: what stood between the brackets, with nothing for
    the trimming to remove. *)
Theorem prepare_file1_identifiers (df : list row1) (agg : list total) (t : total) :
  prepare_file1 df = Ok agg -> In t agg -> digit_run (t_company_id t).
Proof.
  intros H Ht. rewrite prepare_file1_kept in H.
  destruct (aggregate_rows _ _ H) as [Hk _].
  assert (Hin : In (t_company_id t) (map t_company_id agg)) by now apply in_map.
  rewrite Hk, group_keys_In in Hin.
  apply kept_rows_ids in Hin as (r & _ & Hid).
  destruct (company_id_1 r) as [i|] eqn:E; [|discriminate].
  cbn [option_map] in Hid. injection Hid as <-.
  destruct (company_id_1_digits _ _ E) as [D S]. now rewrite S.
Qed.

Lemma prepare_file1_identifiers_witness :
  exists agg t,
    prepare_file1 [sheet1 "Acme [007]" "5"; sheet1 "no identifier" "6"] = Ok agg
    /\ In t agg /\ t_company_id t = "007" /\ digit_run (t_company_id t).
Proof.
  evaluate (prepare_file1 [sheet1 "Acme [007]" "5"; sheet1 "no identifier" "6"]) as H.
  lazymatch type of H with _ = Ok [?t] =>
    exists [t], t; assert (Hin : In t [t]) by now left
  end.
  split; [exact H|]. split; [exact Hin|]. split; [reflexivity|].
  exact (prepare_file1_identifiers _ _ _ H Hin).
Defined.

(** X7.  Every identifier of the table [prepare_file2] returns is trimmed
    and holds no comma; nothing else is asked of it, and it may be empty. *)
Theorem prepare_file2_identifiers (df : list row2) (agg : list total) (t : total) :
  prepare_file2 df = Ok agg -> In t agg ->
  Str.mem "," (t_company_id t) = false /\ Str.strip (t_company_id t) = t_company_id t.
Proof.
  intros H Ht. rewrite prepare_file2_kept in H.
  destruct (aggregate_rows _ _ H) as [Hk _].
  assert (Hin : In (t_company_id t) (map t_company_id agg)) by now apply in_map.
  rewrite Hk, group_keys_In in Hin.
  apply kept_rows_ids in Hin as (r & _ & Hid).
  destruct (company_id_2 r) as [i|] eqn:E; [|discriminate].
  cbn [option_map] in Hid. injection Hid as <-.
  destruct (company_id_2_trimmed _ _ E) as [M S]. now rewrite S.
Qed.

Lemma prepare_file2_identifiers_witness :
  exists agg t,
    prepare_file2 [sheet2 " AB 12 ,000" "Acme" "5"] = Ok agg
    /\ In t agg /\ t_company_id t = "AB 12"
    /\ Str.mem "," (t_company_id t) = false
    /\ Str.strip (t_company_id t) = t_company_id t.
Proof.
  evaluate (prepare_file2 [sheet2 " AB 12 ,000" "Acme" "5"]) as H.
  lazymatch type of H with _ = Ok [?t] =>
    exists [t], t; assert (Hin : In t [t]) by now left
  end.
  split; [exact H|]. split; [exact Hin|]. split; [reflexivity|].
  exact (prepare_file2_identifiers _ _ _ H Hin).
Defined.

(** X8.  The table an aggregator returns is in strictly ascending order
    of the identifier as text, whatever the order of the rows of the
    sheet. *)
Theorem aggregators_sort_identifiers
    (df1 : list row1) (df2 : list row2) (agg1 agg2 : list total) :
  prepare_file1 df1 = Ok agg1 -> prepare_file2 df2 = Ok agg2 ->
  StronglySorted str_lt (map t_company_id agg1)
  /\ StronglySorted str_lt (map t_company_id agg2).
Proof.
  rewrite prepare_file1_kept, prepare_file2_kept. intros H1 H2.
  split; eapply aggregate_sorted; eassumption.
Qed.

Lemma aggregators_sort_identifiers_witness :
  exists agg1 agg2,
    prepare_file1 [sheet1 "B [2]" "1"; sheet1 "A [10]" "2"; sheet1 "B [2]" "3"] = Ok agg1
    /\ prepare_file2 [sheet2 "9,000" "Z" "1"; sheet2 "10,000" "A" "2"] = Ok agg2
    /\ map t_company_id agg1 = ["10"; "2"] /\ map t_company_id agg2 = ["10"; "9"]
    /\ StronglySorted str_lt (map t_company_id agg1)
    /\ StronglySorted str_lt (map t_company_id agg2).
Proof.
  evaluate (prepare_file1 [sheet1 "B [2]" "1"; sheet1 "A [10]" "2"; sheet1 "B [2]" "3"])
    as H1.
  evaluate (prepare_file2 [sheet2 "9,000" "Z" "1"; sheet2 "10,000" "A" "2"]) as H2.
  lazymatch type of H1 with _ = Ok ?a =>
  lazymatch type of H2 with _ = Ok ?b => exists a, b
  end end.
  split; [exact H1|]. split; [exact H2|]. split; [reflexivity|]. split; [reflexivity|].
  exact (aggregators_sort_identifiers _ _ _ _ H1 H2).
Defined.


(** * Further properties of the reconciler *)

(** X10.  A single amount that parses to a quiet NaN, as the text "NaN"
    does, wipes out the total of its identifier: the sum is a NaN, which
    [fillna] replaces by zero, so the detail row shows the amount 0 whatever
    the other amounts of the identifier are. *)
Theorem nan_amount_zeroes_total
    (f1 f2 : string) (file1 : list row1) (file2 : list row2)
    (detail : list detail_row) (summary : list summary_row) :
  compare f1 f2 file1 file2 = Ok (detail, summary) ->
  (forall r i v,
     In r file1 -> company_id_1 r = Some i ->
     amount_value (r1_amount r) = Some v -> decimal_isna v = true ->
     exists row, In row detail /\ company_id row = Str.strip i
                 /\ amount_1 row = Decimal_0)
  /\ (forall r i v,
        In r file2 -> company_id_2 r = Some i ->
        amount_value (r2_amount r) = Some v -> decimal_isna v = true ->
        exists row, In row detail /\ company_id row = Str.strip i
                    /\ amount_2 row = Decimal_0).
Proof.
  intros Hc.
  destruct (compare_inv _ _ _ _ _ _ Hc) as (left & right & _ & _ & Hl & Hr & _).
  pose proof Hl as Al. pose proof Hr as Ar.
  rewrite prepare_file1_kept in Al. rewrite prepare_file2_kept in Ar.
  apply aggregate_kept_rows in Al, Ar.
  split; intros r i v Hin Hid Hv Hna.
  - assert (Hk : In (Str.strip i) (map t_company_id left)).
    { apply (proj1 (proj2 Al)). exists r. split; [exact Hin | now rewrite Hid]. }
    pose proof Hk as Ht. apply in_map_iff in Ht as (t & Et & Ht).
    assert (Hh : has_id company_id_1 (t_company_id t) r = true)
      by (apply has_id_iff; now rewrite Hid, Et).
    pose proof (aggregated_nan _ _ _ _ _ t r v Al Ht Hin Hh Hv Hna) as Hnan.
    pose proof (proj2 (report_id_In _ _ _ _ _ _ _ _ Hl Hr Hc (Str.strip i))
                  (or_introl Hk)) as Hrow.
    apply in_map_iff in Hrow as (row & Er & Hrow).
    exists row. split; [exact Hrow|]. split; [exact Er|].
    destruct (report_side_1 _ _ _ _ _ _ _ _ Hl Hr Hc row Hrow) as (S & _).
    destruct (S t Ht (eq_trans Et (eq_sym Er))) as [-> _].
    cbn [fillna_0]. now rewrite Hnan.
  - assert (Hk : In (Str.strip i) (map t_company_id right)).
    { apply (proj1 (proj2 Ar)). exists r. split; [exact Hin | now rewrite Hid]. }
    pose proof Hk as Ht. apply in_map_iff in Ht as (t & Et & Ht).
    assert (Hh : has_id company_id_2 (t_company_id t) r = true)
      by (apply has_id_iff; now rewrite Hid, Et).
    pose proof (aggregated_nan _ _ _ _ _ t r v Ar Ht Hin Hh Hv Hna) as Hnan.
    pose proof (proj2 (report_id_In _ _ _ _ _ _ _ _ Hl Hr Hc (Str.strip i))
                  (or_intror Hk)) as Hrow.
    apply in_map_iff in Hrow as (row & Er & Hrow).
    exists row. split; [exact Hrow|]. split; [exact Er|].
    destruct (report_side_2 _ _ _ _ _ _ _ _ Hl Hr Hc row Hrow) as (S & _).
    destruct (S t Ht (eq_trans Et (eq_sym Er))) as [-> _].
    cbn [fillna_0]. now rewrite Hnan.
Qed.

Lemma nan_amount_zeroes_total_witness :
  exists detail summary,
    compare "OC.xlsx" "1C.xlsx"
      [sheet1 "Acme [1]" "100"; sheet1 "Acme [1]" "NaN"] [sheet2 "1,000" "Acme" "100"]
    = Ok (detail, summary)
    /\ map amount_1 detail = [Decimal_0]
    /\ map status detail = ["MISMATCH"]
    /\ exists row, In row detail /\ company_id row = Str.strip "1"
                   /\ amount_1 row = Decimal_0.
Proof.
  evaluate (compare "OC.xlsx" "1C.xlsx"
      [sheet1 "Acme [1]" "100"; sheet1 "Acme [1]" "NaN"] [sheet2 "1,000" "Acme" "100"])
    as Hc.
  lazymatch type of Hc with _ = Ok (?d, ?s) => exists d, s end.
  split; [exact Hc|]. split; [reflexivity|]. split; [reflexivity|].
  apply (proj1 (nan_amount_zeroes_total _ _ _ _ _ _ Hc)
           (sheet1 "Acme [1]" "NaN") "1" (NaN false false 0)).
  - right. now left.
  - reflexivity.
  - reflexivity.
  - reflexivity.
Defined.

(** X11.  Whatever the cells hold, no NaN leaves [compare]: every amount
    and every delta of the detail table and every total of the summary is an
    infinity or a finite decimal of at most 28 digits with its exponent in the
    range of the context. *)
Theorem compare_returns_numbers
    (f1 f2 : string) (file1 : list row1) (file2 : list row2)
    (detail : list detail_row) (summary : list summary_row) :
  compare f1 f2 file1 file2 = Ok (detail, summary) ->
  (forall row, In row detail ->
     is_number (amount_1 row) = true /\ is_number (amount_2 row) = true
     /\ is_number (delta row) = true)
  /\ (forall s, In s summary ->
        is_number (s_total_amount_1 s) = true /\ is_number (s_total_amount_2 s) = true
        /\ is_number (s_total_delta s) = true).
Proof. apply compare_numbers. Qed.

Lemma compare_returns_numbers_witness :
  exists detail summary,
    compare "OC.xlsx" "1C.xlsx"
      [sheet1 "Acme [1]" "Infinity"; sheet1 "Cog [3]" "NaN7"]
      [sheet2 "1,000" "Acme" "1e-400"]
    = Ok (detail, summary)
    /\ map delta detail = [Inf false; Decimal_0]
    /\ (forall row, In row detail ->
          is_number (amount_1 row) = true /\ is_number (amount_2 row) = true
          /\ is_number (delta row) = true).
Proof.
  evaluate (compare "OC.xlsx" "1C.xlsx"
      [sheet1 "Acme [1]" "Infinity"; sheet1 "Cog [3]" "NaN7"]
      [sheet2 "1,000" "Acme" "1e-400"]) as Hc.
  lazymatch type of Hc with _ = Ok (?d, ?s) => exists d, s end.
  split; [exact Hc|]. split; [reflexivity|].
  exact (proj1 (compare_returns_numbers _ _ _ _ _ _ Hc)).
Defined.



(** X13.  The summary never has more than four rows: one for each of
    MATCH, MISMATCH and the two [only_file_] labels that occurs in the detail
    table. *)
Theorem summary_has_at_most_four_rows
    (f1 f2 : string) (file1 : list row1) (file2 : list row2)
    (detail : list detail_row) (summary : list summary_row) :
  compare f1 f2 file1 file2 = Ok (detail, summary) ->
  (List.length summary <= 4)%nat
  /\ forall s, In s summary ->
       In (s_status s) ["MATCH"; "MISMATCH"; "only_file_" ++ f1; "only_file_" ++ f2].
Proof.
  intros Hc.
  destruct (compare_inv _ _ _ _ _ _ Hc) as (left & right & _ & _ & Hl & Hr & _ & _ & _ & Hs).
  destruct (summarize_rows _ _ Hs) as (pre & Hpre & ->).
  pose proof (summary_statuses _ _ _ Hpre) as Hk.
  assert (Hin : forall k, In k (group_keys (map status detail)) ->
                  In k ["MATCH"; "MISMATCH"; "only_file_" ++ f1; "only_file_" ++ f2]).
  { intros k H. apply group_keys_In, in_map_iff in H as (row & <- & Hrow).
    exact (report_status_label _ _ _ _ _ _ _ _ Hl Hr Hc row Hrow). }
  split.
  - rewrite (Permutation_length (sort_values_perm s_status pre)).
    rewrite <- (length_map s_status pre), Hk.
    apply (NoDup_incl_length (group_keys_NoDup _) Hin).
  - intros s H. apply sort_values_In in H.
    apply Hin. rewrite <- Hk. now apply in_map.
Qed.

Lemma summary_has_at_most_four_rows_witness :
  exists detail summary,
    compare "OC.xlsx" "1C.xlsx"
      [sheet1 "A [1]" "1"; sheet1 "B [2]" "2"; sheet1 "C [3]" "3"; sheet1 "E [5]" "5"]
      [sheet2 "1,000" "A" "1"; sheet2 "2,000" "B" "9"; sheet2 "4,000" "D" "4";
       sheet2 "5,000" "E" "5"]
    = Ok (detail, summary)
    /\ List.length detail = 5%nat /\ List.length summary = 4%nat
    /\ (List.length summary <= 4)%nat.
Proof.
  evaluate (compare "OC.xlsx" "1C.xlsx"
      [sheet1 "A [1]" "1"; sheet1 "B [2]" "2"; sheet1 "C [3]" "3"; sheet1 "E [5]" "5"]
      [sheet2 "1,000" "A" "1"; sheet2 "2,000" "B" "9"; sheet2 "4,000" "D" "4";
       sheet2 "5,000" "E" "5"]) as Hc.
  lazymatch type of Hc with _ = Ok (?d, ?s) => exists d, s end.
  split; [exact Hc|]. split; [reflexivity|]. split; [reflexivity|].
  exact (proj1 (summary_has_at_most_four_rows _ _ _ _ _ _ Hc)).
Defined.

(** X14.  Sheets that have rows, none of which carries an identifier, give
    the empty report: no detail row and no summary row, whatever the amount
    cells hold. *)
Theorem compare_without_identifiers
    (f1 f2 : string) (file1 : list row1) (file2 : list row2) :
  file1 <> [] -> file2 <> [] ->
  (forall r, In r file1 -> company_id_1 r = None) ->
  (forall r, In r file2 -> company_id_2 r = None) ->
  compare f1 f2 file1 file2 = Ok ([], []).
Proof.
  intros _ _ H1 H2. unfold compare.
  rewrite prepare_file1_kept, prepare_file2_kept.
  rewrite (kept_rows_nil _ _ _ _ H1), (kept_rows_nil _ _ _ _ H2).
  reflexivity.
Qed.

Lemma compare_without_identifiers_witness :
  compare "OC.xlsx" "1C.xlsx"
    [sheet1 "Total" "Infinity"; sheet1 "header [x]" "-Infinity"]
    [Build_row2 blank blank (text_cell "Total") (text_cell "12")]
  = Ok ([], []).
Proof.
  apply compare_without_identifiers.
  - discriminate.
  - discriminate.
  - intros r [<-|[<-|[]]]; vm_compute; reflexivity.
  - intros r [<-|[]]; vm_compute; reflexivity.
Defined.
(** * Properties of the written report *)

(** X15.  The text [str] writes for a decimal reads back as that very
    decimal, sign, digits and exponent: [Decimal(str(d))] is [d], and so is
    the amount [parse_amount] finds in a cell that holds [d]. *)
Theorem Decimal_str_round_trip (d : decimal) :
  representable d = true ->
  Decimal (Decimal_str d) = Ok d
  /\ parse_amount (PyOther (Decimal_str d)) = Ok (Some d).
Proof.
  intros H. split; [now apply Decimal_of_str | now apply parse_amount_of_str].
Qed.

Lemma Decimal_str_round_trip_witness :
  Decimal_str (Fin true 1234 (-9)) = "-0.000001234"
  /\ Decimal_str (Fin false 1234 (-10)) = "1.234E-7"
  /\ Decimal (Decimal_str (Fin false 1234 (-10))) = Ok (Fin false 1234 (-10))
  /\ parse_amount (PyOther (Decimal_str (Fin false 1234 (-10))))
     = Ok (Some (Fin false 1234 (-10))).
Proof.
  split; [reflexivity|]. split; [reflexivity|].
  apply (Decimal_str_round_trip (Fin false 1234 (-10))). reflexivity.
Defined.

(** X16.  [to_numeric_columns] turns a column of numbers into the floats
    nearest to them, one for one: the text [str] writes for a number is
    always a text [float] reads, and it reads the digits and the exponent of
    the decimal. *)
Theorem to_numeric_column_of_numbers (column : list decimal) :
  (forall d, In d column -> is_number d = true) ->
  to_numeric_column column = Ok (map float_of_decimal column).
Proof. apply to_numeric_column_numbers. Qed.

Lemma to_numeric_column_of_numbers_witness :
  to_numeric_column [Fin false 15 (-1); Fin true 1 (-400); Inf false; Fin false 1 400]
  = Ok [SpecFloat.S754_finite false 6755399441055744 (-52);
        SpecFloat.S754_zero true;
        SpecFloat.S754_infinity false;
        SpecFloat.S754_infinity false].
Proof.
  apply (to_numeric_column_of_numbers
           [Fin false 15 (-1); Fin true 1 (-400); Inf false; Fin false 1 400]).
  intros d [<-|[<-|[<-|[<-|[]]]]]; reflexivity.
Defined.

(** X17.  On a column of numbers and NaNs, with pandas before 3.0:
    [to_numeric_columns] raises InvalidOperation exactly when the column
    holds a signaling NaN, which [astype(str)] cannot even test for being
    missing; it raises ValueError exactly when it holds no signaling NaN but a
    quiet NaN with diagnostic digits, whose text "NaN123" [float] does not
    read; and it returns, a plain quiet NaN read as the float nan, when every
    NaN of the column is a plain quiet one. *)
Theorem to_numeric_column_fails_on_nan (column : list decimal) :
  (forall d, In d column -> is_number d = true \/ is_nan d = true) ->
  (to_numeric_column column = Raise InvalidOperation <->
   exists neg p, In (NaN neg true p) column)
  /\ (to_numeric_column column = Raise ValueError <->
      (forall neg p, ~ In (NaN neg true p) column)
      /\ exists neg p, In (NaN neg false p) column /\ p <> 0%N)
  /\ ((forall neg g p, In (NaN neg g p) column -> g = false /\ p = 0%N) ->
      to_numeric_column column = Ok (map float_of_decimal column)).
Proof.
  intros H.
  assert (Q : (forall neg p, ~ In (NaN neg true p) column) ->
              (to_numeric_column column = Raise ValueError <->
               exists neg p, In (NaN neg false p) column /\ p <> 0%N)
              /\ forall e, to_numeric_column column = Raise e -> e = ValueError).
  { intros Hq. rewrite (to_numeric_column_quiet _ Hq).
    destruct (mapM_raises (fun d => astype_float (Decimal_str d)) ValueError column)
      as [R1 R2].
    { intros d _. unfold astype_float.
      destruct (python_float (Decimal_str d)); [left; now eexists | now right]. }
    split; [|exact R2]. rewrite R1. split.
    - intros (d & Hd & E). unfold astype_float in E.
      destruct (H d Hd) as [N|N].
      + rewrite (python_float_of_number d N) in E. discriminate E.
      + destruct d as [| |neg g p]; try discriminate N.
        destruct g; [now elim (Hq neg p)|].
        exists neg, p. split; [exact Hd|]. intros ->.
        rewrite python_float_of_nan in E. discriminate E.
    - intros (neg & p & Hd & Hp). exists (NaN neg false p). split; [exact Hd|].
      unfold astype_float. rewrite python_float_of_nan.
      apply N.eqb_neq in Hp. now rewrite Hp. }
  pose proof (astype_str_column column) as [[S1 S2] _].
  split; [|split].
  - split.
    + intros E. unfold to_numeric_column in E.
      destruct (mapM astype_str_decimal column) as [texts|e] eqn:M; cbn [bind] in E.
      * assert (Hq : forall neg p, ~ In (NaN neg true p) column).
        { intros neg p Hd.
          assert (N : @Ok (list string) texts = Raise InvalidOperation)
            by (apply S2; now exists neg, p).
          discriminate N. }
        destruct (Q Hq) as [_ Q2].
        assert (N : InvalidOperation = ValueError).
        { apply Q2. unfold to_numeric_column. rewrite M. exact E. }
        discriminate N.
      * injection E as ->. now apply S1.
    + intros Hs. unfold to_numeric_column. now rewrite (S2 Hs).
  - split.
    + intros E.
      assert (Hq : forall neg p, ~ In (NaN neg true p) column).
      { intros neg p Hd.
        assert (N : to_numeric_column column = Raise InvalidOperation).
        { unfold to_numeric_column.
          now rewrite (S2 (ex_intro _ neg (ex_intro _ p Hd))). }
        rewrite N in E. discriminate E. }
      split; [exact Hq|]. now apply (proj1 (Q Hq)).
    + intros [Hq Hp]. now apply (proj1 (Q Hq)).
  - intros Hn. rewrite to_numeric_column_quiet.
    + apply mapM_pure. intros d Hd. unfold astype_float.
      destruct (H d Hd) as [N|N].
      * now rewrite (python_float_of_number d N).
      * destruct d as [| |neg g p]; try discriminate N.
        destruct (Hn neg g p Hd) as [-> ->].
        now rewrite python_float_of_nan.
    + intros neg p Hd. now destruct (Hn neg true p Hd).
Qed.

Lemma to_numeric_column_fails_on_nan_witness :
  to_numeric_column [NaN false false 123; Fin false 5 0; NaN true true 0]
  = Raise InvalidOperation
  /\ to_numeric_column [Fin false 5 0; NaN false false 123] = Raise ValueError
  /\ to_numeric_column [Fin false 5 0; NaN true false 0]
     = Ok [SpecFloat.S754_finite false 5629499534213120 (-50); SpecFloat.S754_nan].
Proof.
  split; [|split; [|reflexivity]].
  - assert (H : forall d, In d [NaN false false 123; Fin false 5 0; NaN true true 0] ->
                  is_number d = true \/ is_nan d = true).
    { intros d [<-|[<-|[<-|[]]]]; [right | left | right]; reflexivity. }
    apply (proj2 (proj1 (to_numeric_column_fails_on_nan _ H))).
    exists true, 0%N. right. right. now left.
  - reflexivity.
Defined.

(** X18.  The conversion to floats that [write_report] starts with cannot
    fail on what [compare] returns: both frames are converted, every amount,
    delta and total to the float nearest to it, the other columns
    unchanged. *)
Theorem report_frames_convert
    (f1 f2 : string) (file1 : list row1) (file2 : list row2)
    (detail : list detail_row) (summary : list summary_row) :
  compare f1 f2 file1 file2 = Ok (detail, summary) ->
  detail_out detail
  = Ok (map (fun row =>
               Build_detail_out_row (company_id row) (company_name_1 row)
                 (company_name_2 row) (float_of_decimal (amount_1 row))
                 (float_of_decimal (amount_2 row)) (float_of_decimal (delta row))
                 (status row)) detail)
  /\ summary_out summary
     = Ok (map (fun s =>
                  Build_summary_out_row (s_status s) (s_rows s)
                    (float_of_decimal (s_total_amount_1 s))
                    (float_of_decimal (s_total_amount_2 s))
                    (float_of_decimal (s_total_delta s))) summary).
Proof.
  intros Hc. destruct (compare_numbers _ _ _ _ _ _ Hc) as [Hd Hs].
  split; [now apply detail_out_numbers | now apply summary_out_numbers].
Qed.

Lemma report_frames_convert_witness :
  exists detail summary out,
    compare "OC.xlsx" "1C.xlsx" [sheet1 "Acme [1]" "100,00"] [sheet2 "1,000" "Acme" "99.5"]
    = Ok (detail, summary)
    /\ detail_out detail = Ok out
    /\ map o_delta out = [SpecFloat.S754_finite false 4503599627370496 (-53)].
Proof.
  evaluate (compare "OC.xlsx" "1C.xlsx" [sheet1 "Acme [1]" "100,00"]
              [sheet2 "1,000" "Acme" "99.5"]) as Hc.
  lazymatch type of Hc with _ = Ok (?d, ?s) =>
    exists d, s;
    eexists; split; [exact Hc|];
    split; [exact (proj1 (report_frames_convert _ _ _ _ _ _ Hc))|]
  end.
  reflexivity.
Defined.

(** * The counts of a run *)

(** X19.  When the two files have different names, the counts of a run
    add up: every detail row is a MATCH, a MISMATCH or a row of one file
    only.  When they have the same name, as two files of different folders
    may, the two [only_file_] labels are one label, and [only1] and [only2]
    are both the number of rows of either file alone. *)
Theorem run_compare_counts
    (f1 f2 : string) (file1 : list row1) (file2 : list row2)
    (detail : list detail_row) (summary : list summary_row) (st : stats) :
  compare f1 f2 file1 file2 = Ok (detail, summary) ->
  run_compare f1 f2 file1 file2 = Ok st ->
  st_rows st = List.length detail
  /\ (f1 <> f2 ->
      st_rows st = (count_status detail "MATCH" + st_mismatches st
                    + st_only1 st + st_only2 st)%nat)
  /\ (f1 = f2 ->
      st_only1 st = st_only2 st
      /\ st_rows st = (count_status detail "MATCH" + st_mismatches st
                       + st_only1 st)%nat).
Proof.
  intros Hc Hs.
  destruct (run_compare_inv _ _ _ _ _ Hs) as (detail' & summary' & Hc' & ->).
  rewrite Hc in Hc'. injection Hc' as <- <-.
  destruct (compare_inv _ _ _ _ _ _ Hc) as (left & right & _ & _ & Hl & Hr & _).
  cbn [st_rows st_mismatches st_only1 st_only2].
  split; [reflexivity|]. split.
  - intros Hf. exact (count_partition _ _ _ _ _ _ _ _ Hl Hr Hc Hf).
  - intros Hf. split; [now rewrite Hf|].
    exact (count_partition_same _ _ _ _ _ _ _ _ Hl Hr Hc Hf).
Qed.

Lemma run_compare_counts_witness :
  exists detail summary st,
    compare "OC.xlsx" "OC.xlsx"
      [sheet1 "A [1]" "1"; sheet1 "B [2]" "2"] [sheet2 "1,000" "A" "1"; sheet2 "3,000" "C" "3"]
    = Ok (detail, summary)
    /\ run_compare "OC.xlsx" "OC.xlsx"
         [sheet1 "A [1]" "1"; sheet1 "B [2]" "2"] [sheet2 "1,000" "A" "1"; sheet2 "3,000" "C" "3"]
       = Ok st
    /\ st = Build_stats 3 0 2 2
    /\ st_rows st = List.length detail.
Proof.
  evaluate (compare "OC.xlsx" "OC.xlsx"
      [sheet1 "A [1]" "1"; sheet1 "B [2]" "2"] [sheet2 "1,000" "A" "1"; sheet2 "3,000" "C" "3"])
    as Hc.
  evaluate (run_compare "OC.xlsx" "OC.xlsx"
      [sheet1 "A [1]" "1"; sheet1 "B [2]" "2"] [sheet2 "1,000" "A" "1"; sheet2 "3,000" "C" "3"])
    as Hs.
  lazymatch type of Hc with _ = Ok (?d, ?s) =>
  lazymatch type of Hs with _ = Ok ?st => exists d, s, st
  end end.
  split; [exact Hc|]. split; [exact Hs|]. split; [reflexivity|].
  exact (proj1 (run_compare_counts _ _ _ _ _ _ _ Hc Hs)).
Defined.


(** ** Sums that stay in range *)





Lemma below_finite (b : Z) (d : decimal) : below b d = true -> is_finite d = true.
Proof. destruct d; [reflexivity | discriminate | discriminate]. Qed.





















